(** * BigBasket alert scheduler: duplicate prevention and reconciliation

  A shallow embedding of [src/app.py] (class [BigBasketScheduler]) and the
  properties of its duplicate-prevention logic.

  Conventions of the embedding.
  - A Python [str] is a [string]; its characters are the 8-bit characters
    of [ascii] (code points 0..255).  Case mapping is the one of the
    letters A..Z / a..z.
  - A Python [set] of strings is a [gset string]; the dict
    [existing_files_cache] is a [gmap string (gset string)].
  - A remote call that raises is an [option] ([None]) or a result flag of
    the environment; every [try/except] of the source is written out as
    the corresponding [match]. *)

From stdpp Require Import gmap strings list sorting.
From Stdlib Require Import Ascii ZArith Lia DecimalString.
From Stdlib Require Import DecimalPos DecimalNat.

Local Open Scope nat_scope.

(** ** Python string primitives used by the source *)

Module PyStr.

(** [len(s)] *)
Definition len (s : string) : nat := String.length s.

Definition chars : string → list ascii := String.list_ascii_of_string.
Definition str : list ascii → string := String.string_of_list_ascii.

Fixpoint map_chars (f : ascii → ascii) (s : string) : string :=
  match s with
  | EmptyString => EmptyString
  | String c s' => String (f c) (map_chars f s')
  end.

(** [s[:n]] *)
Fixpoint slice_to (n : nat) (s : string) : string :=
  match n, s with
  | S n', String c s' => String c (slice_to n' s')
  | _, _ => EmptyString
  end.

(** [s.split(sep)] for a one-character separator: always at least one
    part, one more part than there are separators. *)
Fixpoint split (sep : ascii) (s : string) : list string :=
  match s with
  | EmptyString => [EmptyString]
  | String c s' =>
      if decide (c = sep) then EmptyString :: split sep s'
      else match split sep s' with
           | p :: ps => String c p :: ps
           | [] => [String c EmptyString]
           end
  end.

(** [sep.join(parts)] *)
Fixpoint join (sep : string) (parts : list string) : string :=
  match parts with
  | [] => EmptyString
  | [p] => p
  | p :: ps => p +:+ sep +:+ join sep ps
  end.

(** [parts[-1]] and [parts[:-1]] on a non-empty list. *)
Definition last_part (parts : list string) : string := List.last parts EmptyString.
Definition but_last (parts : list string) : list string := List.removelast parts.

Definition is_upper (c : ascii) : bool :=
  let n := nat_of_ascii c in (65 <=? n) && (n <=? 90).
Definition is_lower (c : ascii) : bool :=
  let n := nat_of_ascii c in (97 <=? n) && (n <=? 122).
Definition lower_char (c : ascii) : ascii :=
  if is_upper c then ascii_of_nat (nat_of_ascii c + 32) else c.
Definition upper_char (c : ascii) : ascii :=
  if is_lower c then ascii_of_nat (nat_of_ascii c - 32) else c.

(** [s.lower()] and [s.upper()] *)
Definition lower : string → string := map_chars lower_char.
Definition upper : string → string := map_chars upper_char.

(** [s.startswith(p)] *)
Fixpoint startswith (p s : string) : bool :=
  match p, s with
  | EmptyString, _ => true
  | String a p', String b s' => bool_decide (a = b) && startswith p' s'
  | String _ _, EmptyString => false
  end.

(** [sub in s] *)
Fixpoint contains (sub s : string) : bool :=
  startswith sub s ||
  match s with
  | EmptyString => false
  | String _ s' => contains sub s'
  end.

(** [s.endswith(suffix)] *)
Definition endswith (suffix s : string) : bool :=
  startswith (String.rev suffix) (String.rev s).

(** The characters [str.strip()] removes: the white space of the 8-bit
    range. *)
Definition is_space (c : ascii) : bool :=
  let n := nat_of_ascii c in
  ((9 <=? n) && (n <=? 13)) || ((28 <=? n) && (n <=? 32))
  || (n =? 133) || (n =? 160).

Fixpoint lstrip (s : string) : string :=
  match s with
  | String c s' => if is_space c then lstrip s' else s
  | EmptyString => EmptyString
  end.
Definition rstrip (s : string) : string := String.rev (lstrip (String.rev s)).
(** [s.strip()] *)
Definition strip (s : string) : string := rstrip (lstrip s).

(** [s.replace(c, "")] for a one-character [c] *)
Fixpoint remove_char (x : ascii) (s : string) : string :=
  match s with
  | EmptyString => EmptyString
  | String c s' => if decide (c = x) then remove_char x s' else String c (remove_char x s')
  end.

(** Truthiness of a string: [if s:] *)
Definition truthy (s : string) : bool := negb (bool_decide (s = EmptyString)).

(** [str(n)] for a non-negative integer *)
Definition of_nat (n : nat) : string := NilEmpty.string_of_uint (Nat.to_uint n).

(** [str(z)] for an integer *)
Definition of_Z (z : Z) : string :=
  match z with
  | Z0 => "0"
  | Zpos p => NilEmpty.string_of_uint (Pos.to_uint p)
  | Zneg p => String "-" (NilEmpty.string_of_uint (Pos.to_uint p))
  end.

End PyStr.

(** ** Identity extractor *)

Module Identity.
Import PyStr.

(** The character class of the [re.sub] call of [_sanitize_filename]:
    less-than, greater-than, colon, double quote, slash, backslash,
    vertical bar, question mark and asterisk, by code point. *)
Definition illegal (c : ascii) : bool :=
  match nat_of_ascii c with
  | 60 | 62 | 58 | 34 | 47 | 92 | 124 | 63 | 42 => true
  | _ => false
  end.

Definition replace_illegal (c : ascii) : ascii := if illegal c then "_"%char else c.

Definition re_sub_illegal (filename : string) : string := map_chars replace_illegal filename.

Definition _sanitize_filename (filename : string) : string :=
  let cleaned := re_sub_illegal filename in
  if 100 <? len cleaned then
    let name_parts := split "." cleaned in
    if 1 <? length name_parts then
      let extension := last_part name_parts in
      let base_name := join "." (but_last name_parts) in
      slice_to 95 base_name +:+ "." +:+ extension
    else slice_to 100 cleaned
  else cleaned.

(** The attachment gate of [_extract_attachments_from_email] and
    [_count_attachments_in_email]:
    the lower-cased file name ends with .xls, .xlsx or .xlsm. *)
Definition is_excel_name (filename : string) : bool :=
  let l := lower filename in
  endswith ".xls" l || endswith ".xlsx" l || endswith ".xlsm" l.

(** [final_filename]: the message id, an underscore, the cleaned name. *)
Definition final_filename (message_id filename : string) : string :=
  message_id +:+ "_" +:+ _sanitize_filename filename.

End Identity.

(** ** The dataset as the Sheets API returns it *)

(** [result.get('values', [])]: a list of rows, each a list of cell texts;
  rows may be ragged.  Row 0 is the header row. *)
Abbreviation values := (list (list string)).

(** [enumerate(l)] *)
Definition enumerate {A} (l : list A) : list (nat * A) := zip (seq 0 (length l)) l.

(** [row[i]] where the source has checked [len(row) > i]. *)
Definition cell_at (row : list string) (i : nat) : string := nth i row EmptyString.

(** ** Existing-state index built from the dataset *)

Module Index.
Import PyStr.

(** [header and 'PO' in str(header).upper()] *)
Definition is_po_header (header : string) : bool :=
  truthy header && contains "PO" (upper header).
(** [header and 'SKU' in str(header).upper()] *)
Definition is_sku_header (header : string) : bool :=
  truthy header && contains "SKU" (upper header).
(** [header and 'source_file_name' in str(header).lower()] *)
Definition is_source_file_header (header : string) : bool :=
  truthy header && contains "source_file_name" (lower header).

(** The body of the loop of [_get_processed_files_from_sheet] over
    [enumerate(headers)]: two independent [if]s, no [break]. *)
Definition key_columns_step (acc : option nat * option nat) (ih : nat * string)
  : option nat * option nat :=
  let '(po_col_idx, sku_col_idx) := acc in
  let '(i, header) := ih in
  let po_col_idx := if is_po_header header then Some i else po_col_idx in
  let sku_col_idx := if is_sku_header header then Some i else sku_col_idx in
  (po_col_idx, sku_col_idx).

Definition find_key_columns (headers : list string) : option nat * option nat :=
  fold_left key_columns_step (enumerate headers) (None, None).

(** [f"{po_no}|{sku_code}"] *)
Definition unique_key (po_no sku_code : string) : string := po_no +:+ "|" +:+ sku_code.

(** One iteration of [for row in values[1:]]. *)
Definition add_row_key (po_col_idx sku_col_idx : nat)
    (processed_data : gset string) (row : list string) : gset string :=
  if Nat.max po_col_idx sku_col_idx <? length row then
    let po_no := if truthy (cell_at row po_col_idx)
                 then strip (cell_at row po_col_idx) else EmptyString in
    let sku_code := if truthy (cell_at row sku_col_idx)
                    then strip (cell_at row sku_col_idx) else EmptyString in
    if truthy po_no && truthy sku_code
    then processed_data ∪ {[ unique_key po_no sku_code ]}
    else processed_data
  else processed_data.

(** [_get_processed_files_from_sheet].  The argument is the answer of
    [values().get]: [None] when the call raises, which the function
    catches, returning the empty set. *)
Definition _get_processed_files_from_sheet (response : option values) : gset string :=
  match response with
  | None => ∅
  | Some [] => ∅
  | Some (headers :: data) =>
      match find_key_columns headers with
      | (Some po_col_idx, Some sku_col_idx) =>
          fold_left (add_row_key po_col_idx sku_col_idx) data ∅
      | _ => ∅
      end
  end.

(** The loop of [_get_source_file_names_from_sheet] over the headers:
    the first match is taken ([break]). *)
Fixpoint find_source_file_column_from (i : nat) (headers : list string) : option nat :=
  match headers with
  | [] => None
  | header :: rest =>
      if is_source_file_header header then Some i
      else find_source_file_column_from (S i) rest
  end.
Definition find_source_file_column : list string → option nat :=
  find_source_file_column_from 0.

Definition add_source_file (source_file_col_idx : nat)
    (source_files : gset string) (row : list string) : gset string :=
  if source_file_col_idx <? length row then
    let source_file := strip (cell_at row source_file_col_idx) in
    if truthy source_file then source_files ∪ {[ source_file ]} else source_files
  else source_files.

(** [_get_source_file_names_from_sheet] *)
Definition _get_source_file_names_from_sheet (response : option values) : gset string :=
  match response with
  | None => ∅
  | Some [] => ∅
  | Some (headers :: data) =>
      match find_source_file_column headers with
      | None => ∅
      | Some source_file_col_idx =>
          fold_left (add_source_file source_file_col_idx) data ∅
      end
  end.

(** [_check_sheet_headers]: [bool(result.get('values', []))] for the
    range A1, [False] when the call raises. *)
Definition _check_sheet_headers (response : option values) : bool :=
  match response with
  | None => false
  | Some v => negb (bool_decide (v = []))
  end.

End Index.

(** ** Parsed spreadsheet files *)

Module Frame.
Import PyStr.

(** A scalar of a parsed table: a missing value (NaN), a Python string,
    or any other scalar (integer, float, timestamp), which the source
    only ever inspects through [str()] and is therefore identified by
    that text. *)
Inductive cell :=
| CNaN
| CStr (s : string)
| CNum (repr : string).

#[global] Instance cell_eq_dec : EqDecision cell.
Proof. solve_decision. Defined.

(** A column label and whether the column has dtype [object]. *)
Record column := { col_name : string; col_object : bool }.

#[global] Instance column_eq_dec : EqDecision column.
Proof. solve_decision. Defined.

(** A [pandas.DataFrame]: labelled columns and rows of scalars, every
    row as long as the column list.  Column labels are taken to be
    pairwise distinct, as the decoders produce them. *)
Record DataFrame := { df_columns : list column; df_rows : list (list cell) }.

(** [pd.DataFrame()] *)
Definition empty_frame : DataFrame := {| df_columns := []; df_rows := [] |}.

(** [df.empty]: some axis has length zero. *)
Definition df_empty (df : DataFrame) : bool :=
  match df_columns df, df_rows df with
  | [], _ | _, [] => true
  | _, _ => false
  end.

(** [str(x)] of a scalar. *)
Definition cell_str (c : cell) : string :=
  match c with
  | CNaN => "nan"
  | CStr s => s
  | CNum repr => repr
  end.

(** [pd.isna(x)] *)
Definition isna (c : cell) : bool :=
  match c with CNaN => true | _ => false end.

(** The scalar of a row under the column at position [j]. *)
Definition at_col (row : list cell) (j : nat) : cell := nth j row CNaN.

(** [df[col].astype(str).str.replace(quote, empty, regex=False)] on one
    scalar of an object column; the quote is the apostrophe. *)
Definition unquote (c : cell) : cell := CStr (remove_char "'"%char (cell_str c)).

(** One row after the loop over [string_columns]. *)
Fixpoint clean_row (cols : list column) (row : list cell) : list cell :=
  match cols, row with
  | col :: cols', c :: row' =>
      (if col_object col then unquote c else c) :: clean_row cols' row'
  | _, _ => row
  end.

(** The mask on the fifth column: [True] for the rows that are kept. *)
Definition fifth_col_mask (row : list cell) : bool :=
  let c := at_col row 4 in
  negb (isna c
        || bool_decide (strip (cell_str c) = EmptyString)
        || bool_decide (strip (cell_str c) = "nan")).

(** [drop_duplicates(keep='first')] on the key [key]: a row is dropped
    when an earlier row of the table has the same key. *)
Fixpoint drop_duplicates_from {A K} `{EqDecision K} (key : A → K)
    (seen : list K) (l : list A) : list A :=
  match l with
  | [] => []
  | x :: l' =>
      if decide (key x ∈ seen) then drop_duplicates_from key seen l'
      else x :: drop_duplicates_from key (key x :: seen) l'
  end.
Definition drop_duplicates_by {A K} `{EqDecision K} (key : A → K) (l : list A) : list A :=
  drop_duplicates_from key [] l.

(** [_clean_dataframe] *)
Definition _clean_dataframe (df : DataFrame) : DataFrame :=
  if df_empty df then df
  else
    let rows1 := map (clean_row (df_columns df)) (df_rows df) in
    let rows2 := if 5 <=? length (df_columns df)
                 then filter (λ row, fifth_col_mask row = true) rows1
                 else rows1 in
    {| df_columns := df_columns df; df_rows := drop_duplicates_by id rows2 |}.

(** What the decoders give for a file of the store, by file id.  The
    download and the decoders are external: [None] is a call that
    raises. *)
Record Decoders := {
  download : string → option unit;
  read_openpyxl : string → option DataFrame;
  read_xlrd : string → option DataFrame;
  (** [_try_raw_xml_extraction] catches every exception itself. *)
  raw_xml_extraction : string → DataFrame;
}.

(** One [try: ... if not df.empty: return self._clean_dataframe(df)
    except: pass] block; [None] means fall through. *)
Definition try_decoder (decoded : option DataFrame) : option DataFrame :=
  match decoded with
  | Some df => if df_empty df then None else Some (_clean_dataframe df)
  | None => None
  end.

(** [_read_excel_file_robust] *)
Definition _read_excel_file_robust (dec : Decoders) (file_id filename : string) : DataFrame :=
  match download dec file_id with
  | None => empty_frame
  | Some _ =>
      match try_decoder (read_openpyxl dec file_id) with
      | Some df => df
      | None =>
          match (if endswith ".xls" (lower filename)
                 then try_decoder (read_xlrd dec file_id) else None) with
          | Some df => df
          | None =>
              let df := raw_xml_extraction dec file_id in
              if df_empty df then empty_frame else _clean_dataframe df
          end
      end
  end.

End Frame.

(** ** Python number parsing, as used by [process_value] *)

Module PyNum.
Import PyStr.

Definition digit_val (c : ascii) : option Z :=
  let n := nat_of_ascii c in
  if (48 <=? n) && (n <=? 57) then Some (Z.of_nat (n - 48)) else None.

(** [digit (["_"] digit)*] after its first digit; [pending] records an
    underscore that still needs a digit after it. *)
Fixpoint digits_go (acc : Z) (pending : bool) (s : string) : option Z :=
  match s with
  | EmptyString => if pending then None else Some acc
  | String c s' =>
      if decide (c = "_"%char) then
        if pending then None else digits_go acc true s'
      else match digit_val c with
           | Some d => digits_go (10 * acc + d)%Z false s'
           | None => None
           end
  end.

Definition digitpart (s : string) : option Z :=
  match s with
  | EmptyString => None
  | String c s' =>
      match digit_val c with
      | Some d => digits_go d false s'
      | None => None
      end
  end.

Definition signed (body : string → option Z) (s : string) : option Z :=
  match s with
  | String "+" r => body r
  | String "-" r => Z.opp <$> body r
  | _ => body s
  end.

(** [int(s)] for a string: [None] is [ValueError]. *)
Definition py_int (s : string) : option Z := signed digitpart (strip s).

Definition is_digitpart (s : string) : bool := bool_decide (is_Some (digitpart s)).

(** [number ::= [digitpart] "." digitpart | digitpart ["."]] *)
Definition is_number (s : string) : bool :=
  match split "." s with
  | [a] => is_digitpart a
  | [a; b] =>
      (is_digitpart a && (is_digitpart b || bool_decide (b = EmptyString)))
      || (bool_decide (a = EmptyString) && is_digitpart b)
  | _ => false
  end.

Definition unsigned_part (s : string) : string :=
  match s with
  | String "+" r | String "-" r => r
  | _ => s
  end.

(** [number [("e" | "E") [sign] digitpart]] *)
Definition is_floatnumber (s : string) : bool :=
  match split "e" (lower s) with
  | [m] => is_number m
  | [m; e] => is_number m && is_digitpart (unsigned_part e)
  | _ => false
  end.

(** Whether [float(s)] succeeds on a string. *)
Definition py_float_ok (s : string) : bool :=
  let r := unsigned_part (strip s) in
  let l := lower r in
  bool_decide (l = "inf") || bool_decide (l = "infinity") || bool_decide (l = "nan")
  || is_floatnumber r.

End PyNum.

(** ** Dataset cleanup pass *)

Module Cleanup.
Import PyStr PyNum Frame.

(** A value of the body sent to [values().update]: the results of
    [process_value].  A float is kept as the literal [float()] accepted;
    its binary value is not interpreted. *)
Inductive pyvalue :=
| VStr (s : string)
| VInt (z : Z)
| VFloat (literal : string).

#[global] Instance pyvalue_eq_dec : EqDecision pyvalue.
Proof. solve_decision. Defined.

(** [process_value] on a cell of the cleaned table (a string, after
    [fillna]). *)
Definition process_value (v : string) : pyvalue :=
  if bool_decide (v = EmptyString) then VStr EmptyString
  else if contains "." v || contains "e" (lower v) then
    (if py_float_ok v then VFloat v else VStr v)
  else match py_int v with
       | Some z => VInt z
       | None => VStr v
       end.

(** [max(len(row) for row in values)] *)
Definition max_len (vals : values) : nat := foldr Nat.max 0 (map length vals).

(** [row.extend([''] * (max_len - len(row)))] *)
Definition pad (n : nat) (row : list string) : list string :=
  row ++ replicate (n - length row) EmptyString.

(** [values[0][i] if values[0][i] else f"Column_{i+1}"] *)
Definition header_name (ih : nat * string) : string :=
  let '(i, h) := ih in
  if truthy h then h else "Column_" +:+ of_nat (i + 1).

Definition has_column (label : string) (headers : list string) : bool :=
  bool_decide (label ∈ headers).

(** The positions of the columns whose label is in [subset]. *)
Definition subset_positions (subset headers : list string) : list nat :=
  map fst (filter (λ ih, snd ih ∈ subset) (enumerate headers)).

(** The tuple [drop_duplicates(subset=...)] compares: the cells of the
    row under every column whose label is in the subset, in column
    order. *)
Definition subset_key (subset headers : list string) (row : list string) : list string :=
  map (cell_at row) (subset_positions subset headers).

Definition key_subset : list string := ["Sku Code"; "PO No"].

(** [df.drop_duplicates(subset=["Sku Code", "PO No"], keep="first")],
    guarded by the presence of both labels. *)
Definition dedup_rows (headers : list string) (rows : values) : values :=
  if has_column "Sku Code" headers && has_column "PO No" headers
  then drop_duplicates_by (subset_key key_subset headers) rows
  else rows.

(** A row that [dropna(how='all')] removes after [replace('', pd.NA)]. *)
Definition all_blank (row : list string) : bool :=
  forallb (λ c, bool_decide (c = EmptyString)) row.

(** [dropna(how='all', axis=1)]: the positions of the columns that keep
    at least one non-blank cell. *)
Definition kept_columns (width : nat) (rows : values) : list nat :=
  filter (λ j, existsb (λ row, negb (bool_decide (cell_at row j = EmptyString))) rows = true)
         (seq 0 width).

Definition project {A} (d : A) (cols : list nat) (row : list A) : list A :=
  map (λ j, nth j row d) cols.

(** The position of the single column labelled [label]; [None] when
    there is none. *)
Definition position_of (label : string) (headers : list string) : option nat :=
  head (subset_positions [label] headers).

(** [df.sort_values(by="PO No", ascending=True)] on string cells. *)
Definition row_le (j : nat) (r1 r2 : list string) : Prop :=
  String.le (cell_at r1 j) (cell_at r2 j).

#[global] Instance row_le_dec j : RelDecision (row_le j).
Proof. intros r1 r2. unfold row_le. apply _. Defined.

Definition sort_rows (j : nat) (rows : values) : values := merge_sort (row_le j) rows.

(** The outcome of the pass: the count it returns and, when the sheet is
    rewritten, the body of the [update] call. *)
Record outcome := {
  total_removed : nat;
  written : option (list (list pyvalue));
  (** the intermediate tables of the pass, for the statements below *)
  after_dedup : values;
  after_blank : values;
}.

(** The body of [_remove_duplicates_from_sheet] on the answer of
    [values().get].  [sort_values] raises on a label that is not unique;
    the function catches it and returns 0 before anything is written. *)
Definition cleanup_pass (vals : values) : outcome :=
  match vals with
  | [] => {| total_removed := 0; written := None; after_dedup := []; after_blank := [] |}
  | first :: _ =>
      let n := max_len vals in
      let padded := map (pad n) vals in
      let headers := map header_name (enumerate (pad n first)) in
      let rows := tail padded in
      let before := length rows in
      let deduped := dedup_rows headers rows in
      let after_dup := length deduped in
      let removed_dup := before - after_dup in
      let nonblank := filter (λ row, all_blank row = false) deduped in
      let cols := kept_columns n nonblank in
      let headers' := project EmptyString cols headers in
      let rows' := map (project EmptyString cols) nonblank in
      let after_clean := length rows' in
      let removed_clean := after_dup - after_clean in
      if has_column "PO No" headers' then
        match subset_positions ["PO No"] headers' with
        | [j] =>
            {| total_removed := removed_dup + removed_clean;
               written := Some (map VStr headers'
                                :: map (map process_value) (sort_rows j rows'));
               after_dedup := deduped; after_blank := rows' |}
        | _ => {| total_removed := 0; written := None;
                  after_dedup := deduped; after_blank := rows' |}
        end
      else
        {| total_removed := removed_dup + removed_clean;
           written := Some (map VStr headers' :: map (map process_value) rows');
           after_dedup := deduped; after_blank := rows' |}
  end.

(** The text the dataset store shows for a written value.  Text and
    integers are shown as written; for a float the store's rendering is
    not modelled and the literal stands for it. *)
Definition shown (v : pyvalue) : string :=
  match v with
  | VStr s => s
  | VInt z => of_Z z
  | VFloat literal => strip literal
  end.

(** [_remove_duplicates_from_sheet] on the dataset [grid]: the count
    returned and the dataset after [clear] and [update]. *)
Definition _remove_duplicates_from_sheet (grid : values) : nat * values :=
  let o := cleanup_pass grid in
  (total_removed o,
   match written o with
   | Some body => map (map shown) body
   | None => grid
   end).

End Cleanup.

(** ** Row/file reconciler: [process_excel_workflow] *)

Module Reconciler.
Import PyStr Frame Index.

(** A file of the store as the listing returns it. *)
Record DriveFile := { file_id : string; file_name : string }.

(** The file counters of [self.stats]. *)
Record Stats := {
  files_found : nat;
  files_processed : nat;
  files_skipped : nat;
  files_failed : nat;
  duplicates_removed : nat;
}.

Definition zero_stats : Stats :=
  {| files_found := 0; files_processed := 0; files_skipped := 0;
     files_failed := 0; duplicates_removed := 0 |}.

(** The remote side of the workflow: the decoders and whether an
    [append] call with a given body succeeds ([false]: it raises). *)
Record Remote := {
  decoders : Decoders;
  append_ok : values → bool;
}.

Definition column_names (df : DataFrame) : list string := map col_name (df_columns df).

(** The position of the first column labelled [label]. *)
Fixpoint index_of (label : string) (names : list string) : option nat :=
  match names with
  | [] => None
  | n :: rest => if decide (n = label) then Some 0 else S <$> index_of label rest
  end.

(** [str(row.get(label, '')).strip()] *)
Definition row_get (df : DataFrame) (label : string) (row : list cell) : string :=
  match index_of label (column_names df) with
  | Some j => strip (cell_str (at_col row j))
  | None => EmptyString
  end.

Fixpoint set_at {A} (j : nat) (x : A) (l : list A) : list A :=
  match j, l with
  | 0, _ :: l' => x :: l'
  | S j', y :: l' => y :: set_at j' x l'
  | _, [] => []
  end.

(** [df['source_file_name'] = file['name']]: overwrite the column when
    the file already has one of that label, else add it as last column. *)
Definition add_source_file_name (name : string) (df : DataFrame) : DataFrame :=
  match index_of "source_file_name" (column_names df) with
  | Some j =>
      {| df_columns := set_at j {| col_name := "source_file_name"; col_object := true |}
                              (df_columns df);
         df_rows := map (set_at j (CStr name)) (df_rows df) |}
  | None =>
      {| df_columns := df_columns df ++ [{| col_name := "source_file_name"; col_object := true |}];
         df_rows := map (λ row, row ++ [CStr name]) (df_rows df) |}
  end.

Definition has_key_columns (df : DataFrame) : bool :=
  bool_decide ("PO No" ∈ column_names df) && bool_decide ("Sku Code" ∈ column_names df).

(** The key the mask of the row-level filter looks up. *)
Definition row_key (df : DataFrame) (row : list cell) : string :=
  unique_key (row_get df "PO No" row) (row_get df "Sku Code" row).

(** [df[mask]]: the rows whose key is not in [existing_data]. *)
Definition filter_new_rows (existing_data : gset string) (df : DataFrame) : DataFrame :=
  {| df_columns := df_columns df;
     df_rows := filter (λ row, row_key df row ∉ existing_data) (df_rows df) |}.

(** [df.fillna('')] and [values.tolist()], as cell texts. *)
Definition cell_text (c : cell) : string :=
  match c with
  | CNaN => EmptyString
  | CStr s => s
  | CNum repr => repr
  end.

(** The body [_append_to_sheet] sends. *)
Definition append_body (df : DataFrame) (append_headers : bool) : values :=
  let data := map (map cell_text) (df_rows df) in
  if append_headers then column_names df :: data else data.

(** One iteration of the cache update loop after the append. *)
Definition add_key (df : DataFrame) (existing_data : gset string) (row : list cell)
  : gset string :=
  let po_no := row_get df "PO No" row in
  let sku_code := row_get df "Sku Code" row in
  if truthy po_no && truthy sku_code
  then existing_data ∪ {[ unique_key po_no sku_code ]}
  else existing_data.

(** The state threaded through the loop over [files_to_process]. *)
Record Run := {
  stats : Stats;
  existing_data : gset string;
  is_first_file : bool;
  sheet_has_headers : bool;
  (** the dataset, as a healthy store holds it: appended rows land after
      the last row *)
  grid : values;
  (** file ids handed to [_read_excel_file_robust], latest first *)
  reads : list string;
  (** the bodies of the successful [append] calls with the file they
      come from, latest first *)
  appends : list (string * values);
}.

Definition bump_skipped (s : Stats) : Stats :=
  {| files_found := files_found s; files_processed := files_processed s;
     files_skipped := S (files_skipped s); files_failed := files_failed s;
     duplicates_removed := duplicates_removed s |}.
Definition bump_failed (s : Stats) : Stats :=
  {| files_found := files_found s; files_processed := files_processed s;
     files_skipped := files_skipped s; files_failed := S (files_failed s);
     duplicates_removed := duplicates_removed s |}.
Definition bump_processed (s : Stats) : Stats :=
  {| files_found := files_found s; files_processed := S (files_processed s);
     files_skipped := files_skipped s; files_failed := files_failed s;
     duplicates_removed := duplicates_removed s |}.
Definition set_duplicates_removed (n : nat) (s : Stats) : Stats :=
  {| files_found := files_found s; files_processed := files_processed s;
     files_skipped := files_skipped s; files_failed := files_failed s;
     duplicates_removed := n |}.

Definition with_stats (f : Stats → Stats) (r : Run) : Run :=
  {| stats := f (stats r); existing_data := existing_data r;
     is_first_file := is_first_file r; sheet_has_headers := sheet_has_headers r;
     grid := grid r; reads := reads r; appends := appends r |}.

Definition with_read (id : string) (r : Run) : Run :=
  {| stats := stats r; existing_data := existing_data r;
     is_first_file := is_first_file r; sheet_has_headers := sheet_has_headers r;
     grid := grid r; reads := id :: reads r; appends := appends r |}.

(** The first loop: files whose name is in the [source_file_name] column
    are counted as skipped, the others are collected. *)
Definition filter_step (processed_source_files : gset string)
    (acc : Stats * list DriveFile) (file : DriveFile) : Stats * list DriveFile :=
  let '(s, files_to_process) := acc in
  if decide (file_name file ∈ processed_source_files)
  then (bump_skipped s, files_to_process)
  else (s, files_to_process ++ [file]).

(** The frame of a file as the loop holds it after
    [df['source_file_name'] = file['name']]. *)
Definition labelled (env : Remote) (file : DriveFile) : DataFrame :=
  add_source_file_name (file_name file)
    (_read_excel_file_robust (decoders env) (file_id file) (file_name file)).

(** The frame after the row-level filter, which runs only when both key
    columns are present. *)
Definition candidate_rows (env : Remote) (existing_data : gset string) (file : DriveFile)
  : DataFrame :=
  let df := labelled env file in
  if has_key_columns df then filter_new_rows existing_data df else df.

(** The body of the second loop, for one file of [files_to_process]. *)
Definition process_file (env : Remote) (r : Run) (file : DriveFile) : Run :=
  let df := _read_excel_file_robust (decoders env) (file_id file) (file_name file) in
  let r := with_read (file_id file) r in
  if df_empty df then with_stats bump_failed r
  else
    let df := labelled env file in
    let df' := candidate_rows env (existing_data r) file in
    if has_key_columns df && df_empty df' then with_stats bump_skipped r
    else
      let append_headers := is_first_file r && negb (sheet_has_headers r) in
      let body := append_body df' append_headers in
      if bool_decide (body = []) || append_ok env body then
        {| stats := bump_processed (stats r);
           existing_data :=
             if has_key_columns df'
             then fold_left (add_key df') (df_rows df') (existing_data r)
             else existing_data r;
           is_first_file := false;
           sheet_has_headers := true;
           grid := grid r ++ body;
           reads := reads r;
           appends := (file_name file, body) :: appends r |}
      else with_stats bump_failed r.

(** The answer of the read of range A1: the API omits [values] when the
    cell is empty. *)
Definition a1_range (grid : values) : values :=
  match grid with
  | (c :: _) :: _ => if truthy c then [[c]] else []
  | _ => []
  end.

Definition start_run (s : Stats) (existing : gset string) (has_headers : bool)
    (grid : values) : Run :=
  {| stats := s; existing_data := existing; is_first_file := true;
     sheet_has_headers := has_headers; grid := grid; reads := []; appends := [] |}.

Definition set_files_found (n : nat) (s : Stats) : Stats :=
  {| files_found := n; files_processed := files_processed s;
     files_skipped := files_skipped s; files_failed := files_failed s;
     duplicates_removed := duplicates_removed s |}.

(** The two loops of [process_excel_workflow], before the final cleanup:
    [s] are the counters on entry, [excel_files] the listing of the
    folder and [grid] the dataset, whose reads are taken to succeed. *)
Definition reconcile (env : Remote) (s : Stats) (excel_files : list DriveFile)
    (grid : values) : Run :=
  let s := set_files_found (length excel_files) s in
  match excel_files with
  | [] => start_run s ∅ false grid
  | _ =>
      let processed_source_files := _get_source_file_names_from_sheet (Some grid) in
      let existing := _get_processed_files_from_sheet (Some grid) in
      let has_headers := _check_sheet_headers (Some (a1_range grid)) in
      let '(s, files_to_process) :=
        fold_left (filter_step processed_source_files) excel_files (s, []) in
      fold_left (process_file env) files_to_process (start_run s existing has_headers grid)
  end.

(** [process_excel_workflow]: the reconciler, then the cleanup pass when
    at least one file was processed. *)
Definition process_excel_workflow (env : Remote) (s : Stats)
    (excel_files : list DriveFile) (grid : values) : Run :=
  let r := reconcile env s excel_files grid in
  if 0 <? files_processed (stats r) then
    let '(duplicates, grid') := Cleanup._remove_duplicates_from_sheet (Reconciler.grid r) in
    {| stats := set_duplicates_removed duplicates (stats r);
       existing_data := existing_data r; is_first_file := is_first_file r;
       sheet_has_headers := sheet_has_headers r; grid := grid';
       reads := reads r; appends := appends r |}
  else r.

End Reconciler.

(** ** Attachments: the file-store side of the reconciler *)

Module Drive.
Import PyStr Identity.

(** An entry of the file store (a file or a folder) under a parent. *)
Record item := {
  item_id : string;
  item_name : string;
  item_parent : string;
  item_is_folder : bool;
}.

(** Which remote calls raise, by request. *)
Record Faults := {
  (** the listing of a folder, in [_get_existing_files_in_folder] *)
  list_fails : string → bool;
  (** the calls of [_create_drive_folder], by name and parent *)
  folder_fails : string → string → bool;
  (** the download of an attachment, by message and attachment id *)
  fetch_fails : string → string → bool;
  (** the upload of a file, by parent and name *)
  upload_fails : string → string → bool;
}.

(** The file store and the scheduler's cache of folder listings. *)
Record state := {
  items : list item;
  (** number of entries created so far, from which new ids are made *)
  created : nat;
  existing_files_cache : gmap string (gset string);
}.

Definition new_id (st : state) : string := "new_" +:+ of_nat (created st).

(** The names the store lists under [folder_id]: all pages of
    [files().list], files and folders alike. *)
Definition listing (its : list item) (folder_id : string) : gset string :=
  list_to_set (map item_name (filter (λ it, item_parent it = folder_id) its)).

(** [_get_existing_files_in_folder] *)
Definition _get_existing_files_in_folder (env : Faults) (st : state) (folder_id : string)
  : gset string * state :=
  match existing_files_cache st !! folder_id with
  | Some existing_files => (existing_files, st)
  | None =>
      if list_fails env folder_id then (∅, st)
      else
        let existing_files := listing (items st) folder_id in
        (existing_files,
         {| items := items st; created := created st;
            existing_files_cache := <[folder_id := existing_files]> (existing_files_cache st) |})
  end.

(** [_check_file_exists_in_drive] *)
Definition _check_file_exists_in_drive (env : Faults) (st : state)
    (folder_id filename : string) : bool * state :=
  let '(existing_files, st) := _get_existing_files_in_folder env st folder_id in
  (bool_decide (filename ∈ existing_files), st).

(** The query of [_create_drive_folder]: folders of that name, under the
    parent when one is given. *)
Definition is_folder_named (folder_name parent_folder_id : string) (it : item) : bool :=
  item_is_folder it && bool_decide (item_name it = folder_name)
  && (negb (truthy parent_folder_id) || bool_decide (item_parent it = parent_folder_id)).

(** [_create_drive_folder]: the id of the first folder found, else of a
    newly created one, after which the cached listing of the parent is
    dropped; the empty string when a call raises. *)
Definition _create_drive_folder (env : Faults) (st : state)
    (folder_name parent_folder_id : string) : string * state :=
  if folder_fails env folder_name parent_folder_id then (EmptyString, st)
  else
    match List.find (is_folder_named folder_name parent_folder_id) (items st) with
    | Some it => (item_id it, st)
    | None =>
        let folder := {| item_id := new_id st; item_name := folder_name;
                         item_parent := parent_folder_id; item_is_folder := true |} in
        (item_id folder,
         {| items := items st ++ [folder]; created := S (created st);
            existing_files_cache :=
              if truthy parent_folder_id
              then delete parent_folder_id (existing_files_cache st)
              else existing_files_cache st |})
    end.

(** The upload of [final_filename] under [type_folder_id] and the cache
    update that follows it. *)
Definition upload (st : state) (type_folder_id final_filename : string) : state :=
  {| items := items st ++ [{| item_id := new_id st; item_name := final_filename;
                              item_parent := type_folder_id; item_is_folder := false |}];
     created := S (created st);
     existing_files_cache :=
       match existing_files_cache st !! type_folder_id with
       | Some names => <[type_folder_id := names ∪ {[ final_filename ]}]> (existing_files_cache st)
       | None => existing_files_cache st
       end |}.

(** A message payload: a node with [parts], or a part with a file name
    and, when it is an attachment, the id of its body. *)
#[warning="-register-all"] Inductive payload :=
| Parts (parts : list payload)
| Part (filename : string) (attachment_id : option string).

(** The sender folder: the address between angle brackets when there
    are any. *)
Definition sender_address (sender : string) : string :=
  if contains "<" sender && contains ">" sender
  then strip (nth 0 (split ">" (nth 1 (split "<" sender) EmptyString)) EmptyString)
  else sender.

(** (saved, skipped, failed) *)
Definition counts : Type := nat * nat * nat.
Definition add_counts (a b : counts) : counts :=
  let '(s1, k1, f1) := a in let '(s2, k2, f2) := b in (s1 + s2, k1 + k2, f1 + f2).

(** The leaf branch of [_extract_attachments_from_email]. *)
Definition extract_part (env : Faults) (message_id sender base_folder_id : string)
    (filename attachment_id : string) (st : state) : counts * state :=
  if negb (is_excel_name filename) then ((0, 0, 0), st)
  else
    let sender_folder_name := _sanitize_filename (sender_address sender) in
    let '(type_folder_id, st) := _create_drive_folder env st sender_folder_name base_folder_id in
    let final := final_filename message_id filename in
    let '(found, st) := _check_file_exists_in_drive env st type_folder_id final in
    if found then ((0, 1, 0), st)
    else if fetch_fails env message_id attachment_id then ((0, 0, 1), st)
    else if upload_fails env type_folder_id final then ((0, 0, 1), st)
    else ((1, 0, 0), upload st type_folder_id final).

(** [_extract_attachments_from_email] *)
Fixpoint _extract_attachments_from_email (env : Faults)
    (message_id sender base_folder_id : string) (p : payload) (st : state)
  : counts * state :=
  match p with
  | Parts parts =>
      (fix each (ps : list payload) (acc : counts) (st : state) : counts * state :=
         match ps with
         | [] => (acc, st)
         | part :: ps' =>
             let '(c, st) :=
               _extract_attachments_from_email env message_id sender base_folder_id part st in
             each ps' (add_counts acc c) st
         end) parts (0, 0, 0) st
  | Part filename (Some attachment_id) =>
      if truthy filename
      then extract_part env message_id sender base_folder_id filename attachment_id st
      else ((0, 0, 0), st)
  | Part _ None => ((0, 0, 0), st)
  end.

(** [_count_attachments_in_email] *)
Fixpoint _count_attachments_in_email (p : payload) : nat :=
  match p with
  | Parts parts => list_sum (map _count_attachments_in_email parts)
  | Part filename (Some _) =>
      if truthy filename && is_excel_name filename then 1 else 0
  | Part _ None => 0
  end.

(** A message of the search result: its id, the sender
    [_get_email_details] reports, and what the full fetch gives
    ([None]: the fetch raises; [Some None]: no payload). *)
Record email := {
  email_id : string;
  email_sender : string;
  email_message : option (option payload);
}.

(** The attachment counters of [self.stats]. *)
Record MailStats := {
  emails_checked : nat;
  attachments_found : nat;
  attachments_saved : nat;
  attachments_skipped : nat;
  attachments_failed : nat;
}.

Definition zero_mail_stats : MailStats :=
  {| emails_checked := 0; attachments_found := 0; attachments_saved := 0;
     attachments_skipped := 0; attachments_failed := 0 |}.

(** One iteration of the loop of [process_gmail_workflow] over the
    messages; the accumulator holds the counters and the store. *)
Definition process_email (env : Faults) (base_folder_id : string)
    (acc : MailStats * state) (e : email) : MailStats * state :=
  let '(s, st) := acc in
  match email_message e with
  | None =>
      ({| emails_checked := emails_checked s; attachments_found := attachments_found s;
          attachments_saved := attachments_saved s;
          attachments_skipped := attachments_skipped s;
          attachments_failed := S (attachments_failed s) |}, st)
  | Some None => (s, st)
  | Some (Some p) =>
      let '((saved, skipped, failed), st') :=
        _extract_attachments_from_email env (email_id e) (email_sender e) base_folder_id p st in
      ({| emails_checked := emails_checked s;
          attachments_found := attachments_found s + _count_attachments_in_email p;
          attachments_saved := attachments_saved s + saved;
          attachments_skipped := attachments_skipped s + skipped;
          attachments_failed := attachments_failed s + failed |}, st')
  end.

(** [process_gmail_workflow] on the messages the search returned, with
    the configured folder [gdrive_folder_id]; the counters and the store
    after it, and the value it returns. *)
Definition process_gmail_workflow (env : Faults) (gdrive_folder_id : string)
    (emails : list email) (st : state) : bool * MailStats * state :=
  let s := {| emails_checked := length emails; attachments_found := 0;
              attachments_saved := 0; attachments_skipped := 0;
              attachments_failed := 0 |} in
  match emails with
  | [] => (true, s, st)
  | _ =>
      let '(base_folder_id, st) :=
        _create_drive_folder env st "Gmail_Attachments_BigBasket" gdrive_folder_id in
      if negb (truthy base_folder_id) then (false, s, st)
      else
        let '(s, st) := fold_left (process_email env base_folder_id) emails (s, st) in
        (true, s, st)
  end.

(** The store as a run finds it: [run_workflow] resets the cache. *)
Definition fresh_run (st : state) : state :=
  {| items := items st; created := created st; existing_files_cache := ∅ |}.

End Drive.

(** ** Run orchestrator: [run_workflow] *)

Module Orchestrator.

(** What a call gives its caller. *)
Inductive outcome (A : Type) :=
| Returns (a : A)
| Raises (error : string).
Arguments Returns {A} a.
Arguments Raises {A} error.

(** The steps of one run, as the environment decides them.  The three
    phase functions catch their own exceptions; [Raises] stands for an
    error that escapes one of them all the same.  [summary_write_ok] and
    [mail_send_ok] say whether the remote calls inside
    [save_workflow_summary] and [send_email_notification] succeed. *)
Record Steps := {
  authenticate : outcome bool;
  process_gmail_workflow : outcome bool;
  process_excel_workflow : outcome bool;
  summary_write_ok : bool;
  mail_send_ok : bool;
}.

(** What a run leaves behind, in order. *)
Inductive event :=
| SummaryAttempt (status : string) (saved : bool)
| NotificationAttempt (status : string) (sent : bool).

(** [save_workflow_summary]: its body is one [try/except Exception]; it
    returns nothing and never raises. *)
Definition save_workflow_summary (env : Steps) (status : string) : list event :=
  [SummaryAttempt status (summary_write_ok env)].

(** [send_email_notification]: one [try/except Exception] returning
    whether the mail was sent. *)
Definition send_email_notification (env : Steps) (status : string) : bool * list event :=
  (mail_send_ok env, [NotificationAttempt status (mail_send_ok env)]).

Record result := {
  returned : bool;
  status : string;
  trace : list event;
}.

(** The [except Exception as e] handler of [run_workflow]. *)
Definition on_error (env : Steps) (error : string) : result :=
  let status := "Failed - " +:+ error in
  {| returned := false; status := status;
     trace := save_workflow_summary env status
              ++ snd (send_email_notification env status) |}.

(** [run_workflow] *)
Definition run_workflow (env : Steps) : result :=
  match authenticate env with
  | Raises e => on_error env e
  | Returns false =>
      let status := "Failed - Authentication Error" in
      {| returned := false; status := status;
         trace := save_workflow_summary env status |}
  | Returns true =>
      match process_gmail_workflow env with
      | Raises e => on_error env e
      | Returns gmail_success =>
          match process_excel_workflow env with
          | Raises e => on_error env e
          | Returns excel_success =>
              let status := "Completed Successfully" in
              let '(email_success, sent) := send_email_notification env status in
              {| returned := true; status := status;
                 trace := save_workflow_summary env status ++ sent |}
          end
      end
  end.

Definition is_notification (e : event) : bool :=
  match e with NotificationAttempt _ _ => true | SummaryAttempt _ _ => false end.
Definition is_summary (e : event) : bool :=
  match e with SummaryAttempt _ _ => true | NotificationAttempt _ _ => false end.

End Orchestrator.

(** ** Vocabulary of the statements *)

Module Spec.
Import PyStr Identity.

(** A character outside the class [_sanitize_filename] replaces. *)
Definition legal (c : ascii) : bool := negb (illegal c).

(** A character that is neither replaced nor a dot. *)
Definition plain (c : ascii) : bool := legal c && negb (bool_decide (c = "."%char)).

(** Every character of [s] satisfies [p]. *)
Fixpoint all_chars (p : ascii → bool) (s : string) : bool :=
  match s with
  | EmptyString => true
  | String c s' => p c && all_chars p s'
  end.

(** A string that is empty or starts with a character that is not white
    space, as [lstrip] returns them. *)
Definition starts_solid (t : string) : bool :=
  match t with
  | EmptyString => true
  | String c _ => negb (is_space c)
  end.




(** The column labels and the data rows the cleanup pass works on. *)
Definition sheet_headers (vals : values) : list string :=
  map Cleanup.header_name (enumerate (Cleanup.pad (Cleanup.max_len vals) (hd [] vals))).
Definition sheet_rows (vals : values) : values :=
  tail (map (Cleanup.pad (Cleanup.max_len vals)) vals).

(** The tables of the cleanup pass after the blank rows and the blank
    columns are dropped. *)
Definition nonblank_rows (vals : values) : values :=
  filter (λ row, Cleanup.all_blank row = false)
         (Cleanup.dedup_rows (sheet_headers vals) (sheet_rows vals)).
Definition kept (vals : values) : list nat :=
  Cleanup.kept_columns (Cleanup.max_len vals) (nonblank_rows vals).
Definition clean_headers (vals : values) : list string :=
  Cleanup.project EmptyString (kept vals) (sheet_headers vals).
Definition clean_rows (vals : values) : values :=
  map (Cleanup.project EmptyString (kept vals)) (nonblank_rows vals).

(** Whether [sort_values] raises: the label PO No is there more than
    once. *)
Definition sort_raises (vals : values) : bool :=
  Cleanup.has_column "PO No" (clean_headers vals)
  && negb (length (Cleanup.subset_positions ["PO No"] (clean_headers vals)) =? 1).

(** The rows in the order they are written. *)
Definition sorted_rows (vals : values) : values :=
  match Cleanup.subset_positions ["PO No"] (clean_headers vals) with
  | [j] => Cleanup.sort_rows j (clean_rows vals)
  | _ => clean_rows vals
  end.


(** A cell the coercion of the cleanup pass writes back as it was read:
    text that is not a number, or an integer in its decimal form. *)
Definition stable_cell (c : string) : Prop :=
  match Cleanup.process_value c with
  | Cleanup.VStr s => s = c
  | Cleanup.VInt z => of_Z z = c
  | Cleanup.VFloat _ => False
  end.

(** The scenario of the specification, and a dataset with two purchase
    orders that differ by a leading zero. *)
Definition scenario_sheet : values :=
  [["PO No"; "Sku Code"]; ["PO1"; "SKU1"]; ["PO2"; "SKU2"]; ["PO1"; "SKU1"]].


(** The index of a run, as rebuilt from the dataset [grid]. *)
Definition source_names (grid : values) : gset string :=
  Index._get_source_file_names_from_sheet (Some grid).
Definition content_keys (grid : values) : gset string :=
  Index._get_processed_files_from_sheet (Some grid).

(** Decoders that read the same table from every file, and a dataset
    store whose appends succeed. *)
Definition text_column (name : string) : Frame.column :=
  {| Frame.col_name := name; Frame.col_object := true |}.
Definition one_table (df : Frame.DataFrame) : Frame.Decoders :=
  {| Frame.download := λ _, Some (); Frame.read_openpyxl := λ _, Some df;
     Frame.read_xlrd := λ _, None; Frame.raw_xml_extraction := λ _, Frame.empty_frame |}.
Definition healthy (dec : Frame.Decoders) : Reconciler.Remote :=
  {| Reconciler.decoders := dec; Reconciler.append_ok := λ _, true |}.

Definition full_table : Frame.DataFrame :=
  {| Frame.df_columns := [text_column "PO No"; text_column "Sku Code"];
     Frame.df_rows := [[Frame.CStr "P1"; Frame.CStr "S1"]] |}.
Definition grn_file : Reconciler.DriveFile :=
  {| Reconciler.file_id := "f1"; Reconciler.file_name := "grn_jan.xlsx" |}.
Definition legacy_sheet : values := [["PO No"; "Sku Code"]; ["P0"; "S0"]].

(** The folder cache [c'] holds at least what [c] holds: every cached
    folder is still cached, with at least the same names. *)
Definition cache_le (c c' : gmap string (gset string)) : Prop :=
  ∀ folder_id names, c !! folder_id = Some names →
    ∃ names', c' !! folder_id = Some names' ∧ names ⊆ names'.

(** The attachment parts of a payload, in the order
    [_extract_attachments_from_email] visits them: file name and
    attachment id. *)
Fixpoint leaves (p : Drive.payload) : list (string * string) :=
  match p with
  | Drive.Parts parts => concat (map leaves parts)
  | Drive.Part filename (Some attachment_id) =>
      if truthy filename then [(filename, attachment_id)] else []
  | Drive.Part _ None => []
  end.

(** Visiting one attachment part, with the counts so far. *)
Definition part_step (env : Drive.Faults) (message_id sender base_folder_id : string)
    (acc : Drive.counts * Drive.state) (leaf : string * string)
  : Drive.counts * Drive.state :=
  let '(c, st) := acc in
  let '(c', st') :=
    Drive.extract_part env message_id sender base_folder_id leaf.1 leaf.2 st in
  (Drive.add_counts c c', st').

(** The cache agrees with the store: a cached listing is the listing. *)
Definition coherent (st : Drive.state) : Prop :=
  ∀ folder_id names, Drive.existing_files_cache st !! folder_id = Some names →
    names = Drive.listing (Drive.items st) folder_id.

(** The folder id [_create_drive_folder] returns without creating
    anything, when there is one. *)
Definition type_folder (env : Drive.Faults) (its : list Drive.item)
    (folder_name parent_folder_id : string) : option string :=
  if Drive.folder_fails env folder_name parent_folder_id then Some EmptyString
  else Drive.item_id
         <$> List.find (Drive.is_folder_named folder_name parent_folder_id) its.

(** An attachment part for which the store [its] leaves nothing to
    upload: it is not a spreadsheet, or its sender folder is there and
    the file is in it, or its download or upload raises. *)
Definition settled_part (env : Drive.Faults) (its : list Drive.item)
    (base_folder_id message_id sender : string) (leaf : string * string) : Prop :=
  is_excel_name leaf.1 = false
  ∨ ∃ type_folder_id,
      type_folder env its (_sanitize_filename (Drive.sender_address sender)) base_folder_id
      = Some type_folder_id
      ∧ (final_filename message_id leaf.1 ∈ Drive.listing its type_folder_id
         ∨ Drive.fetch_fails env message_id leaf.2 = true
         ∨ Drive.upload_fails env type_folder_id (final_filename message_id leaf.1) = true).

Definition settled_email (env : Drive.Faults) (its : list Drive.item)
    (base_folder_id : string) (e : Drive.email) : Prop :=
  match Drive.email_message e with
  | Some (Some p) =>
      Forall (settled_part env its base_folder_id (Drive.email_id e) (Drive.email_sender e))
             (leaves p)
  | _ => True
  end.

(** A file store whose calls all succeed. *)
Definition no_faults : Drive.Faults :=
  {| Drive.list_fails := λ _, false; Drive.folder_fails := λ _ _, false;
     Drive.fetch_fails := λ _ _, false; Drive.upload_fails := λ _ _, false |}.

(** A store with the folder B, whose listing (one file) is cached. *)
Definition cached_parent : Drive.state :=
  {| Drive.items := [{| Drive.item_id := "f1"; Drive.item_name := "m1_a.xlsx";
                        Drive.item_parent := "B"; Drive.item_is_folder := false |}];
     Drive.created := 0;
     Drive.existing_files_cache := {[ "B" := {[ "m1_a.xlsx" ]} ]} |}.

(** A table of five columns: one row with a fifth value, one without and
    one whose fifth value reads nan. *)
Definition five_column_table : Frame.DataFrame :=
  {| Frame.df_columns := map text_column ["PO No"; "Sku Code"; "Qty"; "Site"; "Status"];
     Frame.df_rows :=
       [[Frame.CStr "P1"; Frame.CStr "S1"; Frame.CStr "2"; Frame.CStr "BLR"; Frame.CStr "Open"];
        [Frame.CStr "P2"; Frame.CStr "S2"; Frame.CStr "3"; Frame.CStr "BLR"; Frame.CNaN];
        [Frame.CStr "P3"; Frame.CStr "S3"; Frame.CStr "1"; Frame.CStr "BLR"; Frame.CStr " nan "]] |}.

(** A message with a text part and one spreadsheet attached, and a
    store with nothing in it. *)
Definition grn_mail : Drive.email :=
  {| Drive.email_id := "m1";
     Drive.email_sender := "Alerts <alerts@bigbasket.com>";
     Drive.email_message :=
       Some (Some (Drive.Parts [Drive.Part EmptyString None;
                                Drive.Part "grn_jan.xlsx" (Some "a1")])) |}.
Definition empty_store : Drive.state :=
  {| Drive.items := []; Drive.created := 0; Drive.existing_files_cache := ∅ |}.

End Spec.

(** ** Message details: [_get_email_details] and the sender folder *)

Module Mail.
Import PyStr Identity.

(** The dictionary [_get_email_details] returns. *)
Record details := {
  details_id : string;
  details_sender : string;
  details_subject : string;
  details_date : string;
}.

(** [next((h['value'] for h in headers if h['name'] == name), default)]
    on the headers of a message, each a name and a value. *)
Definition header_value (name default : string) (headers : list (string * string))
  : string :=
  match List.find (λ h, bool_decide (h.1 = name)) headers with
  | Some h => h.2
  | None => default
  end.

(** [_get_email_details]; [response] is the header list of the metadata
    fetch, [None] when the fetch raises. *)
Definition _get_email_details (message_id : string)
    (response : option (list (string * string))) : details :=
  match response with
  | Some headers =>
      {| details_id := message_id;
         details_sender := header_value "From" "Unknown" headers;
         details_subject := header_value "Subject" "(No Subject)" headers;
         details_date := header_value "Date" EmptyString headers |}
  | None =>
      {| details_id := message_id; details_sender := "Unknown";
         details_subject := "Unknown"; details_date := EmptyString |}
  end.

(** The name of the sender folder, as [_extract_attachments_from_email]
    makes it from [sender_info]. *)
Definition sender_folder_name (sender_info : details) : string :=
  _sanitize_filename (Drive.sender_address (details_sender sender_info)).

End Mail.

(** ** Listings of the spreadsheet folder *)

Module Listing.
Import PyStr Frame Index Reconciler.

(** [not folder_id or folder_id.strip() == ''] *)
Definition blank_folder_id (folder_id : string) : bool :=
  negb (truthy folder_id) || bool_decide (strip folder_id = EmptyString).

(** [_get_all_excel_files_in_folder]; [response] is the answer of
    [files().list], [None] when the call raises. *)
Definition _get_all_excel_files_in_folder (folder_id : string)
    (response : option (list DriveFile)) : list DriveFile :=
  if blank_folder_id folder_id then []
  else match response with
       | Some files => files
       | None => []
       end.

(** [_get_excel_files_filtered]: the same guard and the same handling of
    the answer; the date threshold and the page size go into the query,
    and the folder listing of the handler is only logged. *)
Definition _get_excel_files_filtered (folder_id : string)
    (response : option (list DriveFile)) : list DriveFile :=
  if blank_folder_id folder_id then []
  else match response with
       | Some files => files
       | None => []
       end.

(** The inner loop of [_get_already_processed_drive_files]: some row of
    the file has a non-blank PO and SKU whose key is in the sheet. *)
Definition file_data_in_sheet (processed_data : gset string) (df : DataFrame) : bool :=
  existsb (λ row,
             let po := row_get df "PO No" row in
             let sku := row_get df "Sku Code" row in
             truthy po && truthy sku && bool_decide (unique_key po sku ∈ processed_data))
          (df_rows df).

(** One iteration of its loop over the files. *)
Definition mark_processed (env : Remote) (processed_data : gset string)
    (processed_files : gset string) (file : DriveFile) : gset string :=
  let df := _read_excel_file_robust (decoders env) (file_id file) (file_name file) in
  if df_empty df then processed_files
  else if negb (has_key_columns df) then processed_files
  else if file_data_in_sheet processed_data df
       then processed_files ∪ {[ file_name file ]}
       else processed_files.

(** [_get_already_processed_drive_files]; [sheet_response] is the answer
    of the read of the dataset and [listing_response] the one of the
    folder listing. *)
Definition _get_already_processed_drive_files (env : Remote)
    (sheet_response : option values) (folder_id : string)
    (listing_response : option (list DriveFile)) : gset string :=
  let processed_data := _get_processed_files_from_sheet sheet_response in
  let excel_files := _get_all_excel_files_in_folder folder_id listing_response in
  fold_left (mark_processed env processed_data) excel_files ∅.

(** [process_excel_workflow] as it is called: on the files
    [_get_excel_files_filtered] returns. *)
Definition excel_workflow (env : Remote) (s : Stats) (folder_id : string)
    (listing_response : option (list DriveFile)) (grid : values) : Run :=
  process_excel_workflow env s (_get_excel_files_filtered folder_id listing_response) grid.

End Listing.

(** ** Raw extraction of a workbook: [_try_raw_xml_extraction] *)

Module RawXml.
Import PyStr PyNum Frame.

(** [_clean_cell_value]; [CNaN] stands for [None] and for a NaN float,
    [CNum] for any other number. *)
Definition _clean_cell_value (value : cell) : cell :=
  match value with
  | CNaN => CStr EmptyString
  | CNum repr => CNum repr
  | CStr s => CStr (remove_char "'"%char (strip s))
  end.

(** [c.isalpha()] and [c.isdigit()] on the 8-bit characters. *)
Definition is_alpha (c : ascii) : bool :=
  let n := nat_of_ascii c in
  ((65 <=? n) && (n <=? 90)) || ((97 <=? n) && (n <=? 122))
  || (n =? 170) || (n =? 181) || (n =? 186)
  || ((192 <=? n) && (n <=? 214)) || ((216 <=? n) && (n <=? 246)) || (248 <=? n).
Definition is_digit (c : ascii) : bool :=
  let n := nat_of_ascii c in
  ((48 <=? n) && (n <=? 57)) || (n =? 178) || (n =? 179) || (n =? 185).

(** [''.join([c for c in s if p(c)])] *)
Fixpoint filter_chars (p : ascii → bool) (s : string) : string :=
  match s with
  | EmptyString => EmptyString
  | String c s' => if p c then String c (filter_chars p s') else filter_chars p s'
  end.

(** [col_num = col_num * 26 + (ord(c) - ord('A') + 1)]; the letters have
    code points from 65 on. *)
Definition col_step (col_num : nat) (c : ascii) : nat :=
  col_num * 26 + (nat_of_ascii c + 1 - 65).
Definition column_number (col_letters : string) : nat :=
  fold_left col_step (chars col_letters) 0.

(** The row and the column a cell reference names; [None] when [int]
    raises. *)
Definition cell_position (cell_ref : string) : option (nat * nat) :=
  match py_int (filter_chars is_digit cell_ref) with
  | Some row_num => Some (Z.to_nat row_num, column_number (filter_chars is_alpha cell_ref))
  | None => None
  end.

(** The loop over [enumerate(strings)] that fills [shared_strings]. *)
Definition shared_strings_of (strings : list string) : gmap string string :=
  fold_left (λ acc (ix : nat * string), <[of_nat ix.1 := strip ix.2]> acc)
            (enumerate strings) ∅.

(** A match of the cell pattern: reference, type, value and inline
    string. *)
Record found_cell := {
  cell_ref : string;
  cell_type : string;
  v_value : string;
  is_value : string;
}.

(** The [if/elif] chain that picks the text of a cell. *)
Definition cell_value (shared_strings : gmap string string) (c : found_cell) : string :=
  if truthy (is_value c) then strip (is_value c)
  else if bool_decide (cell_type c = "s") && truthy (v_value c)
  then default (v_value c) (shared_strings !! v_value c)
  else if truthy (v_value c) then strip (v_value c)
  else EmptyString.

(** The state of the loop over the cells. *)
Record sheet := {
  cell_data : gmap (nat * nat) string;
  max_row : nat;
  max_col : nat;
}.

(** One iteration; the value handed to [_clean_cell_value] is a string,
    and so is what it returns. *)
Definition add_cell (shared_strings : gmap string string) (acc : option sheet)
    (c : found_cell) : option sheet :=
  match acc with
  | None => None
  | Some sh =>
      match cell_position (cell_ref c) with
      | None => None
      | Some (row_num, col_num) =>
          Some {| cell_data :=
                    <[(row_num, col_num) :=
                        cell_str (_clean_cell_value (CStr (cell_value shared_strings c)))]>
                      (cell_data sh);
                  max_row := Nat.max (max_row sh) row_num;
                  max_col := Nat.max (max_col sh) col_num |}
      end
  end.

(** The comprehension over [range(1, max_col + 1)]: the text of each cell
    of the row, empty where the dictionary has none. *)
Definition row_data (sh : sheet) (row : nat) : list string :=
  map (λ col, default EmptyString (cell_data sh !! (row, col))) (seq 1 (max_col sh)).

(** The rows with some non-empty cell, in order. *)
Definition data_rows (sh : sheet) : list (list string) :=
  filter (λ r, existsb truthy r = true) (map (row_data sh) (seq 1 (max_row sh))).

(** [l[k]] and [l[k:]] for an integer [k]; [None] is [IndexError]. *)
Definition py_index {A} (l : list A) (k : Z) : option A :=
  if (0 <=? k)%Z then l !! Z.to_nat k
  else if (0 <=? Z.of_nat (length l) + k)%Z then l !! Z.to_nat (Z.of_nat (length l) + k)
  else None.
Definition py_slice_from {A} (l : list A) (k : Z) : list A :=
  if (0 <=? k)%Z then drop (Z.to_nat k) l
  else drop (Z.to_nat (Z.of_nat (length l) + k)) l.

(** [pd.DataFrame(rows, columns=headers)] on rows of strings. *)
Definition frame_of (headers : list string) (rows : list (list string)) : DataFrame :=
  {| df_columns := map (λ h, {| col_name := h; col_object := true |}) headers;
     df_rows := map (map CStr) rows |}.

(** The end of the function, from [if len(data) < max(1, header_row + 2)]. *)
Definition build_frame (data : list (list string)) (header_row : Z) : DataFrame :=
  if (Z.of_nat (length data) <? Z.max 1 (header_row + 2))%Z then empty_frame
  else if bool_decide (header_row = (-1)%Z) then
    match data with
    | first :: _ =>
        frame_of (map (λ i, "Column_" +:+ of_nat (i + 1)) (seq 0 (length first))) data
    | [] => empty_frame
    end
  else if (header_row <? Z.of_nat (length data))%Z then
    match py_index data header_row with
    | Some header_cells =>
        frame_of (map Cleanup.header_name (enumerate header_cells))
                 (py_slice_from data (header_row + 1))
    | None => empty_frame
    end
  else empty_frame.

(** What the regular expressions find in a workbook: the texts of
    [xl/sharedStrings.xml] (none when the file is absent or unreadable)
    and the cells of the first worksheet ([None] when there is no
    worksheet). *)
Record Workbook := {
  shared_texts : list string;
  worksheet_cells : option (list found_cell);
}.

(** [_try_raw_xml_extraction]; [book] is [None] when the stream is not
    an archive or reading the worksheet raises. *)
Definition _try_raw_xml_extraction (book : option Workbook) (header_row : Z) : DataFrame :=
  match book with
  | None => empty_frame
  | Some b =>
      match worksheet_cells b with
      | None | Some [] => empty_frame
      | Some cells =>
          let shared_strings := shared_strings_of (shared_texts b) in
          match fold_left (add_cell shared_strings) cells
                  (Some {| cell_data := ∅; max_row := 0; max_col := 0 |}) with
          | None => empty_frame
          | Some sh =>
              if bool_decide (cell_data sh = ∅) then empty_frame
              else build_frame (data_rows sh) header_row
          end
      end
  end.

End RawXml.

(** ** The run log: [save_workflow_summary] *)

Module Summary.
Import PyStr.

(** The header line of the log. *)
Definition headers : list string :=
  ["Start Time"; "End Time"; "Emails Checked"; "Attachments Found";
   "Attachments Saved"; "Attachments Skipped"; "Attachments Failed";
   "Files Found"; "Files Processed"; "Files Skipped"; "Files Failed";
   "Duplicates Removed"; "Status"].

(** The line of a run: [summary_data[0]].  The two times are given as
    [strftime] formats them, [None] when the time is not set. *)
Definition summary_data (start_time end_time : option string) (mail : Drive.MailStats)
    (files : Reconciler.Stats) (status : string) : list string :=
  [default EmptyString start_time;
   default EmptyString end_time;
   of_nat (Drive.emails_checked mail);
   of_nat (Drive.attachments_found mail);
   of_nat (Drive.attachments_saved mail);
   of_nat (Drive.attachments_skipped mail);
   of_nat (Drive.attachments_failed mail);
   of_nat (Reconciler.files_found files);
   of_nat (Reconciler.files_processed files);
   of_nat (Reconciler.files_skipped files);
   of_nat (Reconciler.files_failed files);
   of_nat (Reconciler.duplicates_removed files);
   status].

(** Which calls on the log sheet succeed: the read of A1, the [update]
    calls by attempt, and the [append]. *)
Record Calls := {
  read_ok : bool;
  update_ok : nat → bool;
  append_ok : bool;
}.

(** [update] of the range A1 with one line: the line replaces the first
    cells of the first row. *)
Definition update_a1 (line : list string) (sheet : values) : values :=
  match sheet with
  | [] => [line]
  | first :: rest => (line ++ drop (length line) first) :: rest
  end.

(** The inner [try/except] that makes sure of the header line; [None]
    when an error escapes it. *)
Definition ensure_headers (env : Calls) (sheet : values) : option values :=
  if read_ok env then
    if bool_decide (Reconciler.a1_range sheet = []) then
      if update_ok env 0 then Some (update_a1 headers sheet)
      else if update_ok env 1 then Some (update_a1 headers sheet)
      else None
    else Some sheet
  else if update_ok env 0 then Some (update_a1 headers sheet)
  else None.

(** The sheet after the function has put [line] in the log; errors are
    caught and logged. *)
Definition save_line (env : Calls) (line : list string) (sheet : values) : values :=
  match ensure_headers env sheet with
  | None => sheet
  | Some sheet' => if append_ok env then sheet' ++ [line] else sheet'
  end.

(** [save_workflow_summary] *)
Definition save_workflow_summary (env : Calls) (start_time end_time : option string)
    (mail : Drive.MailStats) (files : Reconciler.Stats) (status : string)
    (sheet : values) : values :=
  save_line env (summary_data start_time end_time mail files status) sheet.

(** A log sheet whose calls all succeed. *)
Definition all_ok : Calls :=
  {| read_ok := true; update_ok := λ _, true; append_ok := true |}.

End Summary.

(** ** Vocabulary of the further statements *)

Module Terms.
Import PyStr Identity.

(** The spreadsheet attachments of a message, as
    [_count_attachments_in_email] counts them; none when the message
    could not be fetched or has no payload. *)
Definition counted (e : Drive.email) : nat :=
  match Drive.email_message e with
  | Some (Some p) => Drive._count_attachments_in_email p
  | _ => 0
  end.

(** The messages whose full fetch raises. *)
Definition fetch_failed (e : Drive.email) : nat :=
  match Drive.email_message e with
  | None => 1
  | Some _ => 0
  end.

(** The files of a store, folders left out, by folder and name. *)
Definition stored_files (its : list Drive.item) : list (string * string) :=
  map (λ it, (Drive.item_parent it, Drive.item_name it))
      (filter (λ it, Drive.item_is_folder it = false) its).

(** The folders of a store, by parent and name. *)
Definition stored_folders (its : list Drive.item) : list (string * string) :=
  map (λ it, (Drive.item_parent it, Drive.item_name it))
      (filter (λ it, Drive.item_is_folder it = true) its).

(** The characters of [str(z)] for an integer [z]: the decimal digits
    and the minus sign. *)
Definition int_char (c : ascii) : bool :=
  match PyNum.digit_val c with
  | Some _ => true
  | None => bool_decide (c = "-"%char)
  end.

(** A text without apostrophe. *)
Definition no_quote (s : string) : bool :=
  Spec.all_chars (λ c, negb (bool_decide (c = "'"%char))) s.

(** A frame as [pd.DataFrame(rows, columns=headers)] builds it from
    cleaned texts: every row has one cell under every column, the labels
    are not empty, no cell is a missing value or holds an apostrophe,
    and every row has a cell that is not empty. *)
Definition well_shaped (df : Frame.DataFrame) : Prop :=
  Forall (λ col, Frame.col_name col ≠ EmptyString ∧ no_quote (Frame.col_name col) = true)
         (Frame.df_columns df)
  ∧ Forall (λ row,
              length row = length (Frame.df_columns df)
              ∧ Forall (λ c, ∃ s, c = Frame.CStr s ∧ no_quote s = true) row
              ∧ ∃ s, Frame.CStr s ∈ row ∧ s ≠ EmptyString)
           (Frame.df_rows df).

End Terms.

(** * Properties *)

(** ** Strings *)

Module StrFacts.
Import PyStr Spec.

Lemma app_cons c s t : String c s +:+ t = String c (s +:+ t).
Proof. reflexivity. Qed.

Lemma app_empty_l t : EmptyString +:+ t = t.
Proof. reflexivity. Qed.

Lemma app_empty_r s : s +:+ EmptyString = s.
Proof. induction s as [|c s IH]; [done|]. by rewrite app_cons, IH. Qed.

Lemma app_assoc s t u : (s +:+ t) +:+ u = s +:+ (t +:+ u).
Proof. induction s as [|c s IH]; [done|]. by rewrite !app_cons, IH. Qed.


Lemma len_map_chars f s : len (map_chars f s) = len s.
Proof. induction s as [|c s IH]; [done|]. cbn. unfold len in IH. by rewrite IH. Qed.

Lemma len_slice_to n s : len (slice_to n s) ≤ n.
Proof.
  revert s. induction n as [|n IH]; intros [|c s]; cbn; try lia.
  specialize (IH s). unfold len in IH. lia.
Qed.

Lemma slice_to_all n s : len s ≤ n → slice_to n s = s.
Proof.
  revert s. induction n as [|n IH]; intros [|c s]; cbn; intros H; try done; try lia.
  f_equal. apply IH. unfold len. lia.
Qed.

Lemma map_chars_app f s t : map_chars f (s +:+ t) = map_chars f s +:+ map_chars f t.
Proof. induction s as [|c s IH]; [done|]. rewrite app_cons. cbn. by rewrite IH, app_cons. Qed.

(** A mapped string that is an append comes from an append. *)
Lemma map_chars_app_inv f s u v :
  map_chars f s = u +:+ v →
  ∃ s1 s2, s = s1 +:+ s2 ∧ map_chars f s1 = u ∧ map_chars f s2 = v.
Proof.
  revert s. induction u as [|c u IH]; intros s H.
  - exists EmptyString, s. by rewrite app_empty_l in H.
  - destruct s as [|d s]; [done|]. rewrite app_cons in H. cbn in H.
    injection H as Hc H. destruct (IH _ H) as (s1 & s2 & -> & <- & <-).
    exists (String d s1), s2. by rewrite app_cons, <- Hc.
Qed.

Lemma all_chars_app p s t : all_chars p (s +:+ t) = all_chars p s && all_chars p t.
Proof. induction s as [|c s IH]; [done|]. rewrite app_cons. cbn. rewrite IH. by destruct (p c). Qed.

Lemma all_chars_slice_to p n s : all_chars p s = true → all_chars p (slice_to n s) = true.
Proof.
  revert s. induction n as [|n IH]; intros [|c s]; cbn; try done.
  intros [? ?]%andb_prop. rewrite IH by done. by rewrite H.
Qed.

Lemma all_chars_map_chars p f s :
  (∀ c, p (f c) = true) → all_chars p (map_chars f s) = true.
Proof. intros Hf. induction s as [|c s IH]; [done|]. cbn. by rewrite Hf, IH. Qed.

(** [split] never returns the empty list. *)
Lemma split_not_nil sep s : split sep s ≠ [].
Proof. destruct s as [|c s]; cbn; [done|]. case_decide; [done|]. by destruct (split sep s). Qed.

Lemma split_all_chars p sep s :
  all_chars p s = true → Forall (λ part, all_chars p part = true) (split sep s).
Proof.
  induction s as [|c s IH]; cbn; intros H.
  - by constructor.
  - apply andb_prop in H as [Hc Hs]. specialize (IH Hs). case_decide.
    + by constructor.
    + pose proof (split_not_nil sep s). destruct (split sep s) as [|q qs]; [done|].
      inversion IH; subst. constructor; [|done]. cbn. by rewrite Hc.
Qed.

Lemma join_all_chars p sep parts :
  all_chars p sep = true →
  Forall (λ part, all_chars p part = true) parts →
  all_chars p (join sep parts) = true.
Proof.
  intros Hsep. induction parts as [|q qs IH]; intros H; [done|].
  inversion H as [|?? Hq Hqs]; subst. destruct qs as [|q' qs]; [done|].
  change (join sep (q :: q' :: qs)) with (q +:+ sep +:+ join sep (q' :: qs)).
  rewrite !all_chars_app, Hq, Hsep, IH by done. done.
Qed.

Lemma Forall_removelast {A} (P : A → Prop) l : Forall P l → Forall P (List.removelast l).
Proof.
  induction l as [|x l IH]; intros H; [done|]. inversion H; subst. cbn.
  destruct l; [constructor|]. constructor; [done|]. by apply IH.
Qed.

Lemma Forall_last {A} (P : A → Prop) l d : l ≠ [] → Forall P l → P (List.last l d).
Proof.
  induction l as [|x l IH]; intros Hne H; [done|]. inversion H; subst. cbn.
  destruct l; [done|]. by apply IH.
Qed.


Lemma rev_app_spec s t : String.rev_app s t = String.rev s +:+ t.
Proof.
  unfold String.rev. revert t. induction s as [|c s IH]; intros t; [done|].
  cbn. rewrite IH. rewrite (IH (String c "")). by rewrite app_assoc.
Qed.

Lemma rev_cons c s : String.rev (String c s) = String.rev s +:+ String c EmptyString.
Proof. unfold String.rev at 1. cbn. by rewrite rev_app_spec. Qed.

Lemma rev_app_distr s t : String.rev (s +:+ t) = String.rev t +:+ String.rev s.
Proof.
  induction s as [|c s IH].
  - by rewrite app_empty_l, app_empty_r.
  - by rewrite app_cons, !rev_cons, IH, app_assoc.
Qed.

Lemma rev_involutive s : String.rev (String.rev s) = s.
Proof. induction s as [|c s IH]; [done|]. by rewrite rev_cons, rev_app_distr, IH. Qed.

Lemma startswith_spec p s : startswith p s = true ↔ ∃ r, s = p +:+ r.
Proof.
  revert s. induction p as [|c p IH]; intros s.
  - split; [intros _; by exists s|done].
  - destruct s as [|d s]; cbn.
    + split; [done|]. by intros [r ?].
    + rewrite andb_true_iff, bool_decide_eq_true, IH. split.
      * intros [-> [r ->]]. by exists r.
      * intros [r H]. rewrite app_cons in H. injection H as -> ->. eauto.
Qed.

Lemma endswith_spec suffix s : endswith suffix s = true ↔ ∃ r, s = r +:+ suffix.
Proof.
  unfold endswith. rewrite startswith_spec. split.
  - intros [r H]. exists (String.rev r).
    by rewrite <- (rev_involutive s), H, rev_app_distr, rev_involutive.
  - intros [r ->]. exists (String.rev r). by rewrite rev_app_distr.
Qed.

End StrFacts.

(** ** Identity extractor *)

Module IdentityProofs.
Import PyStr Identity Spec StrFacts.

Lemma replace_illegal_legal c : legal (replace_illegal c) = true.
Proof. unfold legal, replace_illegal. destruct (illegal c) eqn:E; [done|]. by rewrite E. Qed.

Lemma replace_illegal_id c : illegal c = false → replace_illegal c = c.
Proof. unfold replace_illegal. by intros ->. Qed.

Lemma re_sub_illegal_legal s : all_chars legal (re_sub_illegal s) = true.
Proof. apply all_chars_map_chars, replace_illegal_legal. Qed.

Lemma re_sub_illegal_id s : all_chars legal s = true → re_sub_illegal s = s.
Proof.
  unfold re_sub_illegal.
  induction s as [|c s IH]; [done|]. cbn. intros [Hc Hs]%andb_prop.
  rewrite IH by done. rewrite replace_illegal_id; [done|].
  unfold legal in Hc. by destruct (illegal c).
Qed.

(** A character that lower-cases to a small letter is a letter: neither a
    dot nor in the replaced class. *)
Lemma lower_char_letter c : is_lower (lower_char c) = true → plain c = true.
Proof. destruct c as [[] [] [] [] [] [] [] []]; vm_compute; done. Qed.

Lemma lower_char_dot c : lower_char c = "."%char → c = "."%char.
Proof. destruct c as [[] [] [] [] [] [] [] []]; vm_compute; done. Qed.

Lemma lower_inv_letters e suf :
  map_chars lower_char e = suf → all_chars is_lower suf = true →
  all_chars plain e = true ∧ len e = len suf.
Proof.
  revert suf. induction e as [|c e IH]; intros suf <-; cbn; [done|].
  intros [Hc Hs]%andb_prop. destruct (IH _ eq_refl Hs) as [-> Hlen].
  rewrite lower_char_letter by done. unfold len in *. by rewrite Hlen, len_map_chars.
Qed.

Lemma plain_legal e : all_chars plain e = true → all_chars legal e = true.
Proof.
  induction e as [|c e IH]; [done|]. cbn. intros [Hc He]%andb_prop.
  rewrite IH by done. unfold plain in Hc. apply andb_prop in Hc as [-> _]. done.
Qed.

Lemma plain_no_dot e :
  all_chars plain e = true →
  all_chars (λ c, negb (bool_decide (c = "."%char))) e = true.
Proof.
  induction e as [|c e IH]; [done|]. cbn. intros [Hc He]%andb_prop.
  rewrite IH by done. unfold plain in Hc. apply andb_prop in Hc as [_ ->]. done.
Qed.




Lemma sanitize_filename_legal filename :
  all_chars legal (_sanitize_filename filename) = true.
Proof.
  unfold _sanitize_filename. cbn zeta.
  pose proof (re_sub_illegal_legal filename) as Hc.
  pose proof (split_all_chars legal "." _ Hc) as Hparts.
  destruct (100 <? len (re_sub_illegal filename)); [|done].
  destruct (1 <? length (split "." (re_sub_illegal filename))).
  - rewrite !all_chars_app. rewrite all_chars_slice_to.
    + cbn. apply (Forall_last _ _ EmptyString) in Hparts; [|apply split_not_nil].
      unfold last_part. by rewrite Hparts.
    + apply join_all_chars; [done|]. by apply Forall_removelast.
  - by apply all_chars_slice_to.
Qed.

Lemma sanitize_filename_short filename :
  len filename ≤ 100 → _sanitize_filename filename = map_chars replace_illegal filename.
Proof.
  intros H. unfold _sanitize_filename. cbn zeta. unfold re_sub_illegal.
  rewrite len_map_chars. by rewrite (proj2 (Nat.ltb_ge _ _)).
Qed.




End IdentityProofs.

(** ** Existing-state index *)

Module IndexProofs.
Import PyStr Index.

(** The loop keeps the latest match of each kind. *)
Lemma find_key_columns_snoc headers header :
  find_key_columns (headers ++ [header]) =
  let '(po, sku) := find_key_columns headers in
  ((if is_po_header header then Some (length headers) else po),
   (if is_sku_header header then Some (length headers) else sku)).
Proof.
  unfold find_key_columns, enumerate.
  rewrite length_app, seq_app, zip_with_app by by rewrite length_seq.
  rewrite fold_left_app. cbn.
  by destruct (fold_left key_columns_step _ _) as [po sku].
Qed.

(** C2 fails on the code: the header loop of
    [_get_processed_files_from_sheet] has no [break], so of several
    matching headers the last one is used, not the first.  With the
    headers PO No, PO Date, Sku Code the PO column is PO Date (index 1),
    and the index is built from it. *)
Theorem key_columns_last_match_wins :
  is_po_header "PO No" = true
  ∧ find_key_columns ["PO No"; "PO Date"; "Sku Code"] = (Some 1, Some 2)
  ∧ _get_processed_files_from_sheet
      (Some [["PO No"; "PO Date"; "Sku Code"]; ["P1"; "2024-01-05"; "S1"]])
    = {[ "2024-01-05|S1" ]}.
Proof. split; [reflexivity|]. split; [reflexivity|]. by vm_compute. Qed.

Lemma fold_add_row_key_empty po sku data acc :
  (∀ row, row ∈ data → add_row_key po sku acc row = acc) →
  fold_left (add_row_key po sku) data acc = acc.
Proof.
  induction data as [|row data IH]; intros H; [done|]. cbn.
  rewrite H by left. apply IH. intros r Hr. apply H. by right.
Qed.

Lemma find_key_columns_none_po headers :
  Forall (λ h, is_po_header h = false) headers → (find_key_columns headers).1 = None.
Proof.
  induction headers as [|h headers IH] using rev_ind; intros H; [done|].
  apply Forall_app in H as [H1 H2]. inversion H2 as [|?? Hh _]; subst.
  rewrite find_key_columns_snoc. specialize (IH H1).
  destruct (find_key_columns headers) as [po sku]. cbn in *. by rewrite Hh.
Qed.

Lemma find_key_columns_none_sku headers :
  Forall (λ h, is_sku_header h = false) headers → (find_key_columns headers).2 = None.
Proof.
  induction headers as [|h headers IH] using rev_ind; intros H; [done|].
  apply Forall_app in H as [H1 H2]. inversion H2 as [|?? Hh _]; subst.
  rewrite find_key_columns_snoc. specialize (IH H1).
  destruct (find_key_columns headers) as [po sku]. cbn in *. by rewrite Hh.
Qed.

Lemma index_without_key_headers headers data :
  Forall (λ h, is_po_header h = false) headers
  ∨ Forall (λ h, is_sku_header h = false) headers →
  _get_processed_files_from_sheet (Some (headers :: data)) = ∅.
Proof.
  intros H. cbn. destruct (find_key_columns headers) as [po sku] eqn:E.
  destruct H as [H|H].
  - apply find_key_columns_none_po in H. rewrite E in H. cbn in H. by subst.
  - apply find_key_columns_none_sku in H. rewrite E in H. cbn in H. subst.
    by destruct po.
Qed.

Lemma index_header_only headers :
  _get_processed_files_from_sheet (Some [headers]) = ∅.
Proof. cbn. by destruct (find_key_columns headers) as [[?|] [?|]]. Qed.

(** Every key of the index is non-blank on both sides. *)
Lemma add_row_key_subseteq po sku acc row : acc ⊆ add_row_key po sku acc row.
Proof. unfold add_row_key. repeat case_match; set_solver. Qed.

End IndexProofs.

(** ** Run orchestrator *)

Module OrchestratorProofs.
Import Orchestrator.

(** Whenever authentication succeeds, or an error escapes a phase, the
    run attempts the summary and then the notification, whatever the
    outcome of the summary write. *)
Lemma run_attempts_both env :
  authenticate env ≠ Returns false →
  ∃ st, trace (run_workflow env)
        = [SummaryAttempt st (summary_write_ok env);
           NotificationAttempt st (mail_send_ok env)].
Proof.
  intros H. unfold run_workflow.
  destruct (authenticate env) as [[]|e]; [|done|by eexists].
  destruct (process_gmail_workflow env) as [g|e]; [|by eexists].
  destruct (process_excel_workflow env) as [x|e]; by eexists.
Qed.

(** C3 fails on the code: when [authenticate] returns [False] the run
    records the failure status and saves the summary, then returns
    without calling [send_email_notification]; the handler of escaped
    errors, next to it, does send the failure notification. *)
Theorem auth_failure_sends_no_notification (env : Steps) :
  authenticate env = Returns false →
  returned (run_workflow env) = false
  ∧ status (run_workflow env) = "Failed - Authentication Error"
  ∧ trace (run_workflow env)
    = [SummaryAttempt "Failed - Authentication Error" (summary_write_ok env)]
  ∧ existsb is_notification (trace (run_workflow env)) = false.
Proof. intros H. unfold run_workflow. rewrite H. done. Qed.

Lemma auth_failure_sends_no_notification_witness :
  existsb is_notification
    (trace (run_workflow {| authenticate := Returns false;
                            process_gmail_workflow := Returns true;
                            process_excel_workflow := Returns true;
                            summary_write_ok := true;
                            mail_send_ok := true |})) = false.
Proof.
  apply (auth_failure_sends_no_notification
           {| authenticate := Returns false;
              process_gmail_workflow := Returns true;
              process_excel_workflow := Returns true;
              summary_write_ok := true;
              mail_send_ok := true |}).
  reflexivity.
Defined.

End OrchestratorProofs.

(** ** Parsed frames *)

Module FrameProofs.
Import PyStr Frame.

Lemma drop_duplicates_from_elem {A K} `{EqDecision K} (key : A → K) seen l x :
  x ∈ drop_duplicates_from key seen l → x ∈ l.
Proof.
  revert seen. induction l as [|y l IH]; intros seen; cbn; [done|].
  case_decide.
  - intros ?%IH. by right.
  - intros [->|?%IH]%elem_of_cons; [left|by right].
Qed.

Lemma drop_duplicates_from_keys {A K} `{EqDecision K} (key : A → K) seen l x :
  x ∈ drop_duplicates_from key seen l → key x ∉ seen.
Proof.
  revert seen. induction l as [|y l IH]; intros seen; cbn; [by intros ?%elem_of_nil|].
  case_decide.
  - apply IH.
  - intros [->|Hx]%elem_of_cons; [done|]. apply IH in Hx. set_solver.
Qed.

Lemma drop_duplicates_from_NoDup {A K} `{EqDecision K} (key : A → K) seen l :
  NoDup (map key (drop_duplicates_from key seen l)).
Proof.
  revert seen. induction l as [|y l IH]; intros seen; cbn; [constructor|].
  case_decide; [apply IH|]. cbn. constructor; [|apply IH].
  intros (x & Hk & Hx)%list_elem_of_fmap.
  apply drop_duplicates_from_keys in Hx. rewrite <- Hk in Hx. set_solver.
Qed.

Lemma drop_duplicates_from_sublist {A K} `{EqDecision K} (key : A → K) seen l :
  sublist (drop_duplicates_from key seen l) l.
Proof.
  revert seen. induction l as [|y l IH]; intros seen; cbn; [constructor|].
  case_decide; [by apply sublist_cons|by apply sublist_skip].
Qed.

(** Every row of a cleaned frame is the cleaned form of a row of the
    frame that passes the mask on the fifth column, when there is one. *)
Lemma clean_dataframe_rows df row :
  df_empty df = false →
  row ∈ df_rows (_clean_dataframe df) →
  ∃ raw, raw ∈ df_rows df ∧ row = clean_row (df_columns df) raw
         ∧ (5 ≤ length (df_columns df) → fifth_col_mask row = true).
Proof.
  intros Hne. unfold _clean_dataframe. rewrite Hne. cbn [df_rows].
  intros Hrow%drop_duplicates_from_elem.
  destruct (5 <=? length (df_columns df)) eqn:E.
  - apply list_elem_of_filter in Hrow as [Hmask Hrow].
    apply list_elem_of_fmap in Hrow as (raw & -> & Hraw). eauto.
  - apply list_elem_of_fmap in Hrow as (raw & -> & Hraw).
    exists raw. split; [done|]. split; [done|]. apply Nat.leb_gt in E. lia.
Qed.

Lemma clean_dataframe_columns df : df_columns (_clean_dataframe df) = df_columns df.
Proof. unfold _clean_dataframe. by destruct (df_empty df). Qed.

Lemma clean_dataframe_NoDup df :
  df_empty df = false → NoDup (df_rows (_clean_dataframe df)).
Proof.
  intros Hne. unfold _clean_dataframe. rewrite Hne. cbn [df_rows].
  unfold drop_duplicates_by.
  pose proof (drop_duplicates_from_NoDup (@id (list cell)) []
    (if 5 <=? length (df_columns df)
     then filter (λ row, fifth_col_mask row = true) (map (clean_row (df_columns df)) (df_rows df))
     else map (clean_row (df_columns df)) (df_rows df))) as H.
  by rewrite map_id in H.
Qed.

(** What [_read_excel_file_robust] returns is the empty frame or the
    cleaned form of a non-empty decoded table. *)
Lemma read_excel_file_robust_cases dec file_id filename :
  _read_excel_file_robust dec file_id filename = empty_frame
  ∨ ∃ raw, df_empty raw = false
           ∧ _read_excel_file_robust dec file_id filename = _clean_dataframe raw.
Proof.
  unfold _read_excel_file_robust, try_decoder.
  destruct (download dec file_id); [|by left].
  destruct (read_openpyxl dec file_id) as [df|].
  - destruct (df_empty df) eqn:E; [|right; eauto].
    destruct (endswith ".xls" (lower filename)).
    + destruct (read_xlrd dec file_id) as [df'|].
      * destruct (df_empty df') eqn:E'; [|right; eauto].
        destruct (df_empty (raw_xml_extraction dec file_id)) eqn:E''; [by left|right; eauto].
      * destruct (df_empty (raw_xml_extraction dec file_id)) eqn:E''; [by left|right; eauto].
    + destruct (df_empty (raw_xml_extraction dec file_id)) eqn:E''; [by left|right; eauto].
  - destruct (endswith ".xls" (lower filename)).
    + destruct (read_xlrd dec file_id) as [df'|].
      * destruct (df_empty df') eqn:E'; [|right; eauto].
        destruct (df_empty (raw_xml_extraction dec file_id)) eqn:E''; [by left|right; eauto].
      * destruct (df_empty (raw_xml_extraction dec file_id)) eqn:E''; [by left|right; eauto].
    + destruct (df_empty (raw_xml_extraction dec file_id)) eqn:E''; [by left|right; eauto].
Qed.

End FrameProofs.

(** ** Stripping white space *)

Module StripFacts.
Import PyStr Spec StrFacts.

Lemma all_chars_rev p s : all_chars p (String.rev s) = all_chars p s.
Proof.
  induction s as [|c s IH]; [done|].
  rewrite rev_cons, all_chars_app, IH. cbn. rewrite andb_true_r. apply andb_comm.
Qed.

Lemma rev_empty_inv s : String.rev s = EmptyString → s = EmptyString.
Proof. intros H. by rewrite <- (rev_involutive s), H. Qed.

Lemma lstrip_decompose s :
  ∃ l, s = l +:+ lstrip s ∧ all_chars is_space l = true.
Proof.
  induction s as [|c s (l & Hl & Hs)].
  - by exists EmptyString.
  - cbn. destruct (is_space c) eqn:E.
    + exists (String c l). rewrite app_cons, <- Hl. cbn. by rewrite E.
    + by exists EmptyString.
Qed.

Lemma lstrip_starts_solid s : starts_solid (lstrip s) = true.
Proof.
  induction s as [|c s IH]; [done|]. cbn. destruct (is_space c) eqn:E; [done|].
  cbn. by rewrite E.
Qed.

Lemma lstrip_sandwich l t :
  all_chars is_space l = true → starts_solid t = true → lstrip (l +:+ t) = t.
Proof.
  intros Hl Ht. induction l as [|c l IH].
  - rewrite app_empty_l. destruct t as [|c t]; [done|]. cbn in *.
    by destruct (is_space c).
  - cbn in Hl. apply andb_prop in Hl as [Hc Hl]. rewrite app_cons. cbn.
    rewrite Hc. by apply IH.
Qed.

Lemma solid_space_empty t :
  starts_solid t = true → all_chars is_space t = true → t = EmptyString.
Proof. destruct t as [|c t]; [done|]. cbn. by destruct (is_space c). Qed.

Lemma strip_all_space s : all_chars is_space s = true → strip s = EmptyString.
Proof.
  intros Hs. unfold strip, rstrip.
  destruct (lstrip_decompose s) as (l & Hl & Hsp).
  assert (lstrip s = EmptyString) as ->; [|done].
  apply solid_space_empty; [apply lstrip_starts_solid|].
  rewrite Hl, all_chars_app in Hs. by apply andb_prop in Hs as [_ ?].
Qed.

Lemma strip_blank_inv s : strip s = EmptyString → all_chars is_space s = true.
Proof.
  unfold strip, rstrip. intros H%rev_empty_inv.
  destruct (lstrip_decompose s) as (l & Hl & Hsp).
  destruct (lstrip_decompose (String.rev (lstrip s))) as (l' & Hl' & Hsp').
  rewrite H, app_empty_r in Hl'.
  assert (all_chars is_space (lstrip s) = true) as Hall.
  { rewrite <- all_chars_rev, Hl'. done. }
  rewrite Hl, all_chars_app, Hsp, Hall. done.
Qed.

Lemma strip_sandwich l m r :
  all_chars is_space l = true → all_chars is_space r = true →
  starts_solid m = true → starts_solid (String.rev m) = true →
  strip (l +:+ m +:+ r) = m.
Proof.
  intros Hl Hr Hm Hm'. unfold strip, rstrip.
  destruct m as [|c m].
  - rewrite app_empty_l.
    assert (lstrip (l +:+ r) = EmptyString) as ->; [|done].
    apply solid_space_empty; [apply lstrip_starts_solid|].
    destruct (lstrip_decompose (l +:+ r)) as (l' & Hl' & Hsp').
    assert (all_chars is_space (l +:+ r) = true) as Hall
      by by rewrite all_chars_app, Hl, Hr.
    rewrite Hl', all_chars_app in Hall. by apply andb_prop in Hall as [_ ?].
  - rewrite lstrip_sandwich; [|done|by cbn in *].
    rewrite rev_app_distr, lstrip_sandwich; [apply rev_involutive| |done].
    by rewrite all_chars_rev.
Qed.

Lemma strip_decompose s :
  ∃ l r, s = l +:+ strip s +:+ r
         ∧ all_chars is_space l = true ∧ all_chars is_space r = true.
Proof.
  unfold strip, rstrip.
  destruct (lstrip_decompose s) as (l & Hl & Hsp).
  destruct (lstrip_decompose (String.rev (lstrip s))) as (l' & Hl' & Hsp').
  exists l, (String.rev l'). split; [|split; [done|by rewrite all_chars_rev]].
  rewrite <- rev_app_distr, <- Hl', rev_involutive. done.
Qed.

Lemma remove_char_app x s t :
  remove_char x (s +:+ t) = remove_char x s +:+ remove_char x t.
Proof.
  induction s as [|c s IH]; [done|]. rewrite app_cons. cbn.
  case_decide; [done|]. by rewrite app_cons, IH.
Qed.

Lemma remove_char_spaces s :
  all_chars is_space s = true → remove_char "'"%char s = s.
Proof.
  induction s as [|c s IH]; [done|]. cbn. intros [Hc Hs]%andb_prop.
  rewrite IH by done. case_decide; [subst; done|done].
Qed.

(** Removing apostrophes keeps a blank value blank and the text nan. *)
Lemma strip_unquote_blank s :
  strip s = EmptyString → strip (remove_char "'"%char s) = EmptyString.
Proof. intros H%strip_blank_inv. by rewrite remove_char_spaces, strip_all_space. Qed.

Lemma strip_unquote_nan s :
  strip s = "nan" → strip (remove_char "'"%char s) = "nan".
Proof.
  intros H. destruct (strip_decompose s) as (l & r & Hs & Hl & Hr).
  rewrite H in Hs. rewrite Hs, !remove_char_app.
  rewrite (remove_char_spaces l), (remove_char_spaces r) by done.
  change (remove_char "'" "nan") with "nan".
  apply (strip_sandwich l "nan" r); [done|done|reflexivity|reflexivity].
Qed.

End StripFacts.

(** ** Row/file reconciler *)

Module ReconcilerProofs.
Import PyStr Frame Index Reconciler FrameProofs.

Lemma df_empty_no_rows df : df_rows df = [] → df_empty df = true.
Proof. unfold df_empty. intros ->. by destruct (df_columns df). Qed.

Lemma df_empty_false df : df_empty df = false ↔ df_columns df ≠ [] ∧ df_rows df ≠ [].
Proof. unfold df_empty. destruct (df_columns df), (df_rows df); split; intros; intuition congruence. Qed.

Lemma length_set_at {A} j (x : A) l : length (set_at j x l) = length l.
Proof. revert j. induction l as [|y l IH]; intros [|j]; cbn; auto. Qed.

Lemma add_source_file_name_nonempty name df :
  df_empty df = false → df_empty (add_source_file_name name df) = false.
Proof.
  rewrite !df_empty_false. intros [Hc Hr]. unfold add_source_file_name.
  destruct (index_of _ _); cbn; split.
  - intros Hnil. apply (f_equal length) in Hnil. rewrite length_set_at in Hnil.
    by destruct (df_columns df).
  - by destruct (df_rows df).
  - by destruct (df_columns df).
  - by destruct (df_rows df).
Qed.

Lemma filter_none {A} (P : A → Prop) `{∀ x, Decision (P x)} (l : list A) :
  (∀ x, x ∈ l → ¬ P x) → filter P l = [].
Proof.
  induction l as [|x l IH]; intros Hl; [done|].
  rewrite filter_cons, decide_False by (apply Hl; left).
  apply IH. intros y Hy. apply Hl. by right.
Qed.

Lemma filter_all {A} (P : A → Prop) `{∀ x, Decision (P x)} (l : list A) :
  (∀ x, x ∈ l → P x) → filter P l = l.
Proof.
  induction l as [|x l IH]; intros Hl; [done|].
  rewrite filter_cons, decide_True by (apply Hl; left).
  f_equal. apply IH. intros y Hy. apply Hl. by right.
Qed.

Lemma filter_new_rows_all_known (existing_data : gset string) df :
  (∀ row, row ∈ df_rows df → row_key df row ∈ existing_data) →
  df_rows (filter_new_rows existing_data df) = [].
Proof. intros Hall. cbn. apply filter_none. intros row Hrow Hn. by apply Hn, Hall. Qed.

Lemma filter_new_rows_empty_index df : filter_new_rows ∅ df = df.
Proof.
  destruct df as [cols rows]. unfold filter_new_rows. cbn. f_equal.
  apply filter_all. set_solver.
Qed.

(** The first loop keeps, in order, the files whose name is not recorded. *)
Lemma filter_loop (processed : gset string) files s acc :
  fold_left (filter_step processed) files (s, acc)
  = (Nat.iter (length (filter (λ f, file_name f ∈ processed) files)) bump_skipped s,
     acc ++ filter (λ f, file_name f ∉ processed) files).
Proof.
  revert s acc. induction files as [|f files IH]; intros s acc.
  - cbn. by rewrite app_nil_r.
  - cbn [fold_left]. rewrite !filter_cons.
    destruct (decide (file_name f ∈ processed)) as [Hin|Hout].
    + assert (filter_step processed (s, acc) f = (bump_skipped s, acc)) as ->
        by (unfold filter_step; by rewrite decide_True).
      rewrite IH, decide_False by tauto. cbn [length]. f_equal.
      generalize (length (filter (λ f, file_name f ∈ processed) files)).
      intros n. induction n as [|n IHn]; [done|].
      change (Nat.iter (S n) bump_skipped (bump_skipped s))
        with (bump_skipped (Nat.iter n bump_skipped (bump_skipped s))).
      by rewrite IHn.
    + assert (filter_step processed (s, acc) f = (s, acc ++ [f])) as ->
        by (unfold filter_step; by rewrite decide_False).
      rewrite IH, decide_True by done. by rewrite <- app_assoc.
Qed.

(** The second loop reads exactly the files it is given, in order. *)
Lemma process_file_reads env r file :
  reads (process_file env r file) = file_id file :: reads r.
Proof. unfold process_file. repeat case_match; done. Qed.

Lemma process_loop_reads env files r :
  reads (fold_left (process_file env) files r) = rev (map file_id files) ++ reads r.
Proof.
  revert r. induction files as [|f files IH]; intros r; [done|]. cbn.
  rewrite IH, process_file_reads. by rewrite <- app_assoc.
Qed.

Lemma reconcile_reads env s files grid :
  reads (reconcile env s files grid)
  = rev (map file_id
           (filter (λ f, file_name f ∉ _get_source_file_names_from_sheet (Some grid)) files)).
Proof.
  unfold reconcile. destruct files as [|f files]; [done|].
  rewrite filter_loop. rewrite process_loop_reads. cbn [reads start_run].
  by rewrite app_nil_r, app_nil_l.
Qed.

(** C5.  A candidate whose name is in the processed-source-file set is
    counted as skipped by the first loop and is not handed to the second
    one, so it is never read or parsed: the reads of a run are exactly
    the files whose name is not in the set.  A file that parses to a
    non-empty table with both key columns, every row key of which is
    already in the content-key set, is counted as skipped as well:
    [files_skipped] grows by one, [files_processed] and [files_failed]
    are unchanged, nothing is appended and the index is unchanged. *)
Theorem skipped_not_processed (env : Remote) (processed : gset string)
    (s : Stats) (acc : list DriveFile) (r : Run) (file : DriveFile) :
  (file_name file ∈ processed →
   filter_step processed (s, acc) file = (bump_skipped s, acc)
   ∧ files_skipped (bump_skipped s) = S (files_skipped s)
   ∧ files_processed (bump_skipped s) = files_processed s)
  ∧ (∀ s0 files grid,
       reads (reconcile env s0 files grid)
       = rev (map file_id
                (filter (λ f, file_name f ∉ _get_source_file_names_from_sheet (Some grid))
                        files)))
  ∧ (df_empty (_read_excel_file_robust (decoders env) (file_id file) (file_name file)) = false →
     has_key_columns (labelled env file) = true →
     (∀ row, row ∈ df_rows (labelled env file) →
             row_key (labelled env file) row ∈ existing_data r) →
     let r' := process_file env r file in
     files_skipped (stats r') = S (files_skipped (stats r))
     ∧ files_processed (stats r') = files_processed (stats r)
     ∧ files_failed (stats r') = files_failed (stats r)
     ∧ appends r' = appends r
     ∧ grid r' = grid r
     ∧ existing_data r' = existing_data r).
Proof.
  split; [|split].
  - intros Hin. unfold filter_step. by rewrite decide_True.
  - intros. apply reconcile_reads.
  - intros Hne Hkeys Hall. unfold process_file. rewrite Hne. cbn zeta.
    unfold candidate_rows. cbn [existing_data with_read]. rewrite Hkeys.
    rewrite (df_empty_no_rows (filter_new_rows _ _))
      by by apply filter_new_rows_all_known.
    done.
Qed.

Lemma skipped_not_processed_witness :
  let env := Spec.healthy (Spec.one_table Spec.full_table) in
  let r := start_run zero_stats {[ "P1|S1" ]} true [] in
  (filter_step {[ "grn_jan.xlsx" ]} (zero_stats, []) Spec.grn_file = (bump_skipped zero_stats, [])
   ∧ files_skipped (bump_skipped zero_stats) = 1
   ∧ files_processed (bump_skipped zero_stats) = 0)
  ∧ files_skipped (stats (process_file env r Spec.grn_file)) = 1
  ∧ files_processed (stats (process_file env r Spec.grn_file)) = 0
  ∧ files_failed (stats (process_file env r Spec.grn_file)) = 0
  ∧ appends (process_file env r Spec.grn_file) = []
  ∧ grid (process_file env r Spec.grn_file) = []
  ∧ existing_data (process_file env r Spec.grn_file) = {[ "P1|S1" ]}.
Proof.
  intros env r.
  destruct (skipped_not_processed env {[ "grn_jan.xlsx" ]} zero_stats [] r Spec.grn_file)
    as (H1 & _ & H3).
  split.
  - apply H1. vm_compute. set_solver.
  - apply H3.
    + reflexivity.
    + reflexivity.
    + intros row Hrow. vm_compute in Hrow.
      apply list_elem_of_singleton in Hrow as ->. vm_compute. set_solver.
Defined.

Lemma reconcile_empty_dataset env s file rest :
  reconcile env s (file :: rest) []
  = fold_left (process_file env) rest
      (process_file env
         (start_run (set_files_found (S (length rest)) s) ∅ false []) file).
Proof.
  unfold reconcile. rewrite filter_loop.
  change (_get_source_file_names_from_sheet (Some [])) with (∅ : gset string).
  rewrite (filter_none (λ f, file_name f ∈ (∅ : gset string))) by set_solver.
  rewrite (filter_all (λ f, file_name f ∉ (∅ : gset string))) by set_solver.
  done.
Qed.

Lemma candidate_rows_empty_index env file :
  candidate_rows env ∅ file = labelled env file.
Proof. unfold candidate_rows. case_match; [apply filter_new_rows_empty_index|done]. Qed.

(** C9.  [_get_processed_files_from_sheet] is total and returns a set on
    every answer of the read: the empty set when the read raises, when
    the dataset has no rows, when it has only a header row, and when no
    header is recognised as PO or as SKU column.  Against an empty
    dataset no file is skipped by name, and the first file, when it
    parses to a non-empty table and its append succeeds, is appended
    whole: the header line and every one of its rows. *)
Theorem content_key_index_never_fails :
  _get_processed_files_from_sheet None = ∅
  ∧ _get_processed_files_from_sheet (Some []) = ∅
  ∧ (∀ headers, _get_processed_files_from_sheet (Some [headers]) = ∅)
  ∧ (∀ headers data,
       Forall (λ h, is_po_header h = false) headers
       ∨ Forall (λ h, is_sku_header h = false) headers →
       _get_processed_files_from_sheet (Some (headers :: data)) = ∅)
  ∧ (∀ env s file rest,
       df_empty (_read_excel_file_robust (decoders env) (file_id file) (file_name file))
       = false →
       append_ok env (append_body (labelled env file) true) = true →
       let r1 := process_file env
                   (start_run (set_files_found (S (length rest)) s) ∅ false []) file in
       reconcile env s (file :: rest) [] = fold_left (process_file env) rest r1
       ∧ appends r1
         = [(file_name file,
             column_names (labelled env file)
             :: map (map cell_text) (df_rows (labelled env file)))]
       ∧ files_processed (stats r1) = S (files_processed s)
       ∧ files_skipped (stats r1) = files_skipped s).
Proof.
  split; [done|]. split; [done|]. split; [apply IndexProofs.index_header_only|].
  split; [apply IndexProofs.index_without_key_headers|].
  intros env s file rest Hne Hok r1. split; [apply reconcile_empty_dataset|].
  subst r1. unfold process_file. rewrite Hne. cbn zeta.
  cbn [existing_data with_read start_run is_first_file sheet_has_headers].
  rewrite candidate_rows_empty_index.
  pose proof (add_source_file_name_nonempty (file_name file) _ Hne) as Hl.
  fold (labelled env file) in Hl. rewrite Hl, andb_false_r.
  cbn [andb negb]. rewrite Hok, orb_true_r. done.
Qed.

Lemma content_key_index_never_fails_witness :
  let env := Spec.healthy (Spec.one_table Spec.full_table) in
  let r1 := process_file env (start_run (set_files_found 1 zero_stats) ∅ false []) Spec.grn_file in
  _get_processed_files_from_sheet (Some [["Item"; "Qty"]; ["a"; "b"]]) = ∅
  ∧ reconcile env zero_stats [Spec.grn_file] [] = r1
  ∧ appends r1
    = [("grn_jan.xlsx",
        [["PO No"; "Sku Code"; "source_file_name"]; ["P1"; "S1"; "grn_jan.xlsx"]])]
  ∧ files_processed (stats r1) = 1
  ∧ files_skipped (stats r1) = 0.
Proof.
  intros env r1.
  destruct content_key_index_never_fails as (_ & _ & _ & H4 & H5).
  split.
  - apply H4. left. repeat constructor.
  - apply (H5 env zero_stats Spec.grn_file []); reflexivity.
Defined.


Lemma clean_row_at cols row j :
  at_col (clean_row cols row) j = at_col row j
  ∨ at_col (clean_row cols row) j = unquote (at_col row j).
Proof.
  revert row j. induction cols as [|col cols IH]; intros [|c row] j; cbn; auto.
  destruct j as [|j]; cbn.
  - destruct (col_object col); auto.
  - apply IH.
Qed.

Lemma fifth_col_mask_false row :
  fifth_col_mask row = false ↔
  isna (at_col row 4) = true
  ∨ strip (cell_str (at_col row 4)) = EmptyString
  ∨ strip (cell_str (at_col row 4)) = "nan".
Proof.
  unfold fifth_col_mask. rewrite negb_false_iff, !orb_true_iff, !bool_decide_eq_true.
  tauto.
Qed.

(** Cleaning never turns a blank, missing or nan value of the fifth
    column into one that passes the mask. *)
Lemma fifth_col_mask_clean_row cols row :
  fifth_col_mask row = false → fifth_col_mask (clean_row cols row) = false.
Proof.
  rewrite !fifth_col_mask_false. intros H.
  destruct (clean_row_at cols row 4) as [->| ->]; [done|].
  unfold unquote. cbn [isna cell_str]. right.
  destruct H as [H|[H|H]].
  - destruct (at_col row 4); try done. by right.
  - left. by apply StripFacts.strip_unquote_blank.
  - right. by apply StripFacts.strip_unquote_nan.
Qed.

Lemma read_excel_file_robust_mask dec file_id filename row :
  5 ≤ length (df_columns (_read_excel_file_robust dec file_id filename)) →
  row ∈ df_rows (_read_excel_file_robust dec file_id filename) →
  fifth_col_mask row = true.
Proof.
  destruct (read_excel_file_robust_cases dec file_id filename) as [->|(raw & Hne & ->)].
  - by intros _ ?%elem_of_nil.
  - rewrite clean_dataframe_columns. intros H5 Hrow.
    destruct (clean_dataframe_rows _ _ Hne Hrow) as (_ & _ & _ & H). by apply H.
Qed.

Lemma read_excel_file_robust_NoDup dec file_id filename :
  NoDup (df_rows (_read_excel_file_robust dec file_id filename)).
Proof.
  destruct (read_excel_file_robust_cases dec file_id filename) as [->|(raw & Hne & ->)].
  - constructor.
  - by apply clean_dataframe_NoDup.
Qed.

Lemma nth_set_at_ne {A} (d x : A) j k l : j ≠ k → nth k (set_at j x l) d = nth k l d.
Proof.
  revert j k. induction l as [|y l IH]; intros [|j] [|k] H; cbn; try done.
  apply IH. lia.
Qed.

Lemma nth_map_cell_text row k :
  k < length row → nth k (map cell_text row) EmptyString = cell_text (nth k row CNaN).
Proof.
  revert k. induction row as [|c row IH]; intros [|k] H; cbn in *; try lia; [done|].
  apply IH. lia.
Qed.

Lemma mask_in_range row : fifth_col_mask row = true → 4 < length row.
Proof.
  unfold fifth_col_mask, at_col. intros H.
  destruct (decide (4 < length row)) as [|Hge]; [done|].
  rewrite nth_overflow in H by lia. done.
Qed.

Lemma mask_text row :
  fifth_col_mask row = true →
  strip (cell_text (at_col row 4)) ≠ EmptyString ∧ strip (cell_text (at_col row 4)) ≠ "nan".
Proof.
  unfold fifth_col_mask. rewrite negb_true_iff, !orb_false_iff, !bool_decide_eq_false.
  intros [[Hna Hb] Hn]. destruct (at_col row 4); done.
Qed.

(** The rows of the labelled frame are the rows read, with the file name
    put under [source_file_name]. *)
Lemma labelled_rows env file row' :
  row' ∈ df_rows (labelled env file) →
  ∃ row, row ∈ df_rows (_read_excel_file_robust (decoders env) (file_id file) (file_name file))
    ∧ match index_of "source_file_name"
              (column_names (_read_excel_file_robust (decoders env) (file_id file)
                                                     (file_name file))) with
      | Some j => row' = set_at j (CStr (file_name file)) row
      | None => row' = row ++ [CStr (file_name file)]
      end.
Proof.
  unfold labelled, add_source_file_name.
  destruct (index_of _ _) as [j|]; cbn; intros (row & -> & Hrow)%list_elem_of_fmap; eauto.
Qed.

Lemma candidate_rows_subset env E file row :
  row ∈ df_rows (candidate_rows env E file) → row ∈ df_rows (labelled env file).
Proof.
  unfold candidate_rows. case_match; [|done]. cbn.
  by intros [_ ?]%list_elem_of_filter.
Qed.

Lemma candidate_rows_columns env E file :
  df_columns (candidate_rows env E file) = df_columns (labelled env file).
Proof. unfold candidate_rows. by case_match. Qed.

(** What one iteration of the file loop appends. *)
Lemma process_file_appends env r file :
  appends (process_file env r file) = appends r
  ∨ ∃ append_headers,
      appends (process_file env r file)
      = (file_name file,
         append_body (candidate_rows env (existing_data r) file) append_headers)
        :: appends r.
Proof.
  unfold process_file. repeat case_match; cbn; eauto.
Qed.

(** C10.  Cleaning keeps a row only if its fifth column passes the mask,
    and never turns a blank, missing or nan fifth value into a passing
    one; exact duplicate rows are dropped.  So every row of the frame
    [_read_excel_file_robust] returns for a table of at least five
    columns has a fifth value that is neither missing, blank nor nan, the
    rows are pairwise distinct, and every data line the reconciler
    appends comes from such a row: its fifth cell (unless that column is
    the [source_file_name] one, which the reconciler overwrites) is
    neither blank nor nan. *)
Theorem blank_fifth_column_never_appended (env : Remote) (r : Run) (file : DriveFile) :
  let df := _read_excel_file_robust (decoders env) (file_id file) (file_name file) in
  (∀ cols rawrow,
     fifth_col_mask rawrow = false → fifth_col_mask (clean_row cols rawrow) = false)
  ∧ (∀ raw row, df_empty raw = false → 5 ≤ length (df_columns raw) →
       row ∈ df_rows (_clean_dataframe raw) →
       fifth_col_mask row = true
       ∧ ∃ rawrow, rawrow ∈ df_rows raw ∧ row = clean_row (df_columns raw) rawrow
                   ∧ fifth_col_mask rawrow = true)
  ∧ (5 ≤ length (df_columns df) → ∀ row, row ∈ df_rows df → fifth_col_mask row = true)
  ∧ NoDup (df_rows df)
  ∧ (appends (process_file env r file) = appends r
     ∨ ∃ body,
         appends (process_file env r file) = (file_name file, body) :: appends r
         ∧ ∀ line, line ∈ body →
             line = column_names (labelled env file)
             ∨ (∃ row, row ∈ df_rows (labelled env file) ∧ line = map cell_text row)
               ∧ (5 ≤ length (df_columns df) →
                  index_of "source_file_name" (column_names df) ≠ Some 4 →
                  strip (cell_at line 4) ≠ EmptyString ∧ strip (cell_at line 4) ≠ "nan")).
Proof.
  intros df. split; [apply fifth_col_mask_clean_row|].
  split.
  { intros raw row Hne H5 Hrow.
    destruct (clean_dataframe_rows _ _ Hne Hrow) as (rawrow & Hraw & -> & Hmask).
    split; [by apply Hmask|]. exists rawrow. split; [done|]. split; [done|].
    destruct (fifth_col_mask rawrow) eqn:E; [done|].
    apply (fifth_col_mask_clean_row (df_columns raw)) in E.
    rewrite Hmask in E by done. done. }
  split; [intros H5 row Hrow; by eapply read_excel_file_robust_mask|].
  split; [apply read_excel_file_robust_NoDup|].
  destruct (process_file_appends env r file) as [H|[hdr H]]; [by left|right].
  eexists. split; [exact H|]. intros line Hline.
  assert (line = column_names (labelled env file)
          ∨ ∃ row, row ∈ df_rows (labelled env file) ∧ line = map cell_text row) as Hcase.
  { unfold append_body in Hline. destruct hdr.
    - apply elem_of_cons in Hline as [->|Hline].
      + left. unfold column_names. by rewrite candidate_rows_columns.
      + right. apply list_elem_of_fmap in Hline as (row & -> & Hrow).
        exists row. split; [by eapply candidate_rows_subset|done].
    - right. apply list_elem_of_fmap in Hline as (row & -> & Hrow).
      exists row. split; [by eapply candidate_rows_subset|done]. }
  destruct Hcase as [?|(row' & Hrow' & ->)]; [by left|right].
  split; [eauto|]. intros H5 Hidx.
  destruct (labelled_rows _ _ _ Hrow') as (row & Hrow & Hlab). fold df in Hrow, Hlab.
  pose proof (read_excel_file_robust_mask _ _ _ row H5 Hrow) as Hmask.
  pose proof (mask_in_range _ Hmask) as Hlen.
  pose proof (mask_text _ Hmask) as Htext.
  assert (at_col row' 4 = at_col row 4 ∧ 4 < length row') as [Hat Hlen'].
  { destruct (index_of "source_file_name" (column_names df)) as [j|]; subst row'.
    - split; [apply nth_set_at_ne; congruence|by rewrite length_set_at].
    - unfold at_col. rewrite app_nth1 by done. rewrite length_app. split; [done|lia]. }
  unfold cell_at. rewrite nth_map_cell_text by done.
  unfold at_col in Hat. rewrite Hat. exact Htext.
Qed.

Lemma blank_fifth_column_never_appended_witness :
  let env := Spec.healthy (Spec.one_table Spec.five_column_table) in
  let df := _read_excel_file_robust (decoders env) (file_id Spec.grn_file) (file_name Spec.grn_file) in
  fifth_col_mask
    (clean_row (df_columns Spec.five_column_table)
       [CStr "P3"; CStr "S3"; CStr "1"; CStr "BLR"; CStr " nan "]) = false
  ∧ (∀ row, row ∈ df_rows df → fifth_col_mask row = true)
  ∧ df_rows df = [[CStr "P1"; CStr "S1"; CStr "2"; CStr "BLR"; CStr "Open"]].
Proof.
  intros env df.
  destruct (blank_fifth_column_never_appended env (start_run zero_stats ∅ false []) Spec.grn_file)
    as (H1 & _ & H3 & _).
  split; [|split].
  - apply H1. reflexivity.
  - apply H3. vm_compute. lia.
  - reflexivity.
Defined.


(** *** The content-key set only grows *)






Lemma stats_with_stats f r : stats (with_stats f r) = f (stats r).
Proof. done. Qed.





End ReconcilerProofs.

(** ** Folder cache *)

Module DriveProofs.
Import PyStr Identity Drive Spec.

Lemma cache_le_refl c : cache_le c c.
Proof. intros f names H. eauto. Qed.

Lemma cache_le_trans c1 c2 c3 : cache_le c1 c2 → cache_le c2 c3 → cache_le c1 c3.
Proof.
  intros H12 H23 f names H. destruct (H12 _ _ H) as (n2 & H2 & Hs2).
  destruct (H23 _ _ H2) as (n3 & H3 & Hs3). exists n3. split; [done|set_solver].
Qed.

Lemma get_existing_files_cache_le env st folder_id :
  cache_le (existing_files_cache st)
           (existing_files_cache (_get_existing_files_in_folder env st folder_id).2).
Proof.
  unfold _get_existing_files_in_folder.
  destruct (existing_files_cache st !! folder_id) as [names|] eqn:E; [apply cache_le_refl|].
  destruct (list_fails env folder_id); [apply cache_le_refl|]. cbn.
  intros f names Hf. exists names. split; [|done].
  rewrite lookup_insert_ne; [done|]. intros ->. congruence.
Qed.

Lemma check_file_exists_cache_le env st folder_id filename :
  cache_le (existing_files_cache st)
           (existing_files_cache (_check_file_exists_in_drive env st folder_id filename).2).
Proof.
  unfold _check_file_exists_in_drive.
  pose proof (get_existing_files_cache_le env st folder_id) as H.
  by destruct (_get_existing_files_in_folder env st folder_id).
Qed.



(** When it creates one, it drops the cached listing of the parent. *)
Lemma create_drive_folder_invalidates :
  existing_files_cache cached_parent !! "B" = Some {[ "m1_a.xlsx" ]}
  ∧ existing_files_cache
      (_create_drive_folder no_faults cached_parent "alerts@bigbasket.com" "B").2 !! "B"
    = None.
Proof. split; by vm_compute. Qed.

End DriveProofs.

(** ** The index during a run *)

Module IndexGrowth.
Import PyStr Frame Index Reconciler Drive Spec ReconcilerProofs DriveProofs.




End IndexGrowth.

(** ** Cleanup pass *)

Module CleanupProofs.
Import PyStr PyNum Frame Cleanup Spec FrameProofs.



Lemma drop_duplicates_from_id {A K} `{EqDecision K} (key : A → K) seen l :
  NoDup (map key l) → (∀ x, x ∈ l → key x ∉ seen) →
  drop_duplicates_from key seen l = l.
Proof.
  revert seen. induction l as [|x l IH]; intros seen Hnd Hs; [done|].
  cbn [map] in Hnd. inversion Hnd as [|?? Hx Hl]; subst.
  cbn [drop_duplicates_from]. destruct (decide (key x ∈ seen)) as [Hin|_].
  { exfalso. apply (Hs x); [left|done]. }
  f_equal. apply IH; [done|].
  intros y Hy Hin. apply elem_of_cons in Hin as [Heq|Hin].
  - apply Hx. rewrite <- Heq. apply list_elem_of_fmap. eauto.
  - apply (Hs y); [by right|done].
Qed.

Lemma drop_duplicates_by_id {A K} `{EqDecision K} (key : A → K) l :
  NoDup (map key l) → drop_duplicates_by key l = l.
Proof. intros H. apply drop_duplicates_from_id; [done|]. set_solver. Qed.

Lemma length_pad n row : length row ≤ n → length (pad n row) = n.
Proof. unfold pad. rewrite length_app, length_replicate. lia. Qed.

Lemma max_len_ge vals row : row ∈ vals → length row ≤ max_len vals.
Proof.
  unfold max_len. induction vals as [|r vals IH]; [by intros ?%elem_of_nil|].
  cbn. intros [->|Hin]%elem_of_cons; [lia|]. specialize (IH Hin). lia.
Qed.

Lemma length_enumerate {A} (l : list A) : length (enumerate l) = length l.
Proof. unfold enumerate. rewrite length_zip_with, length_seq. lia. Qed.

Lemma enumerate_lookup {A} (l : list A) i x :
  enumerate l !! i = Some x ↔ x.1 = i ∧ l !! i = Some x.2.
Proof.
  unfold enumerate. destruct x as [j y]. cbn.
  rewrite lookup_zip_with_Some. split.
  - intros (a & b & [= <- <-] & Ha & Hb).
    apply lookup_seq in Ha as [-> _]. done.
  - intros [-> Hl]. exists i, y. split; [done|]. split; [|done].
    apply lookup_seq. split; [done|]. by apply lookup_lt_Some in Hl.
Qed.

Lemma elem_of_enumerate {A} (l : list A) i y :
  (i, y) ∈ enumerate l ↔ l !! i = Some y.
Proof.
  rewrite list_elem_of_lookup. split.
  - intros [k Hk]. apply enumerate_lookup in Hk as [Hi Hl]. cbn in *. by subst.
  - intros H. exists i. by apply enumerate_lookup.
Qed.

(** The positions [subset_positions] returns. *)
Lemma elem_of_subset_positions subset headers j :
  j ∈ subset_positions subset headers ↔ ∃ h, headers !! j = Some h ∧ h ∈ subset.
Proof.
  unfold subset_positions. rewrite list_elem_of_fmap. split.
  - intros ([i h] & -> & [Hh Hin%elem_of_enumerate]%list_elem_of_filter). eauto.
  - intros (h & Hl & Hh). exists (j, h). split; [done|].
    apply list_elem_of_filter. split; [done|]. by apply elem_of_enumerate.
Qed.


(** Two rows have the same key when they agree under every column whose
    label is in the subset. *)
Lemma subset_key_eq subset headers row row' :
  subset_key subset headers row = subset_key subset headers row' ↔
  ∀ j h, headers !! j = Some h → h ∈ subset → cell_at row j = cell_at row' j.
Proof.
  unfold subset_key. split.
  - intros Heq j h Hj Hh.
    assert (j ∈ subset_positions subset headers) as Hin
      by (apply elem_of_subset_positions; eauto).
    revert Heq Hin. generalize (subset_positions subset headers).
    intros l. induction l as [|k l IH]; cbn; [by intros _ ?%elem_of_nil|].
    intros [= Hk Hl] [->|Hin]%elem_of_cons; auto.
  - intros H. apply map_ext_in. intros j Hj%list_elem_of_In.
    apply elem_of_subset_positions in Hj as (h & Hj & Hh). eauto.
Qed.


Lemma has_column_positions label headers :
  has_column label headers = true → subset_positions [label] headers ≠ [].
Proof.
  unfold has_column. rewrite bool_decide_eq_true. intros Hin Hnil.
  apply list_elem_of_lookup in Hin as [j Hj].
  assert (j ∈ subset_positions [label] headers) as H.
  { apply elem_of_subset_positions. exists label. split; [done|]. by left. }
  rewrite Hnil in H. by apply elem_of_nil in H.
Qed.

Lemma no_column_positions label headers :
  has_column label headers = false → subset_positions [label] headers = [].
Proof.
  unfold has_column. rewrite bool_decide_eq_false. intros Hout.
  destruct (subset_positions [label] headers) as [|j l] eqn:E; [done|].
  assert (j ∈ subset_positions [label] headers) as H by (rewrite E; left).
  apply elem_of_subset_positions in H as (h & Hj & Hh).
  apply list_elem_of_singleton in Hh as ->. exfalso. apply Hout.
  apply list_elem_of_lookup. eauto.
Qed.

(** The pass, spelled out with the tables above. *)
Lemma cleanup_pass_eq vals :
  vals ≠ [] →
  cleanup_pass vals
  = {| total_removed :=
         if sort_raises vals then 0
         else (length (sheet_rows vals)
               - length (dedup_rows (sheet_headers vals) (sheet_rows vals)))
              + (length (dedup_rows (sheet_headers vals) (sheet_rows vals))
                 - length (clean_rows vals));
       written :=
         if sort_raises vals then None
         else Some (map VStr (clean_headers vals)
                    :: map (map process_value) (sorted_rows vals));
       after_dedup := dedup_rows (sheet_headers vals) (sheet_rows vals);
       after_blank := clean_rows vals |}.
Proof.
  destruct vals as [|first rest]; [done|]. intros _.
  unfold cleanup_pass. cbn zeta.
  change (map header_name (enumerate (pad (max_len (first :: rest)) first)))
    with (sheet_headers (first :: rest)).
  change (tail (map (pad (max_len (first :: rest))) (first :: rest)))
    with (sheet_rows (first :: rest)).
  fold (nonblank_rows (first :: rest)). fold (kept (first :: rest)).
  fold (clean_headers (first :: rest)). fold (clean_rows (first :: rest)).
  unfold sort_raises, sorted_rows.
  destruct (has_column "PO No" (clean_headers (first :: rest))) eqn:Hc.
  - destruct (subset_positions ["PO No"] (clean_headers (first :: rest)))
      as [|j [|j' l]] eqn:E;
      first [done | by apply has_column_positions in Hc].
  - rewrite (no_column_positions _ _ Hc). done.
Qed.

Lemma length_sheet_headers vals : length (sheet_headers vals) = max_len vals.
Proof.
  unfold sheet_headers. rewrite length_map, length_enumerate.
  destruct vals as [|first rest]; [done|]. cbn [hd].
  apply length_pad, max_len_ge. left.
Qed.

Lemma kept_columns_spec width rows j :
  j ∈ kept_columns width rows ↔
  j < width ∧ ∃ row, row ∈ rows ∧ cell_at row j ≠ EmptyString.
Proof.
  unfold kept_columns. rewrite list_elem_of_filter, elem_of_seq.
  rewrite existsb_exists. split.
  - intros [(row & Hrow%list_elem_of_In & Hc) Hj]. split; [lia|]. exists row.
    split; [done|]. by apply negb_true_iff, bool_decide_eq_false in Hc.
  - intros [Hj (row & Hrow & Hc)]. split; [|lia]. exists row.
    split; [by apply list_elem_of_In|]. by apply negb_true_iff, bool_decide_eq_false.
Qed.


Lemma project_lookup {A} (d : A) cols row i :
  project d cols row !! i = (λ j, nth j row d) <$> cols !! i.
Proof. unfold project. apply list_lookup_fmap. Qed.

Lemma nth_default_lookup {A} (d : A) l j : j < length l → l !! j = Some (nth j l d).
Proof.
  revert j. induction l as [|x l IH]; intros [|j] H; cbn in *; try lia; [done|].
  apply IH. lia.
Qed.










(** *** A second application *)







Lemma map_id_on {A} (f : A → A) l : (∀ x, x ∈ l → f x = x) → map f l = l.
Proof.
  induction l as [|x l IH]; intros H; [done|]. cbn. rewrite H by left.
  f_equal. apply IH. intros y Hy. apply H. by right.
Qed.

Lemma length_project {A} (d : A) cols row : length (project d cols row) = length cols.
Proof. unfold project. by rewrite length_map. Qed.

(** The rows the pass works on all have the width of the sheet. *)
Lemma sheet_rows_length vals row : row ∈ sheet_rows vals → length row = max_len vals.
Proof.
  unfold sheet_rows. intros Hrow.
  assert (row ∈ map (pad (max_len vals)) vals) as Hin.
  { destruct vals; [done|]. by right. }
  apply list_elem_of_fmap in Hin as (r & -> & Hr). by apply length_pad, max_len_ge.
Qed.

Lemma dedup_rows_sublist headers rows : sublist (dedup_rows headers rows) rows.
Proof.
  unfold dedup_rows. case_match; [apply drop_duplicates_from_sublist|done].
Qed.

Lemma nonblank_rows_sublist vals : sublist (nonblank_rows vals) (sheet_rows vals).
Proof.
  unfold nonblank_rows. etrans; [apply sublist_filter|apply dedup_rows_sublist].
Qed.

Lemma nonblank_rows_in vals row : row ∈ nonblank_rows vals → row ∈ sheet_rows vals.
Proof. intros H. eapply elem_of_sublist; [done|apply nonblank_rows_sublist]. Qed.

Lemma nonblank_rows_nonblank vals row : row ∈ nonblank_rows vals → all_blank row = false.
Proof. unfold nonblank_rows. by intros [? _]%list_elem_of_filter. Qed.

Lemma all_blank_false row :
  all_blank row = false → ∃ j, j < length row ∧ cell_at row j ≠ EmptyString.
Proof.
  unfold all_blank, cell_at. induction row as [|c row IH]; cbn; [done|].
  destruct (bool_decide (c = EmptyString)) eqn:E; cbn.
  - intros (j & Hj & Hc)%IH. exists (S j). split; [lia|done].
  - intros _. exists 0. split; [lia|]. by apply bool_decide_eq_false in E.
Qed.

Lemma all_blank_true_cells row j : all_blank row = true → cell_at row j = EmptyString.
Proof.
  unfold all_blank, cell_at. revert j. induction row as [|c row IH]; intros [|j]; cbn; try done.
  - by intros [?%bool_decide_eq_true _]%andb_prop.
  - intros [_ ?]%andb_prop. by apply IH.
Qed.

Lemma cell_at_project cols row i j :
  cols !! i = Some j → cell_at (project EmptyString cols row) i = cell_at row j.
Proof.
  intros Hi. unfold cell_at. 
  assert (project EmptyString cols row !! i = Some (nth j row EmptyString)) as H
    by by rewrite project_lookup, Hi.
  rewrite (nth_lookup_Some _ _ EmptyString _ H). done.
Qed.

(** A projected row of the non-blank table is not blank. *)
Lemma clean_rows_nonblank vals row : row ∈ clean_rows vals → all_blank row = false.
Proof.
  unfold clean_rows. intros (r & -> & Hr)%list_elem_of_fmap.
  destruct (all_blank (project _ _ r)) eqn:E; [exfalso|done].
  pose proof (nonblank_rows_nonblank _ _ Hr) as Hnb.
  apply all_blank_false in Hnb as (j & Hj & Hc).
  rewrite (sheet_rows_length vals r) in Hj by by apply nonblank_rows_in.
  assert (j ∈ kept vals) as Hk by (apply kept_columns_spec; eauto).
  apply list_elem_of_lookup in Hk as [i Hi].
  apply Hc. rewrite <- (cell_at_project _ _ _ _ Hi). by apply all_blank_true_cells.
Qed.

Lemma NoDup_fmap_inj_on {A B} (g : A → B) l x y :
  NoDup (map g l) → x ∈ l → y ∈ l → g x = g y → x = y.
Proof.
  induction l as [|z l IH]; [by intros _ ?%elem_of_nil|].
  cbn. intros Hnd Hx Hy Heq. inversion Hnd as [|?? Hz Hl]; subst.
  apply elem_of_cons in Hx as [->|Hx]; apply elem_of_cons in Hy as [->|Hy]; auto.
  - exfalso. apply Hz. rewrite Heq. apply list_elem_of_fmap. eauto.
  - exfalso. apply Hz. rewrite <- Heq. apply list_elem_of_fmap. eauto.
Qed.


Lemma clean_headers_in vals h : h ∈ clean_headers vals → h ∈ sheet_headers vals.
Proof.
  unfold clean_headers, project. intros (j & -> & Hj)%list_elem_of_fmap.
  apply kept_columns_spec in Hj as [Hj _]. rewrite <- length_sheet_headers in Hj.
  apply list_elem_of_lookup. exists j. by apply nth_default_lookup.
Qed.

Lemma clean_headers_lookup vals i j :
  kept vals !! i = Some j → clean_headers vals !! i = sheet_headers vals !! j.
Proof.
  intros Hi. unfold clean_headers. rewrite project_lookup, Hi. cbn.
  assert (j ∈ kept vals) as Hj by by eapply list_elem_of_lookup_2.
  apply kept_columns_spec in Hj as [Hj _]. rewrite <- length_sheet_headers in Hj.
  symmetry. by apply nth_default_lookup.
Qed.

(** Dropping the blank columns does not make two keys of the non-blank
    table equal. *)
Lemma clean_key_inj vals r r' :
  r ∈ nonblank_rows vals → r' ∈ nonblank_rows vals →
  subset_key key_subset (clean_headers vals) (project EmptyString (kept vals) r)
  = subset_key key_subset (clean_headers vals) (project EmptyString (kept vals) r') →
  subset_key key_subset (sheet_headers vals) r
  = subset_key key_subset (sheet_headers vals) r'.
Proof.
  intros Hr Hr'. rewrite !subset_key_eq. intros H j h Hj Hh.
  destruct (decide (j ∈ kept vals)) as [Hk|Hk].
  - apply list_elem_of_lookup in Hk as [i Hi].
    rewrite <- (cell_at_project _ r _ _ Hi), <- (cell_at_project _ r' _ _ Hi).
    apply (H i h); [|done]. by rewrite (clean_headers_lookup _ _ _ Hi).
  - assert (∀ row, row ∈ nonblank_rows vals → cell_at row j = EmptyString) as Hb.
    { intros row Hrow. destruct (decide (cell_at row j = EmptyString)) as [|Hne]; [done|].
      exfalso. apply Hk. apply kept_columns_spec. split; [|eauto].
      rewrite <- length_sheet_headers. by eapply lookup_lt_Some. }
    by rewrite (Hb r), (Hb r').
Qed.

Lemma clean_rows_keys_NoDup vals :
  has_column "Sku Code" (clean_headers vals) && has_column "PO No" (clean_headers vals)
  = true →
  NoDup (map (subset_key key_subset (clean_headers vals)) (clean_rows vals)).
Proof.
  unfold has_column. intros [Hs%bool_decide_eq_true Hp%bool_decide_eq_true]%andb_prop.
  apply clean_headers_in in Hs, Hp.
  assert (NoDup (map (subset_key key_subset (sheet_headers vals)) (nonblank_rows vals)))
    as Hnd.
  { unfold nonblank_rows, dedup_rows, has_column.
    rewrite !bool_decide_eq_true_2 by done. cbn [andb].
    eapply sublist_NoDup;
      [apply (drop_duplicates_from_NoDup
                (subset_key key_subset (sheet_headers vals)) [] (sheet_rows vals))|].
    apply fmap_sublist, sublist_filter. }
  unfold clean_rows. rewrite map_map.
  apply NoDup_fmap_2_strong; [|by eapply NoDup_fmap_1].
  intros r r' Hr Hr' Heq. eapply NoDup_fmap_inj_on; [exact Hnd|done|done|].
  by apply clean_key_inj.
Qed.

Lemma sorted_rows_Permutation vals : sorted_rows vals ≡ₚ clean_rows vals.
Proof.
  unfold sorted_rows, sort_rows.
  destruct (subset_positions _ _) as [|j [|k l]]; [done| |done].
  apply merge_sort_Permutation.
Qed.

Lemma sorted_rows_in vals row : row ∈ sorted_rows vals ↔ row ∈ clean_rows vals.
Proof. by rewrite sorted_rows_Permutation. Qed.

Lemma clean_rows_length vals row : row ∈ clean_rows vals → length row = length (kept vals).
Proof.
  unfold clean_rows. intros (r & -> & _)%list_elem_of_fmap. apply length_project.
Qed.














End CleanupProofs.

(** ** Two runs over the same candidates *)

Module TwoRuns.
Import PyStr Frame Index Reconciler Spec ReconcilerProofs.












Lemma reconcile_nonempty env s files grid0 :
  files ≠ [] →
  reconcile env s files grid0
  = fold_left (process_file env)
      (filter (λ f, file_name f ∉ source_names grid0) files)
      (start_run
         (Nat.iter (length (filter (λ f, file_name f ∈ source_names grid0) files))
                   bump_skipped (set_files_found (length files) s))
         (content_keys grid0) (_check_sheet_headers (Some (a1_range grid0))) grid0).
Proof.
  intros Hne. unfold reconcile. destruct files as [|f0 files0]; [done|].
  by rewrite filter_loop.
Qed.



End TwoRuns.

(** ** Two runs over the same messages *)

Module DriveRuns.
Import PyStr Identity Drive Spec DriveProofs.

Lemma payload_induction (P : payload → Prop) :
  (∀ parts, Forall P parts → P (Parts parts)) →
  (∀ filename attachment_id, P (Part filename attachment_id)) →
  ∀ p, P p.
Proof.
  intros Hparts Hpart. fix IH 1. intros [parts|filename attachment_id].
  - apply Hparts. induction parts as [|p parts IHparts]; constructor; [apply IH|done].
  - apply Hpart.
Qed.

Lemma add_counts_zero_l c : add_counts (0, 0, 0) c = c.
Proof. by destruct c as [[? ?] ?]. Qed.

Lemma add_counts_zero_r c : add_counts c (0, 0, 0) = c.
Proof. destruct c as [[? ?] ?]. cbn. by rewrite !Nat.add_0_r. Qed.

Lemma add_counts_assoc a b c : add_counts (add_counts a b) c = add_counts a (add_counts b c).
Proof.
  destruct a as [[? ?] ?], b as [[? ?] ?], c as [[? ?] ?]. cbn.
  by rewrite !Nat.add_assoc.
Qed.

Lemma part_step_eq env mid sender base c st leaf :
  part_step env mid sender base (c, st) leaf
  = (add_counts c (extract_part env mid sender base leaf.1 leaf.2 st).1,
     (extract_part env mid sender base leaf.1 leaf.2 st).2).
Proof. unfold part_step. by destruct (extract_part _ _ _ _ _ _ _). Qed.

(** The counts so far are only added to. *)
Lemma part_steps_acc env mid sender base ls c st :
  fold_left (part_step env mid sender base) ls (c, st)
  = (add_counts c (fold_left (part_step env mid sender base) ls ((0, 0, 0), st)).1,
     (fold_left (part_step env mid sender base) ls ((0, 0, 0), st)).2).
Proof.
  revert c st. induction ls as [|leaf ls IH]; intros c st.
  - cbn. by rewrite add_counts_zero_r.
  - cbn [fold_left]. rewrite !part_step_eq.
    rewrite (IH (add_counts c _)), (IH (add_counts (0, 0, 0) _)).
    cbn [fst snd]. by rewrite add_counts_zero_l, add_counts_assoc.
Qed.

(** Visiting a payload is visiting its attachment parts in order. *)
Lemma extract_attachments_leaves env mid sender base p st :
  _extract_attachments_from_email env mid sender base p st
  = fold_left (part_step env mid sender base) (leaves p) ((0, 0, 0), st).
Proof.
  revert st. induction p as [parts IH|filename attachment_id] using payload_induction;
    intros st.
  - cbn [_extract_attachments_from_email leaves].
    generalize (0, 0, 0). revert st.
    induction IH as [|p parts Hp _ IHparts]; intros st acc; [done|].
    cbn [map concat]. rewrite fold_left_app, Hp.
    rewrite (part_steps_acc _ _ _ _ (leaves p) acc).
    destruct (fold_left (part_step env mid sender base) (leaves p) ((0, 0, 0), st))
      as [c st'] eqn:E.
    cbn [fst snd]. apply IHparts.
  - destruct attachment_id as [a|]; [|done].
    cbn [_extract_attachments_from_email leaves].
    destruct (truthy filename); [|done]. cbn [fold_left].
    rewrite part_step_eq, add_counts_zero_l. cbn [fst snd].
    by destruct (extract_part env mid sender base filename a st).
Qed.


(** *** The store only grows *)

Lemma listing_app its more folder_id :
  listing (its ++ more) folder_id = listing its folder_id ∪ listing more folder_id.
Proof.
  unfold listing. rewrite filter_app, map_app. apply list_to_set_app_L.
Qed.

Lemma find_app_Some {A} (p : A → bool) (l more : list A) x :
  List.find p l = Some x → List.find p (l ++ more) = Some x.
Proof.
  induction l as [|a l IH]; [done|]. cbn. by destruct (p a).
Qed.

Lemma find_app_None {A} (p : A → bool) (l more : list A) :
  List.find p l = None → List.find p (l ++ more) = List.find p more.
Proof.
  induction l as [|a l IH]; [done|]. cbn. by destruct (p a).
Qed.

Lemma type_folder_app env its more folder_name parent_folder_id folder_id :
  type_folder env its folder_name parent_folder_id = Some folder_id →
  type_folder env (its ++ more) folder_name parent_folder_id = Some folder_id.
Proof.
  unfold type_folder. destruct (folder_fails env folder_name parent_folder_id); [done|].
  destruct (List.find _ its) as [it|] eqn:E; [|done].
  by rewrite (find_app_Some _ _ _ _ E).
Qed.

Lemma settled_part_app env its more base mid sender leaf :
  settled_part env its base mid sender leaf →
  settled_part env (its ++ more) base mid sender leaf.
Proof.
  intros [H|(T & HT & H)]; [by left|right]. exists T.
  split; [by apply type_folder_app|]. rewrite listing_app. set_solver.
Qed.

Lemma settled_email_app env its more base e :
  settled_email env its base e → settled_email env (its ++ more) base e.
Proof.
  unfold settled_email. destruct (email_message e) as [[p|]|]; [|done..].
  intros H. eapply Forall_impl; [exact H|]. intros leaf. apply settled_part_app.
Qed.

(** *** What each call does to a coherent store *)

Lemma get_existing_files_spec env st folder_id :
  coherent st →
  let r := _get_existing_files_in_folder env st folder_id in
  coherent r.2 ∧ items r.2 = items st
  ∧ r.1 ⊆ listing (items st) folder_id
  ∧ (list_fails env folder_id = false → r.1 = listing (items st) folder_id).
Proof.
  intros Hco. unfold _get_existing_files_in_folder.
  destruct (existing_files_cache st !! folder_id) as [names|] eqn:E; cbn.
  - rewrite (Hco _ _ E). done.
  - destruct (list_fails env folder_id); cbn.
    + repeat split; [done|set_solver|done].
    + repeat split; try done. intros f names. cbn.
      destruct (decide (f = folder_id)) as [->|Hne].
      * rewrite lookup_insert_eq. by intros [= <-].
      * rewrite lookup_insert_ne by done. apply Hco.
Qed.

Lemma check_file_exists_spec env st folder_id filename :
  coherent st →
  let r := _check_file_exists_in_drive env st folder_id filename in
  coherent r.2 ∧ items r.2 = items st
  ∧ (r.1 = true → filename ∈ listing (items st) folder_id)
  ∧ (list_fails env folder_id = false →
     r.1 = bool_decide (filename ∈ listing (items st) folder_id)).
Proof.
  intros Hco. unfold _check_file_exists_in_drive.
  destruct (get_existing_files_spec env st folder_id Hco) as (H1 & H2 & H3 & H4).
  destruct (_get_existing_files_in_folder env st folder_id) as [names st']. cbn in *.
  repeat split; [done..| |].
  - intros H%bool_decide_eq_true. set_solver.
  - intros Hl. by rewrite (H4 Hl).
Qed.

Lemma upload_spec st type_folder_id final :
  coherent st →
  coherent (upload st type_folder_id final)
  ∧ final ∈ listing (items (upload st type_folder_id final)) type_folder_id.
Proof.
  intros Hco.
  assert (listing (items (upload st type_folder_id final)) type_folder_id
          = listing (items st) type_folder_id ∪ {[ final ]}) as Hl.
  { unfold upload. cbn [items]. rewrite listing_app. f_equal. unfold listing.
    rewrite filter_cons, decide_True by done. cbn. set_solver. }
  split; [|rewrite Hl; set_solver].
  intros f names. destruct (decide (f = type_folder_id)) as [->|Hne].
  - rewrite Hl. unfold upload. cbn [existing_files_cache].
    destruct (existing_files_cache st !! type_folder_id) as [ns|] eqn:E.
    + rewrite lookup_insert_eq. intros [= <-]. by rewrite (Hco _ _ E).
    + by rewrite E.
  - unfold upload. cbn [existing_files_cache items]. rewrite listing_app.
    assert (listing [{| item_id := new_id st; item_name := final;
                        item_parent := type_folder_id; item_is_folder := false |}] f = ∅)
      as ->.
    { unfold listing. by rewrite filter_cons, decide_False by done. }
    rewrite union_empty_r_L.
    destruct (existing_files_cache st !! type_folder_id) as [ns|] eqn:E.
    + rewrite lookup_insert_ne by done. apply Hco.
    + apply Hco.
Qed.


(** Otherwise one is created, and is there afterwards. *)
Lemma create_drive_folder_spec env st folder_name parent_folder_id :
  coherent st →
  truthy parent_folder_id = true ∨ existing_files_cache st !! parent_folder_id = None →
  let r := _create_drive_folder env st folder_name parent_folder_id in
  coherent r.2 ∧ (∃ more, items r.2 = items st ++ more)
  ∧ type_folder env (items r.2) folder_name parent_folder_id = Some r.1.
Proof.
  intros Hco Hparent. unfold type_folder, _create_drive_folder.
  destruct (folder_fails env folder_name parent_folder_id) eqn:Ef; cbn.
  { split; [done|]. split; [|done]. exists []. by rewrite app_nil_r. }
  destruct (List.find _ (items st)) as [it|] eqn:E; cbn [fst snd items].
  { rewrite E. split; [done|]. split; [|done]. exists []. by rewrite app_nil_r. }
  split; [|split; [by eexists|]].
  - intros f names. cbn [existing_files_cache items snd]. rewrite listing_app.
    destruct (decide (f = parent_folder_id)) as [->|Hne].
    + destruct Hparent as [->|Hnone].
      * by rewrite lookup_delete_eq.
      * destruct (truthy parent_folder_id); [by rewrite lookup_delete_eq|].
        by rewrite Hnone.
    + assert (listing [{| item_id := new_id st; item_name := folder_name;
                          item_parent := parent_folder_id; item_is_folder := true |}] f = ∅)
        as ->.
      { unfold listing. by rewrite filter_cons, decide_False by done. }
      rewrite union_empty_r_L.
      destruct (truthy parent_folder_id); [rewrite lookup_delete_ne by done|]; apply Hco.
  - rewrite (find_app_None _ _ _ E). cbn. unfold is_folder_named. cbn.
    rewrite !bool_decide_eq_true_2 by done. by rewrite orb_true_r.
Qed.

(** *** One attachment part *)

(** After a part is visited, nothing is left to upload for it. *)
Lemma extract_part_settles env mid sender base filename aid st :
  coherent st → truthy base = true →
  let r := extract_part env mid sender base filename aid st in
  coherent r.2 ∧ (∃ more, items r.2 = items st ++ more)
  ∧ settled_part env (items r.2) base mid sender (filename, aid).
Proof.
  intros Hco Hbase. unfold extract_part, settled_part. cbn [fst snd].
  destruct (is_excel_name filename); cbn [negb].
  2:{ split; [done|]. split; [exists []; by rewrite app_nil_r|by left]. }
  destruct (create_drive_folder_spec env st
              (_sanitize_filename (sender_address sender)) base Hco (or_introl Hbase))
    as (Hco1 & [more Hmore] & Htype).
  destruct (_create_drive_folder env st _ base) as [T st1]. cbn [fst snd] in *.
  destruct (check_file_exists_spec env st1 T (final_filename mid filename) Hco1)
    as (Hco2 & Hitems & Hfound & _).
  destruct (_check_file_exists_in_drive env st1 T _) as [found st2]. cbn [fst snd] in *.
  assert (type_folder env (items st2) (_sanitize_filename (sender_address sender)) base
          = Some T) as Htype2 by (by rewrite Hitems).
  destruct found.
  { cbn [snd]. split; [done|]. split; [exists more; congruence|].
    right. exists T. split; [done|]. left. rewrite Hitems. by apply Hfound. }
  destruct (fetch_fails env mid aid) eqn:Efetch.
  { cbn [snd]. split; [done|]. split; [exists more; congruence|].
    right. exists T. split; [done|]. right. by left. }
  destruct (upload_fails env T (final_filename mid filename)) eqn:Eup.
  { cbn [snd]. split; [done|]. split; [exists more; congruence|].
    right. exists T. split; [done|]. right. by right. }
  cbn [snd]. destruct (upload_spec st2 T (final_filename mid filename) Hco2) as [Hco3 Hin].
  split; [done|]. split.
  - eexists. unfold upload. cbn [items]. rewrite Hitems, Hmore, <- app_assoc. done.
  - right. exists T. split; [|by left]. unfold upload. cbn [items].
    by apply type_folder_app.
Qed.


(** *** The parts of a message *)

Lemma part_steps_settle env mid sender base ls c st :
  coherent st → truthy base = true →
  let r := fold_left (part_step env mid sender base) ls (c, st) in
  coherent r.2 ∧ (∃ more, items r.2 = items st ++ more)
  ∧ Forall (settled_part env (items r.2) base mid sender) ls.
Proof.
  intros Hco Hbase. revert c st Hco. induction ls as [|[filename aid] ls IH]; intros c st Hco.
  - cbn. split; [done|]. split; [exists []; by rewrite app_nil_r|constructor].
  - cbn [fold_left]. rewrite part_step_eq. cbn [fst snd].
    destruct (extract_part_settles env mid sender base filename aid st Hco Hbase)
      as (Hco1 & [m1 Hm1] & Hs1).
    destruct (IH (add_counts c (extract_part env mid sender base filename aid st).1)
                 _ Hco1) as (Hco2 & [m2 Hm2] & Hs2).
    split; [done|]. split.
    + exists (m1 ++ m2). by rewrite Hm2, Hm1, app_assoc.
    + constructor; [|done]. rewrite Hm2. by apply settled_part_app.
Qed.


(** *** The messages of a run *)

Lemma process_email_settles env base s st e :
  coherent st → truthy base = true →
  let r := process_email env base (s, st) e in
  coherent r.2 ∧ (∃ more, items r.2 = items st ++ more)
  ∧ settled_email env (items r.2) base e.
Proof.
  intros Hco Hbase. unfold process_email, settled_email.
  destruct (email_message e) as [[p|]|]; cbn [fst snd];
    [|split; [done|split; [exists []; by rewrite app_nil_r|done]]..].
  rewrite extract_attachments_leaves.
  pose proof (part_steps_settle env (email_id e) (email_sender e) base (leaves p)
                (0, 0, 0) st Hco Hbase) as H.
  by destruct (fold_left _ (leaves p) _) as [[[a b] d] st'].
Qed.


Lemma process_emails_settle env base emails s st :
  coherent st → truthy base = true →
  let r := fold_left (process_email env base) emails (s, st) in
  coherent r.2 ∧ (∃ more, items r.2 = items st ++ more)
  ∧ Forall (settled_email env (items r.2) base) emails.
Proof.
  intros Hco Hbase. revert s st Hco. induction emails as [|e emails IH]; intros s st Hco.
  - cbn. split; [done|]. split; [exists []; by rewrite app_nil_r|constructor].
  - cbn [fold_left].
    destruct (process_email_settles env base s st e Hco Hbase) as (Hco1 & [m1 Hm1] & Hs1).
    destruct (process_email env base (s, st) e) as [s1 st1]. cbn [fst snd] in *.
    destruct (IH s1 st1 Hco1) as (Hco2 & [m2 Hm2] & Hs2).
    split; [done|]. split.
    + exists (m1 ++ m2). by rewrite Hm2, Hm1, app_assoc.
    + constructor; [|done]. rewrite Hm2. by apply settled_email_app.
Qed.


Lemma fresh_run_coherent st : coherent (fresh_run st).
Proof. intros f names. cbn. by rewrite lookup_empty. Qed.


End DriveRuns.

(** ** The reconciler run twice *)

Module Idempotence.
Import PyStr Frame Index Reconciler Drive Spec TwoRuns DriveRuns.




End Idempotence.

(** * Further properties of the code *)

(** ** Counters of the two workflows *)

Module Counters.
Import PyStr Identity Frame Index Reconciler Drive Spec Terms DriveRuns.

Lemma extract_part_total env mid sender base filename aid st :
  (extract_part env mid sender base filename aid st).1.1.1
  + (extract_part env mid sender base filename aid st).1.1.2
  + (extract_part env mid sender base filename aid st).1.2
  = if is_excel_name filename then 1 else 0.
Proof.
  unfold extract_part. destruct (is_excel_name filename); cbn [negb]; [|done].
  destruct (_create_drive_folder env st _ base) as [T st1].
  destruct (_check_file_exists_in_drive env st1 T _) as [[] st2]; [done|].
  destruct (fetch_fails env mid aid); [done|].
  by destruct (upload_fails env T _).
Qed.

Lemma count_leaves p :
  _count_attachments_in_email p
  = list_sum (map (λ leaf, if is_excel_name leaf.1 then 1 else 0) (leaves p)).
Proof.
  induction p as [parts IH|filename attachment_id] using payload_induction.
  - cbn [_count_attachments_in_email leaves].
    induction IH as [|p parts Hp _ IHparts]; [done|].
    change (list_sum (map _count_attachments_in_email (p :: parts)))
      with (_count_attachments_in_email p
            + list_sum (map _count_attachments_in_email parts)).
    cbn [map concat]. by rewrite map_app, list_sum_app, Hp, IHparts.
  - destruct attachment_id as [a|]; [|done]. cbn.
    destruct (truthy filename); [|done]. cbn. destruct (is_excel_name filename); done.
Qed.

Lemma part_steps_total env mid sender base ls c st :
  (fold_left (part_step env mid sender base) ls (c, st)).1.1.1
  + (fold_left (part_step env mid sender base) ls (c, st)).1.1.2
  + (fold_left (part_step env mid sender base) ls (c, st)).1.2
  = c.1.1 + c.1.2 + c.2
    + list_sum (map (λ leaf, if is_excel_name leaf.1 then 1 else 0) ls).
Proof.
  revert c st. induction ls as [|[filename aid] ls IH]; intros c st.
  - cbn. lia.
  - cbn [fold_left]. rewrite part_step_eq, IH.
    pose proof (extract_part_total env mid sender base filename aid st) as H.
    change (list_sum (map (λ leaf, if is_excel_name leaf.1 then 1 else 0)
                          ((filename, aid) :: ls)))
      with ((if is_excel_name filename then 1 else 0)
            + list_sum (map (λ leaf : string * string,
                               if is_excel_name leaf.1 then 1 else 0) ls)).
    cbn [fst snd] in *.
    destruct (extract_part env mid sender base filename aid st) as [[[a b] d] st'].
    destruct c as [[a0 b0] d0]. cbn [fst snd add_counts] in *. lia.
Qed.

Lemma extract_attachments_total env mid sender base p st :
  (_extract_attachments_from_email env mid sender base p st).1.1.1
  + (_extract_attachments_from_email env mid sender base p st).1.1.2
  + (_extract_attachments_from_email env mid sender base p st).1.2
  = _count_attachments_in_email p.
Proof.
  rewrite extract_attachments_leaves, count_leaves.
  by rewrite part_steps_total.
Qed.

(** X1.  Every spreadsheet attachment of a message is accounted for
    once: the numbers saved, skipped and failed that
    [_extract_attachments_from_email] returns add up to the number
    [_count_attachments_in_email] gives for the same payload, whatever
    the store holds and whichever calls fail. *)
Theorem attachment_counts_add_up (env : Faults) (message_id sender base_folder_id : string)
    (p : payload) (st : state) :
  let c := (_extract_attachments_from_email env message_id sender base_folder_id p st).1 in
  c.1.1 + c.1.2 + c.2 = _count_attachments_in_email p.
Proof.
  apply extract_attachments_total.
Qed.

Lemma process_email_counters env base s st e :
  let r := process_email env base (s, st) e in
  emails_checked r.1 = emails_checked s
  ∧ attachments_found r.1 = attachments_found s + counted e
  ∧ attachments_saved r.1 + attachments_skipped r.1 + attachments_failed r.1
    = attachments_saved s + attachments_skipped s + attachments_failed s
      + counted e + fetch_failed e.
Proof.
  unfold process_email, counted, fetch_failed.
  destruct (email_message e) as [[p|]|]; cbn [fst snd].
  - pose proof (extract_attachments_total env (email_id e) (email_sender e) base p st) as H.
    destruct (_extract_attachments_from_email _ _ _ _ p st) as [[[a b] d] st'].
    cbn in *. lia.
  - cbn. lia.
  - cbn. lia.
Qed.

Lemma process_emails_counters env base emails s st :
  let r := fold_left (process_email env base) emails (s, st) in
  emails_checked r.1 = emails_checked s
  ∧ attachments_found r.1 = attachments_found s + list_sum (map counted emails)
  ∧ attachments_saved r.1 + attachments_skipped r.1 + attachments_failed r.1
    = attachments_saved s + attachments_skipped s + attachments_failed s
      + list_sum (map counted emails) + list_sum (map fetch_failed emails).
Proof.
  revert s st. induction emails as [|e emails IH]; intros s st.
  - cbn. lia.
  - cbn [fold_left].
    destruct (process_email_counters env base s st e) as (H1 & H2 & H3).
    destruct (process_email env base (s, st) e) as [s1 st1]. cbn [fst snd] in *.
    destruct (IH s1 st1) as (H1' & H2' & H3'). cbn zeta.
    change (list_sum (map counted (e :: emails)))
      with (counted e + list_sum (map counted emails)).
    change (list_sum (map fetch_failed (e :: emails)))
      with (fetch_failed e + list_sum (map fetch_failed emails)).
    lia.
Qed.

Lemma new_id_truthy st : truthy (new_id st) = true.
Proof. done. Qed.

(** When no base folder is to be had, the store is left as it was. *)
Lemma create_drive_folder_falsy env st folder_name parent_folder_id :
  truthy (_create_drive_folder env st folder_name parent_folder_id).1 = false →
  (_create_drive_folder env st folder_name parent_folder_id).2 = st.
Proof.
  unfold _create_drive_folder.
  destruct (folder_fails env folder_name parent_folder_id); [done|].
  destruct (List.find _ _); [done|]. cbn [fst snd item_id].
  pose proof (new_id_truthy st). congruence.
Qed.

(** X2.  The counters of the mail workflow balance.  [emails_checked] is
    the number of messages found.  When the workflow returns [True],
    [attachments_found] is the number of spreadsheet attachments of the
    messages that could be fetched, and saved, skipped and failed add up
    to it plus one for every message whose fetch raised.  When it
    returns [False] (no base folder) all four counters are zero and the
    store is untouched. *)
Theorem gmail_counters_balance (env : Faults) (gdrive_folder_id : string)
    (emails : list email) (st : state) :
  let r := process_gmail_workflow env gdrive_folder_id emails st in
  let s := r.1.2 in
  emails_checked s = length emails
  ∧ if r.1.1
    then attachments_found s = list_sum (map counted emails)
         ∧ attachments_saved s + attachments_skipped s + attachments_failed s
           = attachments_found s + list_sum (map fetch_failed emails)
    else attachments_found s = 0 ∧ attachments_saved s = 0
         ∧ attachments_skipped s = 0 ∧ attachments_failed s = 0
         ∧ r.2 = st.
Proof.
  unfold process_gmail_workflow. destruct emails as [|e0 emails0]; [done|].
  set (emails := e0 :: emails0). clearbody emails.
  pose proof (create_drive_folder_falsy env st "Gmail_Attachments_BigBasket"
                gdrive_folder_id) as Hfalsy.
  destruct (_create_drive_folder env st _ gdrive_folder_id) as [B stB].
  cbn [fst snd] in Hfalsy.
  destruct (truthy B) eqn:HB; cbn [negb].
  - set (s0 := {| emails_checked := length emails; attachments_found := 0;
                  attachments_saved := 0; attachments_skipped := 0;
                  attachments_failed := 0 |}).
    destruct (process_emails_counters env B emails s0 stB) as (H1 & H2 & H3).
    destruct (fold_left (process_email env B) emails (s0, stB)) as [s1 st1].
    cbn [fst snd] in *. subst s0.
    cbn [attachments_found attachments_saved attachments_skipped attachments_failed
         emails_checked] in *.
    split; [done|]. split; lia.
  - cbn [fst snd]. rewrite Hfalsy by done. done.
Qed.

(** *** The file counters *)

Lemma process_file_counters env r file :
  let r' := process_file env r file in
  files_found (stats r') = files_found (stats r)
  ∧ files_processed (stats r') + files_skipped (stats r') + files_failed (stats r')
    = files_processed (stats r) + files_skipped (stats r) + files_failed (stats r) + 1
  ∧ files_processed (stats r') + length (appends r)
    = files_processed (stats r) + length (appends r').
Proof.
  unfold process_file.
  destruct (df_empty (_read_excel_file_robust _ _ _)); [cbn; lia|]. cbn zeta.
  destruct (has_key_columns _ && df_empty _); [cbn; lia|].
  destruct (bool_decide _ || append_ok env _); cbn; lia.
Qed.

Lemma process_loop_counters env files r :
  let r' := fold_left (process_file env) files r in
  files_found (stats r') = files_found (stats r)
  ∧ files_processed (stats r') + files_skipped (stats r') + files_failed (stats r')
    = files_processed (stats r) + files_skipped (stats r) + files_failed (stats r)
      + length files
  ∧ files_processed (stats r') + length (appends r)
    = files_processed (stats r) + length (appends r').
Proof.
  revert r. induction files as [|f files IH]; intros r; [cbn; lia|].
  cbn [fold_left length]. destruct (process_file_counters env r f) as (H1 & H2 & H3).
  destruct (IH (process_file env r f)) as (H1' & H2' & H3'). cbn zeta in *. lia.
Qed.

Lemma iter_bump_skipped n s :
  files_found (Nat.iter n bump_skipped s) = files_found s
  ∧ files_processed (Nat.iter n bump_skipped s) = files_processed s
  ∧ files_skipped (Nat.iter n bump_skipped s) = files_skipped s + n
  ∧ files_failed (Nat.iter n bump_skipped s) = files_failed s.
Proof.
  induction n as [|n IH]; [cbn; lia|].
  change (Nat.iter (S n) bump_skipped s) with (bump_skipped (Nat.iter n bump_skipped s)).
  cbn [bump_skipped files_found files_processed files_skipped files_failed]. lia.
Qed.

Lemma length_filter_split {A} (P : A → Prop) `{∀ x, Decision (P x)} (l : list A) :
  length (filter P l) + length (filter (λ x, ¬ P x) l) = length l.
Proof.
  induction l as [|x l IH]; [done|]. rewrite !filter_cons.
  destruct (decide (P x)).
  - rewrite decide_False by tauto. cbn. lia.
  - rewrite decide_True by done. cbn. lia.
Qed.

Lemma reconcile_counters env s files grid :
  let r := reconcile env s files grid in
  files_found (stats r) = length files
  ∧ files_processed (stats r) + files_skipped (stats r) + files_failed (stats r)
    = files_processed s + files_skipped s + files_failed s + length files
  ∧ files_processed (stats r) = files_processed s + length (appends r).
Proof.
  destruct (decide (files = [])) as [->|Hne]; [cbn; lia|].
  cbn zeta. rewrite (TwoRuns.reconcile_nonempty env s files grid Hne).
  match goal with |- context [fold_left (process_file env) ?fs ?r0] =>
    destruct (process_loop_counters env fs r0) as (H1 & H2 & H3) end.
  cbn zeta in *. cbn [stats start_run appends length] in *.
  match type of H1 with context [Nat.iter ?n bump_skipped ?s0] =>
    destruct (iter_bump_skipped n s0) as (I1 & I2 & I3 & I4) end.
  pose proof (length_filter_split (λ f, file_name f ∈ source_names grid) files) as Hl.
  unfold source_names in *. cbn [files_found set_files_found files_processed
    files_skipped files_failed] in *.
  lia.
Qed.

(** X3.  The counters of the file workflow balance.  [files_found] is
    the number of candidate files, and every candidate is counted once,
    as processed, skipped or failed: the three counters grow by the
    number of candidates in total.  A file is counted as processed
    exactly when its rows were appended. *)
Theorem file_counters_balance (env : Remote) (s : Stats) (files : list DriveFile)
    (grid0 : values) :
  let r := process_excel_workflow env s files grid0 in
  files_found (stats r) = length files
  ∧ files_processed (stats r) + files_skipped (stats r) + files_failed (stats r)
    = files_processed s + files_skipped s + files_failed s + length files
  ∧ files_processed (stats r) = files_processed s + length (appends r).
Proof.
  cbn zeta. unfold process_excel_workflow.
  pose proof (reconcile_counters env s files grid0) as H. cbn zeta in H.
  destruct (0 <? _); [|done].
  by destruct (Cleanup._remove_duplicates_from_sheet _).
Qed.

End Counters.

(** ** What a mail run keeps true of the store *)

Module StoreInvariants.
Import PyStr Identity Drive Spec Terms DriveProofs DriveRuns.

Lemma stored_files_app its more :
  stored_files (its ++ more) = stored_files its ++ stored_files more.
Proof. unfold stored_files. by rewrite filter_app, map_app. Qed.

Lemma stored_folders_app its more :
  stored_folders (its ++ more) = stored_folders its ++ stored_folders more.
Proof. unfold stored_folders. by rewrite filter_app, map_app. Qed.

Lemma stored_files_listing its folder_id name :
  (folder_id, name) ∈ stored_files its → name ∈ listing its folder_id.
Proof.
  unfold stored_files, listing.
  intros (it & [= -> ->] & [_ Hit]%list_elem_of_filter)%list_elem_of_fmap.
  apply elem_of_list_to_set, list_elem_of_fmap. exists it. split; [done|].
  by apply list_elem_of_filter.
Qed.

(** A state predicate that [_create_drive_folder] and the visit of one
    attachment part keep is kept by the whole workflow. *)
Lemma part_steps_invariant (P : state → Prop) env mid sender base ls c st :
  (∀ filename aid st, coherent st → P st →
     P (extract_part env mid sender base filename aid st).2) →
  truthy base = true → coherent st → P st →
  P (fold_left (part_step env mid sender base) ls (c, st)).2.
Proof.
  intros Hstep Hbase. revert c st.
  induction ls as [|[filename aid] ls IH]; intros c st Hco HP; [done|].
  cbn [fold_left]. rewrite part_step_eq. apply IH.
  - by apply extract_part_settles.
  - by apply Hstep.
Qed.

Lemma process_email_invariant (P : state → Prop) env base s st e :
  (∀ mid sender filename aid st, coherent st → P st →
     P (extract_part env mid sender base filename aid st).2) →
  truthy base = true → coherent st → P st →
  P (process_email env base (s, st) e).2.
Proof.
  intros Hstep Hbase Hco HP. unfold process_email.
  destruct (email_message e) as [[p|]|]; [|done..].
  rewrite extract_attachments_leaves.
  pose proof (part_steps_invariant P env (email_id e) (email_sender e) base (leaves p)
                (0, 0, 0) st (Hstep _ _) Hbase Hco HP) as H.
  by destruct (fold_left _ (leaves p) _) as [[[a b] d] st'].
Qed.

Lemma process_emails_invariant (P : state → Prop) env base emails s st :
  (∀ mid sender filename aid st, coherent st → P st →
     P (extract_part env mid sender base filename aid st).2) →
  truthy base = true → coherent st → P st →
  P (fold_left (process_email env base) emails (s, st)).2.
Proof.
  intros Hstep Hbase. revert s st.
  induction emails as [|e emails IH]; intros s st Hco HP; [done|].
  cbn [fold_left].
  pose proof (process_email_invariant P env base s st e Hstep Hbase Hco HP) as HP1.
  destruct (process_email_settles env base s st e Hco Hbase) as (Hco1 & _ & _).
  destruct (process_email env base (s, st) e) as [s1 st1]. by apply IH.
Qed.

Lemma workflow_invariant (P : state → Prop) env gdrive_folder_id emails st :
  (∀ mid sender base filename aid st, truthy base = true → coherent st → P st →
     P (extract_part env mid sender base filename aid st).2) →
  (∀ folder_name parent_folder_id st, P st →
     P (_create_drive_folder env st folder_name parent_folder_id).2) →
  P (fresh_run st) →
  P (process_gmail_workflow env gdrive_folder_id emails (fresh_run st)).2.
Proof.
  intros Hstep Hfolder HP. unfold process_gmail_workflow.
  destruct emails as [|e0 emails0]; [done|].
  set (emails := e0 :: emails0). clearbody emails.
  destruct (create_drive_folder_spec env (fresh_run st) "Gmail_Attachments_BigBasket"
              gdrive_folder_id (fresh_run_coherent st) (or_intror (lookup_empty _)))
    as (Hco1 & _ & _).
  pose proof (Hfolder "Gmail_Attachments_BigBasket" gdrive_folder_id _ HP) as HP1.
  destruct (_create_drive_folder env (fresh_run st) _ gdrive_folder_id) as [B stB].
  cbn [fst snd] in *.
  destruct (truthy B) eqn:HB; cbn [negb]; [|done].
  pose proof (process_emails_invariant P env B emails
                {| emails_checked := length emails; attachments_found := 0;
                   attachments_saved := 0; attachments_skipped := 0;
                   attachments_failed := 0 |} stB
                (λ mid sender filename aid st', Hstep mid sender B filename aid st' HB)
                HB Hco1 HP1) as H.
  by destruct (fold_left (process_email env B) emails _) as [s1 st1].
Qed.

(** *** Folders *)

Lemma create_drive_folder_items env st folder_name parent_folder_id :
  let r := _create_drive_folder env st folder_name parent_folder_id in
  items r.2 = items st
  ∨ (List.find (is_folder_named folder_name parent_folder_id) (items st) = None
     ∧ items r.2 = items st ++ [{| item_id := new_id st; item_name := folder_name;
                                   item_parent := parent_folder_id;
                                   item_is_folder := true |}]).
Proof.
  unfold _create_drive_folder.
  destruct (folder_fails env folder_name parent_folder_id); [by left|].
  destruct (List.find _ _) eqn:E; [by left|by right].
Qed.

Lemma create_drive_folder_files env st folder_name parent_folder_id :
  stored_files (items (_create_drive_folder env st folder_name parent_folder_id).2)
  = stored_files (items st).
Proof.
  destruct (create_drive_folder_items env st folder_name parent_folder_id) as [->|[_ ->]];
    [done|].
  rewrite stored_files_app. unfold stored_files at 2.
  rewrite filter_cons, decide_False by done. cbn. by rewrite app_nil_r.
Qed.

Lemma find_none_not_stored folder_name parent_folder_id its :
  List.find (is_folder_named folder_name parent_folder_id) its = None →
  (parent_folder_id, folder_name) ∉ stored_folders its.
Proof.
  intros Hfind Hin. unfold stored_folders in Hin.
  apply list_elem_of_fmap in Hin as (it & [= Hp Hn] & [Hf Hit]%list_elem_of_filter).
  apply list_elem_of_In in Hit.
  pose proof (List.find_none _ _ Hfind it Hit) as Hno.
  unfold is_folder_named in Hno. rewrite Hf in Hno.
  rewrite (bool_decide_eq_true_2 (item_name it = folder_name)) in Hno by done.
  rewrite (bool_decide_eq_true_2 (item_parent it = parent_folder_id)) in Hno by done.
  by rewrite orb_true_r in Hno.
Qed.

Lemma create_drive_folder_folders env st folder_name parent_folder_id :
  NoDup (stored_folders (items st)) →
  NoDup (stored_folders
           (items (_create_drive_folder env st folder_name parent_folder_id).2)).
Proof.
  intros Hnd.
  destruct (create_drive_folder_items env st folder_name parent_folder_id)
    as [->|[Hfind ->]]; [done|].
  rewrite stored_folders_app. apply NoDup_app. split; [done|]. split.
  - intros x Hx. unfold stored_folders. rewrite filter_cons, decide_True by done. cbn.
    intros ->%list_elem_of_singleton. by eapply find_none_not_stored.
  - unfold stored_folders. rewrite filter_cons, decide_True by done. cbn.
    apply NoDup_singleton.
Qed.

(** X4.  [_create_drive_folder] is idempotent and never makes a second
    folder of a name under the same parent: calling it again with the
    same name and parent returns the same id and leaves the store and
    the cache as the first call left them, and a store whose folders
    have pairwise distinct (parent, name) pairs stays so. *)
Theorem create_drive_folder_idempotent (env : Faults) (st : state)
    (folder_name parent_folder_id : string) :
  let r := _create_drive_folder env st folder_name parent_folder_id in
  _create_drive_folder env r.2 folder_name parent_folder_id = r
  ∧ (NoDup (stored_folders (items st)) → NoDup (stored_folders (items r.2))).
Proof.
  split; [|apply create_drive_folder_folders].
  unfold _create_drive_folder.
  destruct (folder_fails env folder_name parent_folder_id) eqn:Ef; cbn [snd]; [done|].
  destruct (List.find _ (items st)) as [it|] eqn:E; cbn [snd].
  { by rewrite E. }
  cbn [items]. rewrite (find_app_None _ _ _ E). cbn [List.find].
  unfold is_folder_named at 1. cbn [item_is_folder item_name item_parent].
  rewrite !bool_decide_eq_true_2 by done. by rewrite orb_true_r.
Qed.

(** *** Files *)

Lemma extract_part_files env mid sender base filename aid st :
  (∀ folder_id, list_fails env folder_id = false) →
  truthy base = true → coherent st →
  NoDup (stored_files (items st)) →
  NoDup (stored_files (items (extract_part env mid sender base filename aid st).2)).
Proof.
  intros Hlist Hbase Hco Hnd. unfold extract_part.
  destruct (is_excel_name filename); cbn [negb]; [|done].
  destruct (create_drive_folder_spec env st
              (_sanitize_filename (sender_address sender)) base Hco (or_introl Hbase))
    as (Hco1 & _ & _).
  pose proof (create_drive_folder_files env st
                (_sanitize_filename (sender_address sender)) base) as Hfiles.
  destruct (_create_drive_folder env st _ base) as [T st1]. cbn [fst snd] in *.
  destruct (check_file_exists_spec env st1 T (final_filename mid filename) Hco1)
    as (_ & Hitems & _ & Hfound).
  specialize (Hfound (Hlist T)).
  destruct (_check_file_exists_in_drive env st1 T _) as [found st2]. cbn [fst snd] in *.
  assert (NoDup (stored_files (items st2))) as Hnd2 by (by rewrite Hitems, Hfiles).
  destruct found; [done|].
  destruct (fetch_fails env mid aid); [done|].
  destruct (upload_fails env T _); [done|].
  cbn [snd]. unfold upload. cbn [items]. rewrite stored_files_app.
  symmetry in Hfound. apply bool_decide_eq_false in Hfound.
  apply NoDup_app. split; [done|]. split.
  - intros x Hx. unfold stored_files at 1. rewrite filter_cons, decide_True by done. cbn.
    intros ->%list_elem_of_singleton. apply Hfound.
    rewrite <- Hitems. by apply stored_files_listing.
  - unfold stored_files. rewrite filter_cons, decide_True by done. cbn.
    apply NoDup_singleton.
Qed.

Lemma extract_part_folders env mid sender base filename aid st :
  NoDup (stored_folders (items st)) →
  NoDup (stored_folders (items (extract_part env mid sender base filename aid st).2)).
Proof.
  intros Hnd. unfold extract_part.
  destruct (is_excel_name filename); cbn [negb]; [|done].
  pose proof (create_drive_folder_folders env st
                (_sanitize_filename (sender_address sender)) base Hnd) as Hnd1.
  destruct (_create_drive_folder env st _ base) as [T st1]. cbn [fst snd] in *.
  assert (items (_check_file_exists_in_drive env st1 T (final_filename mid filename)).2
          = items st1) as Hitems.
  { unfold _check_file_exists_in_drive, _get_existing_files_in_folder.
    destruct (existing_files_cache st1 !! T); [done|].
    by destruct (list_fails env T). }
  destruct (_check_file_exists_in_drive env st1 T _) as [found st2]. cbn [fst snd] in *.
  assert (NoDup (stored_folders (items st2))) as Hnd2 by (by rewrite Hitems).
  destruct found; [done|].
  destruct (fetch_fails env mid aid); [done|].
  destruct (upload_fails env T _); [done|].
  cbn [snd]. unfold upload. cbn [items]. rewrite stored_folders_app.
  unfold stored_folders at 2. rewrite filter_cons, decide_False by done. cbn.
  by rewrite app_nil_r.
Qed.

(** X5.  A mail run never stores a second file of a name in a folder,
    nor a second folder of a name under a parent.  When the folder
    listings succeed and the files of the store have pairwise distinct
    (folder, name) pairs, and its folders pairwise distinct (parent,
    name) pairs, both still hold of the store [process_gmail_workflow]
    leaves, whatever the messages and whichever other calls fail. *)
Theorem run_keeps_names_unique (env : Faults) (gdrive_folder_id : string)
    (emails : list email) (st : state) :
  (∀ folder_id, list_fails env folder_id = false) →
  NoDup (stored_files (items st)) →
  NoDup (stored_folders (items st)) →
  let st' := (process_gmail_workflow env gdrive_folder_id emails (fresh_run st)).2 in
  NoDup (stored_files (items st')) ∧ NoDup (stored_folders (items st')).
Proof.
  intros Hlist Hfiles Hfolders st'. subst st'.
  apply (workflow_invariant
           (λ st, NoDup (stored_files (items st)) ∧ NoDup (stored_folders (items st)))).
  - intros mid sender base filename aid st1 Hbase Hco [H1 H2]. split.
    + by apply extract_part_files.
    + by apply extract_part_folders.
  - intros folder_name parent st1 [H1 H2]. split.
    + by rewrite create_drive_folder_files.
    + by apply create_drive_folder_folders.
  - done.
Qed.

Lemma run_keeps_names_unique_witness :
  let st' := (process_gmail_workflow no_faults "root" [grn_mail; grn_mail]
                (fresh_run empty_store)).2 in
  stored_files (items st') = [("new_1", "m1_grn_jan.xlsx")]
  ∧ NoDup (stored_files (items st')) ∧ NoDup (stored_folders (items st')).
Proof.
  split; [by vm_compute|].
  apply (run_keeps_names_unique no_faults "root" [grn_mail; grn_mail] empty_store).
  - intros folder_id. reflexivity.
  - apply NoDup_nil_2.
  - apply NoDup_nil_2.
Defined.

Lemma extract_part_present env mid sender base filename aid st :
  coherent st → truthy base = true →
  let r := extract_part env mid sender base filename aid st in
  let type_folder_id :=
    (_create_drive_folder env st (_sanitize_filename (sender_address sender)) base).1 in
  0 < r.1.1.1 + r.1.1.2 →
  final_filename mid filename ∈ listing (items r.2) type_folder_id.
Proof.
  intros Hco Hbase. unfold extract_part.
  destruct (is_excel_name filename); cbn [negb]; [|cbn; lia].
  destruct (create_drive_folder_spec env st
              (_sanitize_filename (sender_address sender)) base Hco (or_introl Hbase))
    as (Hco1 & _ & _).
  destruct (_create_drive_folder env st _ base) as [T st1]. cbn [fst snd] in *.
  destruct (check_file_exists_spec env st1 T (final_filename mid filename) Hco1)
    as (Hco2 & Hitems & Hfound & _).
  destruct (_check_file_exists_in_drive env st1 T _) as [found st2]. cbn [fst snd] in *.
  destruct found.
  { intros _. cbn [snd]. rewrite Hitems. by apply Hfound. }
  destruct (fetch_fails env mid aid); [cbn; lia|].
  destruct (upload_fails env T _); [cbn; lia|].
  intros _. cbn [snd]. by apply upload_spec.
Qed.

(** X6.  The cache of folder listings never goes stale during a run.
    At the end of [process_gmail_workflow], started with the empty cache
    of a run, every cached listing is the listing of the store.  And an
    attachment that is counted as saved or as skipped is in the sender
    folder when its visit ends: the duplicate check never skips a file
    that is not there. *)
Theorem cache_stays_exact (env : Faults) (gdrive_folder_id : string)
    (emails : list email) (st0 : state) :
  coherent (process_gmail_workflow env gdrive_folder_id emails (fresh_run st0)).2
  ∧ ∀ message_id sender base_folder_id filename attachment_id st,
      coherent st → truthy base_folder_id = true →
      let r := extract_part env message_id sender base_folder_id filename attachment_id st in
      let type_folder_id :=
        (_create_drive_folder env st (_sanitize_filename (sender_address sender))
           base_folder_id).1 in
      0 < r.1.1.1 + r.1.1.2 →
      final_filename message_id filename ∈ listing (items r.2) type_folder_id.
Proof.
  split.
  - unfold process_gmail_workflow. destruct emails as [|e0 emails0].
    { apply fresh_run_coherent. }
    set (emails := e0 :: emails0). clearbody emails.
    destruct (create_drive_folder_spec env (fresh_run st0) "Gmail_Attachments_BigBasket"
                gdrive_folder_id (fresh_run_coherent st0) (or_intror (lookup_empty _)))
      as (Hco1 & _ & _).
    destruct (_create_drive_folder env (fresh_run st0) _ gdrive_folder_id) as [B stB].
    cbn [fst snd] in *.
    destruct (truthy B) eqn:HB; cbn [negb]; [|done].
    destruct (process_emails_settle env B emails
                {| emails_checked := length emails; attachments_found := 0;
                   attachments_saved := 0; attachments_skipped := 0;
                   attachments_failed := 0 |} stB Hco1 HB) as (Hco2 & _ & _).
    by destruct (fold_left (process_email env B) emails _) as [s1 st1].
  - intros. by apply extract_part_present.
Qed.

End StoreInvariants.

(** ** What a mail run adds to the store *)

Module UploadCount.
Import PyStr Identity Drive Spec Terms DriveProofs DriveRuns StoreInvariants.

Lemma check_file_exists_items env st folder_id filename :
  items (_check_file_exists_in_drive env st folder_id filename).2 = items st.
Proof.
  unfold _check_file_exists_in_drive, _get_existing_files_in_folder.
  destruct (existing_files_cache st !! folder_id); [done|].
  by destruct (list_fails env folder_id).
Qed.

Lemma create_drive_folder_added env st folder_name parent_folder_id :
  ∃ more, items (_create_drive_folder env st folder_name parent_folder_id).2
          = items st ++ more
          ∧ stored_files more = [].
Proof.
  destruct (create_drive_folder_items env st folder_name parent_folder_id) as [->|[_ ->]].
  - exists []. by rewrite app_nil_r.
  - eexists. split; [done|]. unfold stored_files. by rewrite filter_cons, decide_False.
Qed.

Lemma extract_part_added env mid sender base filename aid st :
  ∃ more, items (extract_part env mid sender base filename aid st).2 = items st ++ more
    ∧ length (stored_files more)
      = (extract_part env mid sender base filename aid st).1.1.1.
Proof.
  unfold extract_part. destruct (is_excel_name filename); cbn [negb].
  2:{ exists []. by rewrite app_nil_r. }
  destruct (create_drive_folder_added env st
              (_sanitize_filename (sender_address sender)) base) as (m1 & Hm1 & Hf1).
  destruct (_create_drive_folder env st _ base) as [T st1]. cbn [fst snd] in *.
  pose proof (check_file_exists_items env st1 T (final_filename mid filename)) as Hitems.
  destruct (_check_file_exists_in_drive env st1 T _) as [found st2]. cbn [fst snd] in *.
  destruct found.
  { exists m1. cbn [fst snd]. rewrite Hitems, Hm1, Hf1. done. }
  destruct (fetch_fails env mid aid).
  { exists m1. cbn [fst snd]. rewrite Hitems, Hm1, Hf1. done. }
  destruct (upload_fails env T _).
  { exists m1. cbn [fst snd]. rewrite Hitems, Hm1, Hf1. done. }
  eexists. cbn [fst snd]. unfold upload. cbn [items]. rewrite Hitems, Hm1, <- app_assoc.
  split; [done|]. rewrite stored_files_app, Hf1. unfold stored_files.
  by rewrite filter_cons, decide_True.
Qed.

Lemma part_steps_added env mid sender base ls c st :
  ∃ more, items (fold_left (part_step env mid sender base) ls (c, st)).2 = items st ++ more
    ∧ c.1.1 + length (stored_files more)
      = (fold_left (part_step env mid sender base) ls (c, st)).1.1.1.
Proof.
  revert c st. induction ls as [|[filename aid] ls IH]; intros c st.
  - exists []. cbn. rewrite app_nil_r. split; [done|lia].
  - cbn [fold_left]. rewrite part_step_eq. cbn [fst snd].
    destruct (extract_part_added env mid sender base filename aid st) as (m1 & Hm1 & Hl1).
    destruct (IH (add_counts c (extract_part env mid sender base filename aid st).1)
                 (extract_part env mid sender base filename aid st).2)
      as (m2 & Hm2 & Hl2).
    exists (m1 ++ m2). rewrite Hm2, Hm1, <- app_assoc. split; [done|].
    rewrite <- Hl2, stored_files_app, length_app.
    destruct c as [[a b] d].
    destruct (extract_part env mid sender base filename aid st).1 as [[a' b'] d'].
    cbn [add_counts fst snd] in *. lia.
Qed.

Lemma process_email_added env base s st e :
  ∃ more, items (process_email env base (s, st) e).2 = items st ++ more
    ∧ attachments_saved (process_email env base (s, st) e).1
      = attachments_saved s + length (stored_files more).
Proof.
  unfold process_email. destruct (email_message e) as [[p|]|].
  - rewrite extract_attachments_leaves.
    destruct (part_steps_added env (email_id e) (email_sender e) base (leaves p)
                (0, 0, 0) st) as (more & Hm & Hl).
    destruct (fold_left _ (leaves p) _) as [[[a b] d] st']. cbn [fst snd] in *.
    exists more. split; [done|]. cbn. lia.
  - exists []. cbn. rewrite app_nil_r. split; [done|lia].
  - exists []. cbn. rewrite app_nil_r. split; [done|lia].
Qed.

Lemma process_emails_added env base emails s st :
  ∃ more, items (fold_left (process_email env base) emails (s, st)).2 = items st ++ more
    ∧ attachments_saved (fold_left (process_email env base) emails (s, st)).1
      = attachments_saved s + length (stored_files more).
Proof.
  revert s st. induction emails as [|e emails IH]; intros s st.
  - exists []. cbn. rewrite app_nil_r. split; [done|lia].
  - cbn [fold_left]. destruct (process_email_added env base s st e) as (m1 & Hm1 & Hl1).
    destruct (process_email env base (s, st) e) as [s1 st1]. cbn [fst snd] in *.
    destruct (IH s1 st1) as (m2 & Hm2 & Hl2).
    exists (m1 ++ m2). rewrite Hm2, Hm1, <- app_assoc. split; [done|].
    rewrite Hl2, Hl1, stored_files_app, length_app. lia.
Qed.

(** X7.  A mail run only adds to the store, and counts what it adds.
    The store [process_gmail_workflow] leaves is the store it found
    followed by new entries: nothing is removed, renamed or moved.  The
    new entries that are files are as many as [attachments_saved]. *)
Theorem saved_counts_files_added (env : Faults) (gdrive_folder_id : string)
    (emails : list email) (st : state) :
  let r := process_gmail_workflow env gdrive_folder_id emails st in
  ∃ more, items r.2 = items st ++ more
    ∧ length (stored_files more) = attachments_saved r.1.2.
Proof.
  cbn zeta. unfold process_gmail_workflow. destruct emails as [|e0 emails0].
  { exists []. cbn. by rewrite app_nil_r. }
  set (emails := e0 :: emails0). clearbody emails.
  destruct (create_drive_folder_added env st "Gmail_Attachments_BigBasket"
              gdrive_folder_id) as (m1 & Hm1 & Hf1).
  destruct (_create_drive_folder env st _ gdrive_folder_id) as [B stB].
  cbn [fst snd] in *.
  destruct (truthy B); cbn [negb].
  - set (s0 := {| emails_checked := length emails; attachments_found := 0;
                  attachments_saved := 0; attachments_skipped := 0;
                  attachments_failed := 0 |}).
    destruct (process_emails_added env B emails s0 stB) as (m2 & Hm2 & Hl2).
    destruct (fold_left (process_email env B) emails (s0, stB)) as [s1 st1].
    cbn [fst snd] in *. exists (m1 ++ m2). rewrite Hm2, Hm1, <- app_assoc.
    split; [done|]. rewrite stored_files_app, length_app, Hf1, Hl2. done.
  - exists m1. cbn [fst snd]. split; [done|]. by rewrite Hf1.
Qed.

End UploadCount.

(** ** What the cleanup pass writes *)

Module CleanupWrites.
Import PyStr PyNum Frame Cleanup Spec FrameProofs CleanupProofs.




Lemma row_le_trans j : Transitive (row_le j).
Proof. intros r1 r2 r3. unfold row_le. apply transitivity. Qed.

Lemma row_le_total j : Total (row_le j).
Proof. intros r1 r2. unfold row_le. apply total, _. Qed.

Lemma sort_rows_sorted j rows : StronglySorted (row_le j) (sort_rows j rows).
Proof.
  unfold sort_rows.
  apply (@StronglySorted_merge_sort _ (row_le j) _ (row_le_trans j) (row_le_total j)).
Qed.

Lemma clean_rows_width vals row : row ∈ clean_rows vals → length row = length (clean_headers vals).
Proof.
  intros H. rewrite (clean_rows_length vals row H). unfold clean_headers.
  by rewrite length_project.
Qed.

(** X9.  What the pass writes.  When [_remove_duplicates_from_sheet]
    rewrites the dataset, the body is the header line and the coerced
    cells of a list of rows that is a rearrangement of the rows left
    after deduplication and blank removal; when there is a PO No column
    the rows are in ascending order of its text; when there are both key
    columns no two rows have the same (Sku Code, PO No) texts; and every
    row has a non-blank cell and as many cells as the header line. *)
Theorem cleanup_writes_sorted_rows (vals : values) (body : list (list pyvalue)) :
  written (cleanup_pass vals) = Some body →
  ∃ headers rows,
    body = map VStr headers :: map (map process_value) rows
    ∧ rows ≡ₚ after_blank (cleanup_pass vals)
    ∧ (∀ j, position_of "PO No" headers = Some j → StronglySorted (row_le j) rows)
    ∧ (has_column "Sku Code" headers && has_column "PO No" headers = true →
       NoDup (map (subset_key key_subset headers) rows))
    ∧ Forall (λ row, all_blank row = false ∧ length row = length headers) rows.
Proof.
  intros Hw. assert (vals ≠ []) as Hne by (by intros ->).
  rewrite (cleanup_pass_eq vals Hne) in Hw |- *. cbn [written after_blank] in *.
  destruct (sort_raises vals) eqn:Hraise; [done|]. injection Hw as <-.
  exists (clean_headers vals), (sorted_rows vals).
  split; [done|]. split; [apply sorted_rows_Permutation|]. split; [|split].
  - intros j Hj. unfold position_of in Hj. unfold sorted_rows.
    unfold sort_raises in Hraise.
    destruct (subset_positions ["PO No"] (clean_headers vals)) as [|j' [|k l]] eqn:E;
      [done| |].
    + injection Hj as ->. apply sort_rows_sorted.
    + destruct (has_column "PO No" (clean_headers vals)) eqn:Hc; [done|].
      by rewrite (no_column_positions _ _ Hc) in E.
  - intros Hkeys. rewrite sorted_rows_Permutation. by apply clean_rows_keys_NoDup.
  - apply Forall_forall. intros row Hrow%sorted_rows_in. split.
    + by apply (clean_rows_nonblank vals).
    + by apply clean_rows_width.
Qed.

Lemma cleanup_writes_sorted_rows_witness :
  ∃ headers rows,
    [map VStr ["PO No"; "Sku Code"]; [VStr "PO1"; VStr "SKU1"]; [VStr "PO2"; VStr "SKU2"]]
    = map VStr headers :: map (map process_value) rows
    ∧ rows ≡ₚ after_blank (cleanup_pass scenario_sheet)
    ∧ (∀ j, position_of "PO No" headers = Some j → StronglySorted (row_le j) rows)
    ∧ (has_column "Sku Code" headers && has_column "PO No" headers = true →
       NoDup (map (subset_key key_subset headers) rows))
    ∧ Forall (λ row, all_blank row = false ∧ length row = length headers) rows.
Proof.
  apply (cleanup_writes_sorted_rows scenario_sheet). by vm_compute.
Defined.

End CleanupWrites.

(** ** Integers through the coercion of the cleanup pass *)

Module Coercion.
Import PyStr PyNum Cleanup Spec Terms StrFacts StripFacts.

(** A decimal digit. *)
Lemma digits_go_acc d acc :
  digits_go (Z.pos acc) false (NilEmpty.string_of_uint d) = Some (Z.pos (Pos.of_uint_acc d acc)).
Proof.
  revert acc. induction d as [|d IH|d IH|d IH|d IH|d IH|d IH|d IH|d IH|d IH|d IH];
    intros acc; [done|..]; cbn [NilEmpty.string_of_uint digits_go Pos.of_uint_acc];
    (rewrite decide_False by done);
    match goal with |- context [digit_val ?c] =>
      let v := eval vm_compute in (digit_val c) in change (digit_val c) with v end;
    cbv iota; rewrite <- IH; f_equal; lia.
Qed.

Lemma digits_go_zero d :
  digits_go 0 false (NilEmpty.string_of_uint d) = Some (Z.of_N (Pos.of_uint d)).
Proof.
  induction d as [|d IH|d IH|d IH|d IH|d IH|d IH|d IH|d IH|d IH|d IH];
    [done|exact IH|..]; cbn [NilEmpty.string_of_uint digits_go Pos.of_uint];
    (rewrite decide_False by done);
    match goal with |- context [digit_val ?c] =>
      let v := eval vm_compute in (digit_val c) in change (digit_val c) with v end;
    cbv iota; apply digits_go_acc.
Qed.

Lemma digitpart_of_uint d :
  d ≠ Decimal.Nil →
  digitpart (NilEmpty.string_of_uint d) = Some (Z.of_N (Pos.of_uint d)).
Proof.
  destruct d as [|d|d|d|d|d|d|d|d|d|d]; [done|intros _..];
    cbn [NilEmpty.string_of_uint digitpart Pos.of_uint];
    match goal with |- context [digit_val ?c] =>
      let v := eval vm_compute in (digit_val c) in change (digit_val c) with v end;
    cbv iota; first [apply digits_go_zero | apply digits_go_acc].
Qed.

Lemma all_chars_impl (p q : ascii → bool) s :
  (∀ c, p c = true → q c = true) → all_chars p s = true → all_chars q s = true.
Proof.
  intros Hpq. induction s as [|c s IH]; [done|]. cbn.
  intros [Hc Hs]%andb_prop. by rewrite (Hpq c Hc), IH.
Qed.

Lemma int_char_facts c :
  int_char c = true →
  is_space c = false ∧ c ≠ "."%char ∧ c ≠ "e"%char ∧ lower_char c = c.
Proof. destruct c as [[] [] [] [] [] [] [] []]; vm_compute; intros; by repeat split. Qed.

Lemma string_of_uint_int_chars d : all_chars int_char (NilEmpty.string_of_uint d) = true.
Proof. induction d; cbn [NilEmpty.string_of_uint all_chars]; [done|by rewrite IHd..]. Qed.

Lemma of_Z_int_chars z : all_chars int_char (of_Z z) = true.
Proof.
  destruct z as [|p|p]; cbn [of_Z all_chars]; [done|apply string_of_uint_int_chars|].
  by rewrite string_of_uint_int_chars.
Qed.

Lemma strip_no_space s : all_chars (λ c, negb (is_space c)) s = true → strip s = s.
Proof.
  intros Hs.
  pose proof (strip_sandwich EmptyString s EmptyString eq_refl eq_refl) as H.
  rewrite app_empty_l, app_empty_r in H. apply H.
  - destruct s as [|c s]; [done|]. cbn in *. by apply andb_prop in Hs as [-> _].
  - rewrite <- all_chars_rev in Hs. destruct (String.rev s) as [|c t]; [done|].
    cbn in *. by apply andb_prop in Hs as [-> _].
Qed.

Lemma contains_char_false x s :
  all_chars (λ c, negb (bool_decide (c = x))) s = true →
  contains (String x EmptyString) s = false.
Proof.
  induction s as [|c s IH]; [done|]. cbn. intros [Hc Hs]%andb_prop.
  rewrite IH by done. apply negb_true_iff, bool_decide_eq_false in Hc.
  rewrite bool_decide_eq_false_2 by congruence. done.
Qed.

Lemma lower_int_chars s : all_chars int_char s = true → lower s = s.
Proof.
  unfold lower. induction s as [|c s IH]; [done|]. cbn.
  intros [Hc Hs]%andb_prop. rewrite IH by done.
  by destruct (int_char_facts c Hc) as (_ & _ & _ & ->).
Qed.

Lemma of_Z_nonempty z : of_Z z ≠ EmptyString.
Proof.
  destruct z as [|p|p]; [done| |done]. cbn [of_Z].
  pose proof (Unsigned.to_uint_nonnil p). by destruct (Pos.to_uint p).
Qed.

Lemma py_int_of_Z z : py_int (of_Z z) = Some z.
Proof.
  unfold py_int. rewrite strip_no_space.
  2:{ eapply all_chars_impl; [|apply of_Z_int_chars].
      intros c Hc. by destruct (int_char_facts c Hc) as (-> & _). }
  destruct z as [|p|p]; [done| |].
  - cbn [of_Z]. pose proof (digitpart_of_uint (Pos.to_uint p) (Unsigned.to_uint_nonnil p)) as H.
    rewrite DecimalPos.Unsigned.of_to in H. cbn [Z.of_N] in H.
    destruct (Pos.to_uint p) as [|d|d|d|d|d|d|d|d|d|d] eqn:E; done.
  - cbn [of_Z signed].
    rewrite (digitpart_of_uint (Pos.to_uint p) (Unsigned.to_uint_nonnil p)).
    by rewrite DecimalPos.Unsigned.of_to.
Qed.

(** X10.  An integer goes through the coercion of the cleanup pass
    unchanged: [int(str(z))] is [z], [process_value] turns the decimal
    text of an integer into that integer, never into a float or a
    string, and what the dataset then shows is the text it was read
    from, so a cell holding an integer in decimal form is the same after
    any number of passes. *)
Theorem integers_survive_coercion (z : Z) :
  py_int (of_Z z) = Some z
  ∧ process_value (of_Z z) = VInt z
  ∧ shown (process_value (of_Z z)) = of_Z z
  ∧ stable_cell (of_Z z).
Proof.
  assert (process_value (of_Z z) = VInt z) as H.
  { unfold process_value. rewrite bool_decide_eq_false_2 by apply of_Z_nonempty.
    rewrite lower_int_chars by apply of_Z_int_chars.
    rewrite (contains_char_false "."), (contains_char_false "e").
    - cbn [orb]. by rewrite py_int_of_Z.
    - eapply all_chars_impl; [|apply of_Z_int_chars]. intros c Hc.
      destruct (int_char_facts c Hc) as (_ & _ & ? & _).
      by rewrite bool_decide_eq_false_2.
    - eapply all_chars_impl; [|apply of_Z_int_chars]. intros c Hc.
      destruct (int_char_facts c Hc) as (_ & ? & _ & _).
      by rewrite bool_decide_eq_false_2. }
  split; [apply py_int_of_Z|]. split; [done|].
  unfold stable_cell. rewrite H. done.
Qed.

End Coercion.

(** ** The sanitizer applied twice, and the extension *)

Module SanitizerFacts.
Import PyStr Identity Spec StrFacts IdentityProofs.

Lemma split_sep_free sep s :
  Forall (λ part, all_chars (λ c, negb (bool_decide (c = sep))) part = true) (split sep s).
Proof.
  induction s as [|c s IH]; cbn; [by constructor|].
  case_decide as Hc.
  - by constructor.
  - pose proof (split_not_nil sep s). destruct (split sep s) as [|q qs]; [done|].
    inversion IH; subst. constructor; [|done]. cbn.
    by rewrite bool_decide_eq_false_2.
Qed.

Lemma join_cons sep p q qs : join sep (p :: q :: qs) = p +:+ sep +:+ join sep (q :: qs).
Proof. done. Qed.

Lemma join_split sep s : join (String sep EmptyString) (split sep s) = s.
Proof.
  induction s as [|c s IH]; [done|]. cbn [split].
  pose proof (split_not_nil sep s). destruct (split sep s) as [|q qs] eqn:E; [done|].
  case_decide as Hc.
  - subst c. rewrite join_cons, IH. done.
  - destruct qs as [|q' qs].
    + cbn in *. by rewrite IH.
    + rewrite join_cons in *. rewrite app_cons. by rewrite IH.
Qed.

Lemma split_sep_free_id sep e :
  all_chars (λ c, negb (bool_decide (c = sep))) e = true → split sep e = [e].
Proof.
  induction e as [|c e IH]; cbn; [done|]. intros [Hc Hr]%andb_prop.
  case_decide; [subst; by rewrite bool_decide_eq_true_2 in Hc|].
  by rewrite IH.
Qed.

Lemma split_app_sep sep a e :
  all_chars (λ c, negb (bool_decide (c = sep))) e = true →
  split sep (a +:+ String sep e) = split sep a ++ [e].
Proof.
  intros He. induction a as [|c a IH].
  - rewrite app_empty_l. cbn. rewrite decide_True by done.
    by rewrite split_sep_free_id.
  - rewrite app_cons. cbn. case_decide; [by rewrite IH|].
    rewrite IH. pose proof (split_not_nil sep a). by destruct (split sep a).
Qed.

Lemma join_snoc sep l e : l ≠ [] → join sep (l ++ [e]) = join sep l +:+ sep +:+ e.
Proof.
  induction l as [|p l IH]; [done|]. intros _. destruct l as [|q l]; [done|].
  change ((p :: q :: l) ++ [e]) with (p :: (q :: l) ++ [e]).
  change ((q :: l) ++ [e]) with (q :: (l ++ [e])) at 1.
  rewrite join_cons. change (q :: l ++ [e]) with ((q :: l) ++ [e]).
  rewrite IH by done. rewrite join_cons. by rewrite !app_assoc.
Qed.

(** A name with a dot is its base, a dot and its extension. *)
Lemma split_decompose s :
  1 < length (split "." s) →
  s = join "." (but_last (split "." s)) +:+ "." +:+ last_part (split "." s)
  ∧ all_chars (λ c, negb (bool_decide (c = "."%char))) (last_part (split "." s)) = true.
Proof.
  intros Hlen. pose proof (split_not_nil "." s) as Hne.
  pose proof (split_sep_free "." s) as Hfree.
  pose proof (join_split "." s) as Hjoin.
  unfold but_last, last_part.
  rewrite (app_removelast_last EmptyString Hne) in Hjoin, Hlen.
  rewrite join_snoc in Hjoin.
  - split; [done|]. by apply Forall_last.
  - intros Hnil. rewrite Hnil in Hlen. cbn in Hlen. lia.
Qed.

Lemma sanitize_filename_fixed s :
  all_chars legal s = true → len s ≤ 100 → _sanitize_filename s = s.
Proof.
  intros Hlegal Hlen. rewrite sanitize_filename_short by done.
  by apply re_sub_illegal_id.
Qed.

Lemma slice_to_slice_to n s : slice_to n (slice_to n s) = slice_to n s.
Proof. apply slice_to_all, len_slice_to. Qed.

(** The result for a long name with a dot-free extension [e]. *)
Lemma sanitize_filename_long a e :
  all_chars legal (a +:+ String "." e) = true →
  all_chars (λ c, negb (bool_decide (c = "."%char))) e = true →
  100 < len (a +:+ String "." e) →
  _sanitize_filename (a +:+ String "." e) = slice_to 95 a +:+ String "." e.
Proof.
  intros Hlegal He Hlong. unfold _sanitize_filename. cbn zeta.
  rewrite re_sub_illegal_id by done.
  rewrite (proj2 (Nat.ltb_lt _ _) Hlong).
  rewrite split_app_sep by done.
  pose proof (split_not_nil "." a) as Hne.
  assert ((1 <? length (split "." a ++ [e])) = true) as ->.
  { apply Nat.ltb_lt. rewrite length_app. cbn [length].
    destruct (split "." a); [done|]. cbn [length]. lia. }
  unfold last_part, but_last. rewrite last_last, removelast_last.
  by rewrite join_split.
Qed.

Lemma sanitize_filename_cases filename :
  len (_sanitize_filename filename) ≤ 100
  ∨ ∃ a e, _sanitize_filename filename = slice_to 95 a +:+ String "." e
           ∧ all_chars (λ c, negb (bool_decide (c = "."%char))) e = true.
Proof.
  unfold _sanitize_filename. cbn zeta.
  destruct (100 <? len (re_sub_illegal filename)) eqn:E.
  2:{ apply Nat.ltb_ge in E. by left. }
  destruct (1 <? length (split "." (re_sub_illegal filename))) eqn:E2.
  2:{ left. apply len_slice_to. }
  apply Nat.ltb_lt in E2. destruct (split_decompose _ E2) as [_ He].
  right. by eexists _, _.
Qed.

Lemma sanitize_filename_twice filename :
  _sanitize_filename (_sanitize_filename filename) = _sanitize_filename filename.
Proof.
  pose proof (sanitize_filename_legal filename) as Hlegal.
  destruct (decide (len (_sanitize_filename filename) ≤ 100)) as [Hshort|Hlong].
  { by apply sanitize_filename_fixed. }
  destruct (sanitize_filename_cases filename) as [H|(a & e & Heq & He)]; [done|].
  rewrite Heq in *. rewrite sanitize_filename_long; [|done|done|lia].
  by rewrite slice_to_slice_to.
Qed.

Lemma lower_app s t : lower (s +:+ t) = lower s +:+ lower t.
Proof. apply map_chars_app. Qed.

Lemma endswith_sanitized filename suf :
  all_chars is_lower suf = true →
  endswith (String "." suf) (lower filename) = true →
  endswith (String "." suf) (lower (_sanitize_filename filename)) = true.
Proof.
  intros Hsuf [r Hr]%endswith_spec. unfold lower in Hr.
  apply map_chars_app_inv in Hr as (f1 & f2 & -> & _ & H2).
  destruct f2 as [|d e]; [done|]. cbn in H2. injection H2 as Hd He.
  apply lower_char_dot in Hd as ->.
  destruct (lower_inv_letters _ _ He Hsuf) as [Hplain Hlen].
  assert (re_sub_illegal (f1 +:+ String "." e) = re_sub_illegal f1 +:+ String "." e) as Hre.
  { unfold re_sub_illegal. rewrite map_chars_app. cbn.
    fold (re_sub_illegal e). by rewrite (re_sub_illegal_id e) by by apply plain_legal. }
  apply endswith_spec.
  unfold _sanitize_filename. cbn zeta. rewrite Hre.
  destruct (100 <? len (re_sub_illegal f1 +:+ String "." e)) eqn:E.
  - rewrite split_app_sep by by apply plain_no_dot.
    pose proof (split_not_nil "." (re_sub_illegal f1)) as Hne.
    assert ((1 <? length (split "." (re_sub_illegal f1) ++ [e])) = true) as ->.
    { apply Nat.ltb_lt. rewrite length_app. cbn [length].
      destruct (split "." (re_sub_illegal f1)); [done|]. cbn [length]. lia. }
    unfold last_part, but_last. rewrite last_last, removelast_last.
    eexists. rewrite !lower_app. f_equal. cbn. f_equal. exact He.
  - eexists. rewrite lower_app. f_equal. cbn. f_equal. exact He.
Qed.

(** X11.  Sanitizing a sanitized name changes nothing, so the name a
    file is stored under is a fixed point of [_sanitize_filename]; and a
    name that passes the attachment gate still passes it after
    sanitizing: the extension is never cut or altered. *)
Theorem sanitize_filename_idempotent (filename : string) :
  _sanitize_filename (_sanitize_filename filename) = _sanitize_filename filename
  ∧ (is_excel_name filename = true →
     is_excel_name (_sanitize_filename filename) = true).
Proof.
  split; [apply sanitize_filename_twice|].
  unfold is_excel_name. intros H.
  apply orb_prop in H as [H|H]; [apply orb_prop in H as [H|H]|];
    apply endswith_sanitized in H; try done; rewrite H; by rewrite ?orb_true_r.
Qed.

End SanitizerFacts.

(** ** The sender folder *)

Module SenderFolder.
Import PyStr Identity Drive Spec Terms Mail StrFacts IdentityProofs.

Lemma split_app_free sep a r :
  all_chars (λ c, negb (bool_decide (c = sep))) a = true →
  split sep (a +:+ r) = (a +:+ hd EmptyString (split sep r)) :: tail (split sep r).
Proof.
  intros Ha. induction a as [|c a IH].
  - rewrite !app_empty_l. pose proof (split_not_nil sep r). by destruct (split sep r).
  - cbn in Ha. apply andb_prop in Ha as [Hc Ha]. rewrite app_cons. cbn [split].
    apply negb_true_iff, bool_decide_eq_false in Hc. rewrite decide_False by done.
    by rewrite IH.
Qed.

Lemma split_first sep a r :
  all_chars (λ c, negb (bool_decide (c = sep))) a = true →
  split sep (a +:+ String sep r) = a :: split sep r.
Proof.
  intros Ha. rewrite split_app_free by done. cbn [split].
  rewrite decide_True by done. cbn. by rewrite app_empty_r.
Qed.

Lemma contains_app_char x a r : contains (String x EmptyString) (a +:+ String x r) = true.
Proof.
  induction a as [|c a IH].
  - rewrite app_empty_l. cbn. by rewrite bool_decide_eq_true_2.
  - rewrite app_cons. cbn [contains]. rewrite IH. apply orb_true_r.
Qed.

(** The address between the first pair of angle brackets. *)
Lemma sender_address_brackets name addr rest :
  all_chars (λ c, negb (bool_decide (c = "<"%char))) name = true →
  all_chars (λ c, negb (bool_decide (c = "<"%char))) addr = true →
  all_chars (λ c, negb (bool_decide (c = ">"%char))) addr = true →
  sender_address (name +:+ String "<" (addr +:+ String ">" rest)) = strip addr.
Proof.
  intros Hname Haddr1 Haddr2. unfold sender_address.
  rewrite contains_app_char.
  assert (contains ">" (name +:+ String "<" (addr +:+ String ">" rest)) = true) as ->.
  { rewrite <- (app_cons "<" addr), <- StrFacts.app_assoc. apply contains_app_char. }
  cbn [andb]. rewrite split_first by done. cbn [nth].
  rewrite split_app_free by done.
  change (nth 0 (?x :: ?l) EmptyString) with x.
  cbn [split hd]. rewrite decide_False by done.
  pose proof (split_not_nil "<" rest) as Hne.
  destruct (split "<" rest) as [|q qs]; [done|]. cbn [hd].
  rewrite split_first by done. done.
Qed.

(** X12.  Where the attachments of a message are filed.  When the From
    header of the message reads as a display name followed by an address
    in angle brackets, the sender folder is named by the sanitized
    address, white space around it removed, whatever follows the closing
    bracket; the name never holds a character of the replaced class; and
    when the metadata of the message cannot be fetched the folder is
    Unknown. *)
Theorem sender_folder_of_mailbox (message_id : string) (headers : list (string * string))
    (name addr rest : string) :
  header_value "From" "Unknown" headers = name +:+ String "<" (addr +:+ String ">" rest) →
  all_chars (λ c, negb (bool_decide (c = "<"%char))) name = true →
  all_chars (λ c, negb (bool_decide (c = "<"%char))) addr = true →
  all_chars (λ c, negb (bool_decide (c = ">"%char))) addr = true →
  sender_folder_name (_get_email_details message_id (Some headers))
  = _sanitize_filename (strip addr)
  ∧ all_chars legal (sender_folder_name (_get_email_details message_id (Some headers)))
    = true
  ∧ sender_folder_name (_get_email_details message_id None) = "Unknown".
Proof.
  intros Hfrom Hname Haddr1 Haddr2. unfold sender_folder_name. cbn [_get_email_details details_sender].
  rewrite Hfrom, sender_address_brackets by done.
  split; [done|]. split; [apply sanitize_filename_legal|done].
Qed.

Lemma sender_folder_of_mailbox_witness :
  sender_folder_name
    (_get_email_details "m1" (Some [("Subject", "GRN"); ("From", "Alerts <alerts@bigbasket.com>")]))
  = "alerts@bigbasket.com"
  ∧ sender_folder_name (_get_email_details "m1" None) = "Unknown".
Proof.
  destruct (sender_folder_of_mailbox "m1"
              [("Subject", "GRN"); ("From", "Alerts <alerts@bigbasket.com>")]
              "Alerts " "alerts@bigbasket.com" EmptyString)
    as (H1 & _ & H3); [reflexivity..|].
  split; [|exact H3]. rewrite H1. reflexivity.
Defined.

End SenderFolder.

(** ** Listings of the spreadsheet folder *)

Module ListingFacts.
Import PyStr Frame Index Reconciler Spec Terms Listing.

Lemma file_data_in_sheet_spec (processed_data : gset string) df :
  file_data_in_sheet processed_data df = true ↔
  ∃ row, row ∈ df_rows df
    ∧ row_get df "PO No" row ≠ EmptyString
    ∧ row_get df "Sku Code" row ≠ EmptyString
    ∧ row_key df row ∈ processed_data.
Proof.
  unfold file_data_in_sheet, row_key, truthy. rewrite existsb_exists. split.
  - intros (row & Hrow%list_elem_of_In & H).
    apply andb_prop in H as [[Hpo Hsku]%andb_prop Hin].
    apply negb_true_iff, bool_decide_eq_false in Hpo, Hsku.
    apply bool_decide_eq_true in Hin. by exists row.
  - intros (row & Hrow & Hpo & Hsku & Hin). exists row.
    split; [by apply list_elem_of_In|].
    rewrite !bool_decide_eq_false_2, bool_decide_eq_true_2 by done. done.
Qed.

Lemma mark_processed_spec env (processed_data acc : gset string) file name :
  name ∈ mark_processed env processed_data acc file ↔
  name ∈ acc
  ∨ (file_name file = name
     ∧ let df := _read_excel_file_robust (decoders env) (file_id file) (file_name file) in
       df_empty df = false ∧ has_key_columns df = true
       ∧ file_data_in_sheet processed_data df = true).
Proof.
  unfold mark_processed. cbn zeta.
  destruct (df_empty _); [naive_solver|].
  destruct (has_key_columns _); cbn [negb]; [|naive_solver].
  destruct (file_data_in_sheet _ _); [|naive_solver].
  rewrite elem_of_union, elem_of_singleton. naive_solver.
Qed.

Lemma fold_mark_processed env (processed_data : gset string) files acc name :
  name ∈ fold_left (mark_processed env processed_data) files acc ↔
  name ∈ acc
  ∨ ∃ file, file ∈ files ∧ file_name file = name
      ∧ let df := _read_excel_file_robust (decoders env) (file_id file) (file_name file) in
        df_empty df = false ∧ has_key_columns df = true
        ∧ file_data_in_sheet processed_data df = true.
Proof.
  revert acc. induction files as [|f files IH]; intros acc.
  - cbn. split; [by left|]. intros [?|(file & Hin & _)]; [done|].
    by apply elem_of_nil in Hin.
  - cbn [fold_left]. rewrite IH, mark_processed_spec. split.
    + intros [[?|[Hn H]]|(file & Hin & H)]; [by left|right..].
      * exists f. split; [left|done].
      * exists file. split; [by right|done].
    + intros [?|(file & Hin & H)]; [left; by left|].
      apply elem_of_cons in Hin as [->|Hin]; [left; right; done|].
      right. by exists file.
Qed.

(** X13.  Which files [_get_already_processed_drive_files] marks.  A
    name is in its result exactly when a listed file of that name parses
    to a non-empty table with both key columns and at least one of its
    rows has a non-blank PO and SKU whose key is in the index of the
    dataset: one known row is enough, the others need not be there.  So
    nothing is marked when the index is empty (the dataset is empty or
    cannot be read) and when the folder id is blank or the listing
    fails. *)
Theorem already_processed_files (env : Remote) (sheet_response : option values)
    (folder_id : string) (listing_response : option (list DriveFile)) :
  let processed := _get_already_processed_drive_files env sheet_response folder_id
                     listing_response in
  (∀ name, name ∈ processed ↔
     ∃ file, file ∈ _get_all_excel_files_in_folder folder_id listing_response
       ∧ file_name file = name
       ∧ let df := _read_excel_file_robust (decoders env) (file_id file) (file_name file) in
         df_empty df = false ∧ has_key_columns df = true
         ∧ ∃ row, row ∈ df_rows df
             ∧ row_get df "PO No" row ≠ EmptyString
             ∧ row_get df "Sku Code" row ≠ EmptyString
             ∧ row_key df row ∈ _get_processed_files_from_sheet sheet_response)
  ∧ (_get_processed_files_from_sheet sheet_response = ∅ → processed = ∅)
  ∧ (blank_folder_id folder_id = true ∨ listing_response = None → processed = ∅).
Proof.
  assert (∀ name,
    name ∈ _get_already_processed_drive_files env sheet_response folder_id listing_response
    ↔ ∃ file, file ∈ _get_all_excel_files_in_folder folder_id listing_response
       ∧ file_name file = name
       ∧ let df := _read_excel_file_robust (decoders env) (file_id file) (file_name file) in
         df_empty df = false ∧ has_key_columns df = true
         ∧ ∃ row, row ∈ df_rows df
             ∧ row_get df "PO No" row ≠ EmptyString
             ∧ row_get df "Sku Code" row ≠ EmptyString
             ∧ row_key df row ∈ _get_processed_files_from_sheet sheet_response) as Hspec.
  { intros name. unfold _get_already_processed_drive_files. cbn zeta.
    rewrite fold_mark_processed. split.
    - intros [Hin|(file & Hin & Hn & He & Hk & Hd)]; [set_solver|].
      exists file. cbn zeta in *. apply file_data_in_sheet_spec in Hd. done.
    - intros (file & Hin & Hn & He & Hk & Hd). right.
      exists file. cbn zeta in *. apply file_data_in_sheet_spec in Hd. done. }
  cbn zeta. split; [exact Hspec|]. split.
  - intros Hempty. apply set_eq. intros name. rewrite Hspec, Hempty. set_solver.
  - intros Hblank. apply set_eq. intros name. rewrite Hspec.
    assert (_get_all_excel_files_in_folder folder_id listing_response = []) as ->.
    { unfold _get_all_excel_files_in_folder.
      destruct Hblank as [-> | ->]; [done|by destruct (blank_folder_id folder_id)]. }
    set_solver.
Qed.

(** X14.  Without candidate files the file workflow does nothing.  When
    the folder id is blank, or the listing raises or is empty, and the
    counters are those of a fresh run, [process_excel_workflow] reads no
    file, appends nothing, runs no cleanup pass and leaves the dataset
    and every counter as they were. *)
Theorem excel_workflow_without_files (env : Remote) (s : Stats) (folder_id : string)
    (listing_response : option (list DriveFile)) (grid0 : values) :
  blank_folder_id folder_id = true ∨ listing_response = None ∨ listing_response = Some [] →
  files_processed s = 0 →
  let r := excel_workflow env s folder_id listing_response grid0 in
  grid r = grid0 ∧ appends r = [] ∧ reads r = []
  ∧ files_found (stats r) = 0
  ∧ files_processed (stats r) = 0
  ∧ files_skipped (stats r) = files_skipped s
  ∧ files_failed (stats r) = files_failed s
  ∧ duplicates_removed (stats r) = duplicates_removed s.
Proof.
  intros Hnone Hs. unfold excel_workflow.
  assert (_get_excel_files_filtered folder_id listing_response = []) as ->.
  { unfold _get_excel_files_filtered.
    destruct Hnone as [-> |[-> | ->]]; [done|by destruct (blank_folder_id folder_id)..]. }
  unfold process_excel_workflow, reconcile. cbn [length start_run stats set_files_found
    files_processed]. rewrite Hs. done.
Qed.

Lemma excel_workflow_without_files_witness :
  let r := excel_workflow (healthy (one_table full_table)) zero_stats "  "
             (Some [grn_file]) legacy_sheet in
  grid r = legacy_sheet ∧ appends r = [] ∧ reads r = []
  ∧ files_found (stats r) = 0
  ∧ files_processed (stats r) = 0
  ∧ files_skipped (stats r) = files_skipped zero_stats
  ∧ files_failed (stats r) = files_failed zero_stats
  ∧ duplicates_removed (stats r) = duplicates_removed zero_stats.
Proof.
  apply (excel_workflow_without_files (healthy (one_table full_table)) zero_stats "  "
           (Some [grn_file]) legacy_sheet).
  - left. reflexivity.
  - reflexivity.
Defined.

End ListingFacts.

(** ** Raw extraction of a workbook *)

Module RawXmlFacts.
Import PyStr PyNum Frame Spec Terms RawXml StrFacts StripFacts Coercion CleanupProofs.

(** *** Cell references *)

Lemma digits_go_nat d acc :
  digits_go (Z.of_nat acc) false (NilEmpty.string_of_uint d)
  = Some (Z.of_nat (Nat.of_uint_acc d acc)).
Proof.
  revert acc. induction d as [|d IH|d IH|d IH|d IH|d IH|d IH|d IH|d IH|d IH|d IH];
    intros acc; [done|..]; cbn [NilEmpty.string_of_uint digits_go Nat.of_uint_acc];
    (rewrite decide_False by done);
    match goal with |- context [digit_val ?c] =>
      let v := eval vm_compute in (digit_val c) in change (digit_val c) with v end;
    cbv iota; rewrite <- IH; f_equal; rewrite Nat.tail_mul_spec; lia.
Qed.

Lemma digitpart_nat d :
  d ≠ Decimal.Nil →
  digitpart (NilEmpty.string_of_uint d) = Some (Z.of_nat (Nat.of_uint d)).
Proof.
  unfold Nat.of_uint.
  destruct d as [|d|d|d|d|d|d|d|d|d|d]; [done|intros _..];
    cbn [NilEmpty.string_of_uint digitpart Nat.of_uint_acc];
    match goal with |- context [digit_val ?c] =>
      let v := eval vm_compute in (digit_val c) in change (digit_val c) with v end;
    cbv iota; cbn [Nat.tail_mul Nat.tail_addmul];
    match goal with |- digits_go ?z _ _ = _ =>
      let n := eval vm_compute in (Z.to_nat z) in change z with (Z.of_nat n) end;
    apply digits_go_nat.
Qed.

Lemma to_uint_nonnil n : Nat.to_uint n ≠ Decimal.Nil.
Proof.
  rewrite <- (DecimalNat.Unsigned.of_to n) at 1. rewrite DecimalNat.Unsigned.to_of.
  apply DecimalFacts.unorm_nonnil.
Qed.

Lemma of_nat_int_chars n : all_chars int_char (of_nat n) = true.
Proof. apply string_of_uint_int_chars. Qed.

Lemma py_int_of_nat n : py_int (of_nat n) = Some (Z.of_nat n).
Proof.
  unfold py_int. rewrite strip_no_space.
  2:{ eapply all_chars_impl; [|apply of_nat_int_chars].
      intros c Hc. by destruct (int_char_facts c Hc) as (-> & _). }
  unfold of_nat.
  pose proof (digitpart_nat (Nat.to_uint n) (to_uint_nonnil n)) as H.
  rewrite DecimalNat.Unsigned.of_to in H.
  destruct (Nat.to_uint n) as [|d|d|d|d|d|d|d|d|d|d] eqn:E; done.
Qed.

Lemma filter_chars_app p s t :
  filter_chars p (s +:+ t) = filter_chars p s +:+ filter_chars p t.
Proof.
  induction s as [|c s IH]; [done|]. rewrite app_cons. cbn.
  destruct (p c); by rewrite IH.
Qed.

Lemma filter_chars_all p s : all_chars p s = true → filter_chars p s = s.
Proof.
  induction s as [|c s IH]; [done|]. cbn. intros [-> Hs]%andb_prop. by rewrite IH.
Qed.

Lemma filter_chars_none p s :
  all_chars (λ c, negb (p c)) s = true → filter_chars p s = EmptyString.
Proof.
  induction s as [|c s IH]; [done|]. cbn. intros [Hc Hs]%andb_prop.
  apply negb_true_iff in Hc. rewrite Hc. by apply IH.
Qed.

Lemma upper_char_facts c :
  is_upper c = true →
  is_alpha c = true ∧ is_digit c = false
  ∧ 1 ≤ nat_of_ascii c + 1 - 65 ≤ 26.
Proof. destruct c as [[] [] [] [] [] [] [] []]; vm_compute; intros; try done; lia. Qed.

Lemma digit_char_facts c :
  int_char c = true → c ≠ "-"%char → is_alpha c = false ∧ is_digit c = true.
Proof. destruct c as [[] [] [] [] [] [] [] []]; vm_compute; intros; done. Qed.

Lemma string_of_uint_digits d :
  all_chars (λ c, int_char c && negb (bool_decide (c = "-"%char)))
            (NilEmpty.string_of_uint d) = true.
Proof. induction d; cbn [NilEmpty.string_of_uint all_chars]; [done|by rewrite IHd..]. Qed.

(** A reference is split into its letters and its digits. *)
Lemma reference_parts letters n :
  all_chars is_upper letters = true →
  filter_chars is_alpha (letters +:+ of_nat n) = letters
  ∧ filter_chars is_digit (letters +:+ of_nat n) = of_nat n.
Proof.
  intros Hl. rewrite !filter_chars_app.
  rewrite (filter_chars_all is_alpha letters), (filter_chars_none is_digit letters).
  - rewrite (filter_chars_none is_alpha (of_nat n)), (filter_chars_all is_digit (of_nat n)).
    + by rewrite app_empty_r.
    + eapply all_chars_impl; [|apply string_of_uint_digits].
      intros c [Hc Hm%negb_true_iff%bool_decide_eq_false]%andb_prop.
      by destruct (digit_char_facts c Hc Hm).
    + eapply all_chars_impl; [|apply string_of_uint_digits].
      intros c [Hc Hm%negb_true_iff%bool_decide_eq_false]%andb_prop.
      destruct (digit_char_facts c Hc Hm) as [-> _]. done.
  - eapply all_chars_impl; [|exact Hl]. intros c Hc.
    by destruct (upper_char_facts c Hc) as (_ & -> & _).
  - eapply all_chars_impl; [|exact Hl]. intros c Hc.
    by destruct (upper_char_facts c Hc) as (-> & _).
Qed.

Lemma cell_position_canonical letters n :
  all_chars is_upper letters = true →
  cell_position (letters +:+ of_nat n) = Some (n, column_number letters).
Proof.
  intros Hl. unfold cell_position.
  destruct (reference_parts letters n Hl) as [-> ->].
  by rewrite py_int_of_nat, Nat2Z.id.
Qed.

(** The column number of letters, read from the right. *)
Lemma chars_app s t : chars (s +:+ t) = chars s ++ chars t.
Proof. induction s as [|c s IH]; [done|]. rewrite app_cons. cbn. by rewrite IH. Qed.

Lemma chars_inj s t : chars s = chars t → s = t.
Proof.
  revert t. induction s as [|c s IH]; intros [|d t]; cbn; try done.
  intros [= -> H]. f_equal. by apply IH.
Qed.

Lemma all_chars_Forall p s : all_chars p s = true ↔ Forall (λ c, p c = true) (chars s).
Proof.
  induction s as [|c s IH]; cbn; [split; [constructor|done]|].
  rewrite andb_true_iff, Forall_cons, IH. done.
Qed.

Lemma column_letters_inj (l1 l2 : list ascii) :
  Forall (λ c, is_upper c = true) l1 → Forall (λ c, is_upper c = true) l2 →
  fold_left col_step l1 0 = fold_left col_step l2 0 → l1 = l2.
Proof.
  revert l2. induction l1 as [|c1 l1 IH] using rev_ind; intros l2 H1 H2.
  - destruct l2 as [|c2 l2 _] using rev_ind; [done|].
    rewrite fold_left_app. cbn. unfold col_step at 1.
    apply Forall_app in H2 as [_ [Hc _]%Forall_cons].
    destruct (upper_char_facts c2 Hc) as (_ & _ & ?). lia.
  - destruct l2 as [|c2 l2 _] using rev_ind.
    + rewrite fold_left_app. cbn. unfold col_step at 1.
      apply Forall_app in H1 as [_ [Hc _]%Forall_cons].
      destruct (upper_char_facts c1 Hc) as (_ & _ & ?). lia.
    + rewrite !fold_left_app. cbn. unfold col_step at 1 3.
      apply Forall_app in H1 as [H1 [Hc1 _]%Forall_cons].
      apply Forall_app in H2 as [H2 [Hc2 _]%Forall_cons].
      destruct (upper_char_facts c1 Hc1) as (_ & _ & ?).
      destruct (upper_char_facts c2 Hc2) as (_ & _ & ?).
      intros Heq.
      assert (fold_left col_step l1 0 = fold_left col_step l2 0
              ∧ nat_of_ascii c1 = nat_of_ascii c2) as [Hl Hc] by lia.
      rewrite (IH l2 H1 H2 Hl). f_equal.
      by rewrite <- (ascii_nat_embedding c1), Hc, ascii_nat_embedding.
Qed.

Lemma column_number_pos letters :
  all_chars is_upper letters = true → letters ≠ EmptyString → 1 ≤ column_number letters.
Proof.
  intros Hl Hne. unfold column_number. apply all_chars_Forall in Hl.
  assert (chars letters ≠ []) as Hc by (by destruct letters).
  destruct (chars letters) as [|c l _] using rev_ind; [done|].
  rewrite fold_left_app. cbn. unfold col_step at 1.
  apply Forall_app in Hl as [_ [Hu _]%Forall_cons].
  destruct (upper_char_facts c Hu) as (_ & _ & ?). lia.
Qed.

(** X15.  Cell references are decoded without collision.  The reference
    made of capital letters and the decimal row number [n] names row [n]
    and the column whose number is the letters read in base 26 with the
    digits A=1 to Z=26; that number is at least 1, so the cell is inside
    the ranges the table is built from whenever [n] is; and two such
    references name the same position only when they are the same. *)
Theorem cell_references_decode (letters letters' : string) (n n' : nat) :
  all_chars is_upper letters = true →
  all_chars is_upper letters' = true →
  cell_position (letters +:+ of_nat n) = Some (n, column_number letters)
  ∧ (letters ≠ EmptyString → 1 ≤ column_number letters)
  ∧ (cell_position (letters +:+ of_nat n) = cell_position (letters' +:+ of_nat n') →
     letters = letters' ∧ n = n').
Proof.
  intros Hl Hl'. split; [by apply cell_position_canonical|].
  split; [by apply column_number_pos|].
  rewrite !cell_position_canonical by done. intros [= -> Hc]. split; [|done].
  apply chars_inj, column_letters_inj; [by apply all_chars_Forall..|exact Hc].
Qed.

Lemma cell_references_decode_witness :
  cell_position "AB12" = Some (12, 28)
  ∧ (cell_position "AB12" = cell_position "AB12" → "AB" = "AB" ∧ 12 = 12).
Proof.
  destruct (cell_references_decode "AB" "AB" 12 12) as (H1 & _ & H3); [reflexivity..|].
  split; [exact H1|exact H3].
Defined.

(** *** Cleaned cell texts *)

Lemma remove_char_free x s :
  all_chars (λ c, negb (bool_decide (c = x))) (remove_char x s) = true.
Proof.
  induction s as [|c s IH]; [done|]. cbn. case_decide; [done|]. cbn.
  by rewrite bool_decide_eq_false_2, IH.
Qed.

Lemma remove_char_id x s :
  all_chars (λ c, negb (bool_decide (c = x))) s = true → remove_char x s = s.
Proof.
  induction s as [|c s IH]; [done|]. cbn. intros [Hc Hs]%andb_prop.
  apply negb_true_iff, bool_decide_eq_false in Hc.
  rewrite decide_False by done. by rewrite IH.
Qed.

Lemma strip_keeps p s : all_chars p s = true → all_chars p (strip s) = true.
Proof.
  destruct (strip_decompose s) as (l & r & Hs & _). intros H.
  rewrite Hs, !all_chars_app in H.
  by apply andb_prop in H as [_ [? _]%andb_prop].
Qed.

Lemma strip_solid s : starts_solid (strip s) = true ∧ starts_solid (String.rev (strip s)) = true.
Proof.
  unfold strip, rstrip. split; [|rewrite rev_involutive; apply lstrip_starts_solid].
  pose proof (lstrip_starts_solid s) as Ht.
  destruct (lstrip_decompose (String.rev (lstrip s))) as (l & Hl & _).
  apply (f_equal String.rev) in Hl. rewrite rev_involutive, rev_app_distr in Hl.
  destruct (String.rev (lstrip (String.rev (lstrip s)))) as [|c u]; [done|].
  rewrite Hl in Ht. by rewrite app_cons in Ht.
Qed.

Lemma strip_strip s : strip (strip s) = strip s.
Proof.
  destruct (strip_solid s) as [H1 H2].
  pose proof (strip_sandwich EmptyString (strip s) EmptyString eq_refl eq_refl H1 H2) as H.
  by rewrite app_empty_l, app_empty_r in H.
Qed.

(** X16.  [_clean_cell_value] gives the empty text for a missing value,
    leaves a number as it is, and never returns a text with an
    apostrophe.  On a text without apostrophes it is [strip], and
    cleaning what it returned changes nothing. *)
Theorem clean_cell_value_spec (s repr : string) :
  _clean_cell_value CNaN = CStr EmptyString
  ∧ _clean_cell_value (CNum repr) = CNum repr
  ∧ no_quote (cell_str (_clean_cell_value (CStr s))) = true
  ∧ (no_quote s = true →
     _clean_cell_value (CStr s) = CStr (strip s)
     ∧ _clean_cell_value (_clean_cell_value (CStr s)) = _clean_cell_value (CStr s)).
Proof.
  split; [done|]. split; [done|]. split; [apply remove_char_free|].
  intros Hs. cbn [_clean_cell_value].
  assert (remove_char "'" (strip s) = strip s) as Hid
    by (apply remove_char_id; by apply strip_keeps).
  by rewrite !Hid, strip_strip, Hid.
Qed.

(** *** The table that is built *)

Lemma add_cell_clean shared acc c sh' :
  (∀ sh, acc = Some sh → ∀ k v, cell_data sh !! k = Some v → no_quote v = true) →
  add_cell shared acc c = Some sh' →
  ∀ k v, cell_data sh' !! k = Some v → no_quote v = true.
Proof.
  intros Hacc. unfold add_cell. destruct acc as [sh|]; [|done].
  destruct (cell_position (cell_ref c)) as [[row_num col_num]|]; [|done].
  intros [= <-] k v. cbn [cell_data].
  destruct (decide (k = (row_num, col_num))) as [->|Hne].
  - rewrite lookup_insert_eq. intros [= <-]. apply remove_char_free.
  - rewrite lookup_insert_ne by done. by apply Hacc.
Qed.

Lemma fold_add_cell_clean shared cells acc sh' :
  (∀ sh, acc = Some sh → ∀ k v, cell_data sh !! k = Some v → no_quote v = true) →
  fold_left (add_cell shared) cells acc = Some sh' →
  ∀ k v, cell_data sh' !! k = Some v → no_quote v = true.
Proof.
  revert acc. induction cells as [|c cells IH]; intros acc Hacc; cbn [fold_left].
  - intros H. by apply Hacc.
  - apply IH. intros sh Hsh. by eapply add_cell_clean.
Qed.

Lemma row_data_shape sh row :
  (∀ k v, cell_data sh !! k = Some v → no_quote v = true) →
  length (row_data sh row) = max_col sh
  ∧ Forall (λ s, no_quote s = true) (row_data sh row).
Proof.
  intros Hclean. unfold row_data. rewrite length_map, length_seq. split; [done|].
  apply Forall_fmap, Forall_forall. intros col _. cbn.
  destruct (cell_data sh !! (row, col)) as [v|] eqn:E; [by eapply Hclean|done].
Qed.

Lemma data_rows_shape sh r :
  (∀ k v, cell_data sh !! k = Some v → no_quote v = true) →
  r ∈ data_rows sh →
  length r = max_col sh ∧ Forall (λ s, no_quote s = true) r
  ∧ ∃ s, s ∈ r ∧ s ≠ EmptyString.
Proof.
  intros Hclean. unfold data_rows.
  intros [Hany (row & -> & _)%list_elem_of_fmap]%list_elem_of_filter.
  destruct (row_data_shape sh row Hclean) as [Hlen Hq]. split; [done|]. split; [done|].
  apply existsb_exists in Hany as (s & Hs%list_elem_of_In & Ht). exists s.
  split; [done|]. unfold truthy in Ht. by apply negb_true_iff, bool_decide_eq_false in Ht.
Qed.

Lemma frame_of_shaped headers rows :
  Forall (λ h, h ≠ EmptyString ∧ no_quote h = true) headers →
  Forall (λ r, length r = length headers ∧ Forall (λ s, no_quote s = true) r
               ∧ ∃ s, s ∈ r ∧ s ≠ EmptyString) rows →
  well_shaped (frame_of headers rows).
Proof.
  intros Hh Hr. unfold well_shaped, frame_of. cbn [df_columns df_rows]. split.
  - apply Forall_fmap. eapply Forall_impl; [exact Hh|]. done.
  - apply Forall_fmap. eapply Forall_impl; [exact Hr|].
    intros r (Hlen & Hq & s & Hs & Hne). cbn. rewrite !length_map. split; [done|]. split.
    + apply Forall_fmap. eapply Forall_impl; [exact Hq|]. intros t Ht. by exists t.
    + exists s. split; [|done]. apply list_elem_of_fmap. by exists s.
Qed.

Lemma no_quote_app s t : no_quote (s +:+ t) = no_quote s && no_quote t.
Proof. apply all_chars_app. Qed.

Lemma no_quote_of_nat n : no_quote (of_nat n) = true.
Proof.
  eapply all_chars_impl; [|apply of_nat_int_chars]. intros c Hc.
  destruct c as [[] [] [] [] [] [] [] []]; vm_compute in Hc |- *; done.
Qed.

Lemma column_label_shaped i : 
  "Column_" +:+ of_nat i ≠ EmptyString ∧ no_quote ("Column_" +:+ of_nat i) = true.
Proof. split; [done|]. rewrite no_quote_app, no_quote_of_nat. done. Qed.

Lemma header_name_shaped i h :
  no_quote h = true →
  Cleanup.header_name (i, h) ≠ EmptyString ∧ no_quote (Cleanup.header_name (i, h)) = true.
Proof.
  intros Hh. unfold Cleanup.header_name. destruct (truthy h) eqn:E.
  - split; [|done]. unfold truthy in E. by apply negb_true_iff, bool_decide_eq_false in E.
  - apply column_label_shaped.
Qed.

Lemma py_index_elem {A} (l : list A) k x : py_index l k = Some x → x ∈ l.
Proof.
  unfold py_index. repeat case_match; try done; apply list_elem_of_lookup_2.
Qed.

Lemma py_slice_from_elem {A} (l : list A) k x : x ∈ py_slice_from l k → x ∈ l.
Proof.
  unfold py_slice_from. case_match; intros Hx; eapply elem_of_sublist; try exact Hx;
    apply sublist_drop.
Qed.

Lemma build_frame_shaped data header_row n :
  (∀ r, r ∈ data → length r = n ∧ Forall (λ s, no_quote s = true) r
                   ∧ ∃ s, s ∈ r ∧ s ≠ EmptyString) →
  well_shaped (build_frame data header_row).
Proof.
  intros Hdata. unfold build_frame.
  assert (well_shaped empty_frame) as Hempty by (split; constructor).
  destruct (Z.of_nat (length data) <? Z.max 1 (header_row + 2))%Z; [done|].
  case_bool_decide.
  - destruct data as [|first rest]; [done|]. apply frame_of_shaped.
    + apply Forall_fmap, Forall_forall. intros i _. apply column_label_shaped.
    + apply Forall_forall. intros r Hr. rewrite length_map, length_seq.
      destruct (Hdata r Hr) as (-> & ? & ?).
      destruct (Hdata first) as (-> & _); [left|]. done.
  - destruct (header_row <? Z.of_nat (length data))%Z; [|done].
    destruct (py_index data header_row) as [header_cells|] eqn:E; [|done].
    apply py_index_elem in E. destruct (Hdata _ E) as (Hlen & Hq & _).
    apply frame_of_shaped.
    + apply Forall_fmap, Forall_forall. intros [i h] Hih%elem_of_enumerate. cbn.
      apply header_name_shaped. rewrite Forall_forall in Hq. apply Hq.
      by eapply list_elem_of_lookup_2.
    + apply Forall_forall. intros r Hr%py_slice_from_elem.
      rewrite length_map, length_enumerate, Hlen. by apply Hdata.
Qed.

(** X17.  Whatever the workbook holds, the table
    [_try_raw_xml_extraction] returns is well formed: every row has one
    cell under every column, no column label is empty, every cell is a
    text without apostrophe, and no row is blank throughout; it is the
    empty table when the stream is no archive, has no worksheet or no
    cell, or when a row number cannot be read. *)
Theorem raw_extraction_well_shaped (book : option Workbook) (header_row : Z) :
  well_shaped (_try_raw_xml_extraction book header_row)
  ∧ (book = None ∨ (∃ b, book = Some b ∧ (worksheet_cells b = None
                                           ∨ worksheet_cells b = Some [])) →
     _try_raw_xml_extraction book header_row = empty_frame).
Proof.
  assert (well_shaped empty_frame) as Hempty by (split; constructor).
  split.
  - unfold _try_raw_xml_extraction. destruct book as [b|]; [|done].
    destruct (worksheet_cells b) as [[|c cells]|]; [done| |done].
    destruct (fold_left _ _ _) as [sh|] eqn:E; [|done].
    case_bool_decide; [done|].
    apply (build_frame_shaped _ _ (max_col sh)). intros r Hr.
    apply data_rows_shape; [|done].
    eapply fold_add_cell_clean; [|exact E]. by intros sh0 [= <-] k v.
  - intros [->|(b & -> & [H|H])]; [done|..]; unfold _try_raw_xml_extraction; by rewrite H.
Qed.

End RawXmlFacts.

(** ** Cleaning a parsed table twice *)

Module CleanFrameFacts.
Import PyStr Frame Spec Terms FrameProofs ReconcilerProofs CleanupProofs RawXmlFacts.

Lemma unquote_unquote c : unquote (unquote c) = unquote c.
Proof.
  unfold unquote. cbn [cell_str]. f_equal. apply remove_char_id, remove_char_free.
Qed.

Lemma clean_row_clean_row cols row : clean_row cols (clean_row cols row) = clean_row cols row.
Proof.
  revert row. induction cols as [|col cols IH]; intros [|c row]; cbn; try done.
  rewrite IH. destruct (col_object col); [by rewrite unquote_unquote|done].
Qed.

Lemma clean_dataframe_twice df : _clean_dataframe (_clean_dataframe df) = _clean_dataframe df.
Proof.
  destruct (df_empty df) eqn:Hne.
  { unfold _clean_dataframe. by rewrite !Hne. }
  destruct (df_empty (_clean_dataframe df)) eqn:Hne'.
  { unfold _clean_dataframe at 1. by rewrite Hne'. }
  unfold _clean_dataframe at 1. rewrite Hne'. rewrite clean_dataframe_columns.
  destruct (_clean_dataframe df) as [cols rows] eqn:E. cbn [df_columns df_rows].
  assert (cols = df_columns df) as -> by (by rewrite <- (clean_dataframe_columns df), E).
  f_equal.
  assert (map (clean_row (df_columns df)) rows = rows) as ->.
  { apply map_id_on. intros row Hrow.
    destruct (clean_dataframe_rows df row Hne) as (raw & _ & -> & _); [by rewrite E|].
    apply clean_row_clean_row. }
  assert ((if 5 <=? length (df_columns df)
           then filter (λ row, fifth_col_mask row = true) rows else rows) = rows) as ->.
  { destruct (5 <=? length (df_columns df)) eqn:E5; [|done].
    apply filter_all. intros row Hrow.
    destruct (clean_dataframe_rows df row Hne) as (raw & _ & _ & Hmask); [by rewrite E|].
    apply Hmask. by apply Nat.leb_le. }
  apply drop_duplicates_by_id. rewrite map_id.
  pose proof (clean_dataframe_NoDup df Hne) as Hnd. by rewrite E in Hnd.
Qed.

(** X18.  Cleaning is idempotent.  [_clean_dataframe] applied to a table
    it has cleaned returns it unchanged, and so it does on every table
    [_read_excel_file_robust] returns: the apostrophes are gone, the rows
    that fail the mask on the fifth column are gone, and no row is there
    twice. *)
Theorem clean_dataframe_idempotent (df : DataFrame) (dec : Decoders)
    (file_id filename : string) :
  _clean_dataframe (_clean_dataframe df) = _clean_dataframe df
  ∧ _clean_dataframe (_read_excel_file_robust dec file_id filename)
    = _read_excel_file_robust dec file_id filename.
Proof.
  split; [apply clean_dataframe_twice|].
  destruct (read_excel_file_robust_cases dec file_id filename) as [->|(raw & _ & ->)];
    [done|apply clean_dataframe_twice].
Qed.

End CleanFrameFacts.

(** ** What the index built from the dataset holds *)

Module IndexFacts.
Import PyStr Frame Index Reconciler Spec Terms StrFacts StripFacts IndexProofs.

Lemma truthy_spec s : truthy s = true ↔ s ≠ EmptyString.
Proof. unfold truthy. by rewrite negb_true_iff, bool_decide_eq_false. Qed.

Lemma add_source_file_spec j (acc : gset string) row name :
  name ∈ add_source_file j acc row ↔
  name ∈ acc ∨ (j < length row ∧ strip (cell_at row j) = name ∧ name ≠ EmptyString).
Proof.
  unfold add_source_file. destruct (j <? length row) eqn:E.
  - apply Nat.ltb_lt in E. destruct (truthy (strip (cell_at row j))) eqn:Ht.
    + apply truthy_spec in Ht. rewrite elem_of_union, elem_of_singleton. naive_solver.
    + assert (strip (cell_at row j) = EmptyString) as Hs.
      { destruct (decide (strip (cell_at row j) = EmptyString)) as [|Hne]; [done|].
        apply truthy_spec in Hne. congruence. }
      naive_solver.
  - apply Nat.ltb_ge in E. split; [by left|]. intros [?|[? _]]; [done|lia].
Qed.

Lemma fold_add_source_file j data (acc : gset string) name :
  name ∈ fold_left (add_source_file j) data acc ↔
  name ∈ acc
  ∨ ∃ row, row ∈ data ∧ j < length row ∧ strip (cell_at row j) = name
           ∧ name ≠ EmptyString.
Proof.
  revert acc. induction data as [|r data IH]; intros acc.
  - cbn. split; [by left|]. intros [?|(row & Hin & _)]; [done|].
    by apply elem_of_nil in Hin.
  - cbn [fold_left]. rewrite IH, add_source_file_spec. split.
    + intros [[?|H]|(row & Hin & H)]; [by left|right..].
      * exists r. split; [left|done].
      * exists row. split; [by right|done].
    + intros [?|(row & Hin & H)]; [left; by left|].
      apply elem_of_cons in Hin as [->|Hin]; [left; by right|].
      right. by exists row.
Qed.

Lemma find_source_file_column_from_spec i headers j :
  find_source_file_column_from i headers = Some j ↔
  ∃ k h, j = i + k ∧ headers !! k = Some h ∧ is_source_file_header h = true
         ∧ ∀ k' h', k' < k → headers !! k' = Some h' → is_source_file_header h' = false.
Proof.
  revert i. induction headers as [|h0 headers IH]; intros i; cbn.
  - split; [done|]. by intros (k & h & _ & ? & _).
  - destruct (is_source_file_header h0) eqn:E.
    + split.
      * intros [= <-]. exists 0, h0. split; [lia|]. split; [done|]. split; [done|]. lia.
      * intros (k & h & -> & Hk & Hh & Hfirst). destruct k as [|k]; [f_equal; lia|].
        specialize (Hfirst 0 h0). cbn in Hfirst. rewrite Hfirst in E; [done|lia|done].
    + rewrite IH. split.
      * intros (k & h & -> & Hk & Hh & Hfirst). exists (S k), h.
        split; [lia|]. split; [done|]. split; [done|].
        intros [|k'] h' Hlt Hk'; cbn in Hk'; [congruence|].
        apply (Hfirst k'); [lia|done].
      * intros (k & h & -> & Hk & Hh & Hfirst). destruct k as [|k].
        { cbn in Hk. congruence. }
        exists k, h. split; [lia|]. split; [done|]. split; [done|].
        intros k' h' Hlt Hk'. apply (Hfirst (S k')); [lia|done].
Qed.

(** X19.  What the processed-source-file set holds.  The column used is
    the first one whose header contains source_file_name, in any case.
    A name is in the set exactly when some data row has it under that
    column, white space around it removed, and it is not empty; rows too
    short to reach the column are passed over.  Rows added at the end of
    the dataset never take a name out of the set. *)
Theorem source_file_names_spec (headers : list string) (data more : values) :
  (∀ j, find_source_file_column headers = Some j ↔
        ∃ h, headers !! j = Some h ∧ is_source_file_header h = true
             ∧ ∀ i h', i < j → headers !! i = Some h' → is_source_file_header h' = false)
  ∧ (∀ name, name ∈ _get_source_file_names_from_sheet (Some (headers :: data)) ↔
       ∃ j row, find_source_file_column headers = Some j ∧ row ∈ data
                ∧ j < length row ∧ strip (cell_at row j) = name ∧ name ≠ EmptyString)
  ∧ _get_source_file_names_from_sheet (Some (headers :: data))
    ⊆ _get_source_file_names_from_sheet (Some (headers :: data ++ more)).
Proof.
  assert (∀ data name, name ∈ _get_source_file_names_from_sheet (Some (headers :: data)) ↔
       ∃ j row, find_source_file_column headers = Some j ∧ row ∈ data
                ∧ j < length row ∧ strip (cell_at row j) = name ∧ name ≠ EmptyString)
    as Hspec.
  { intros d name. cbn [_get_source_file_names_from_sheet].
    destruct (find_source_file_column headers) as [j|].
    - rewrite fold_add_source_file. split.
      + intros [?|(row & H)]; [set_solver|]. by exists j, row.
      + intros (j' & row & [= <-] & H). right. by exists row.
    - split; [set_solver|]. by intros (j & row & ? & _). }
  split; [|split; [apply Hspec|]].
  - intros j. unfold find_source_file_column. rewrite find_source_file_column_from_spec.
    split.
    + intros (k & h & -> & H). by exists h.
    + intros (h & H). by exists j, h.
  - intros name. rewrite !Hspec. intros (j & row & Hj & Hrow & H).
    exists j, row. split; [done|]. split; [|done]. apply elem_of_app. by left.
Qed.

Lemma add_row_key_spec p s (acc : gset string) row key :
  key ∈ add_row_key p s acc row ↔
  key ∈ acc
  ∨ (Nat.max p s < length row
     ∧ strip (cell_at row p) ≠ EmptyString ∧ strip (cell_at row s) ≠ EmptyString
     ∧ key = unique_key (strip (cell_at row p)) (strip (cell_at row s))).
Proof.
  assert (∀ c, (if truthy c then strip c else EmptyString) = strip c) as Hstrip.
  { intros c. destruct (truthy c) eqn:E; [done|].
    destruct (decide (c = EmptyString)) as [->|Hne]; [done|].
    apply truthy_spec in Hne. congruence. }
  unfold add_row_key. rewrite !Hstrip. destruct (Nat.max p s <? length row) eqn:E.
  - apply Nat.ltb_lt in E.
    destruct (truthy (strip (cell_at row p))) eqn:Hp;
      destruct (truthy (strip (cell_at row s))) eqn:Hs; cbn [andb].
    + apply truthy_spec in Hp, Hs. rewrite elem_of_union, elem_of_singleton. naive_solver.
    + split; [by left|]. intros [?|(_ & _ & Hne & _)]; [done|].
      apply truthy_spec in Hne. congruence.
    + split; [by left|]. intros [?|(_ & Hne & _)]; [done|].
      apply truthy_spec in Hne. congruence.
    + split; [by left|]. intros [?|(_ & Hne & _)]; [done|].
      apply truthy_spec in Hne. congruence.
  - apply Nat.ltb_ge in E. split; [by left|]. intros [?|[? _]]; [done|lia].
Qed.

Lemma fold_add_row_key p s data (acc : gset string) key :
  key ∈ fold_left (add_row_key p s) data acc ↔
  key ∈ acc
  ∨ ∃ row, row ∈ data ∧ Nat.max p s < length row
      ∧ strip (cell_at row p) ≠ EmptyString ∧ strip (cell_at row s) ≠ EmptyString
      ∧ key = unique_key (strip (cell_at row p)) (strip (cell_at row s)).
Proof.
  revert acc. induction data as [|r data IH]; intros acc.
  - cbn. split; [by left|]. intros [?|(row & Hin & _)]; [done|].
    by apply elem_of_nil in Hin.
  - cbn [fold_left]. rewrite IH, add_row_key_spec. split.
    + intros [[?|H]|(row & Hin & H)]; [by left|right..].
      * exists r. split; [left|done].
      * exists row. split; [by right|done].
    + intros [?|(row & Hin & H)]; [left; by left|].
      apply elem_of_cons in Hin as [->|Hin]; [left; by right|].
      right. by exists row.
Qed.

(** X20.  What the content-key set holds.  A key is in the set exactly
    when some data row reaches both key columns and holds, white space
    removed, a non-empty PO and a non-empty SKU, of which the key is the
    two texts joined by a vertical bar; rows with a blank PO or SKU give
    no key.  Rows added at the end of the dataset never take a key out
    of the set. *)
Theorem content_keys_spec (headers : list string) (data more : values) :
  (∀ key, key ∈ _get_processed_files_from_sheet (Some (headers :: data)) ↔
     ∃ p s row, find_key_columns headers = (Some p, Some s) ∧ row ∈ data
       ∧ Nat.max p s < length row
       ∧ strip (cell_at row p) ≠ EmptyString ∧ strip (cell_at row s) ≠ EmptyString
       ∧ key = unique_key (strip (cell_at row p)) (strip (cell_at row s)))
  ∧ _get_processed_files_from_sheet (Some (headers :: data))
    ⊆ _get_processed_files_from_sheet (Some (headers :: data ++ more)).
Proof.
  assert (∀ data key, key ∈ _get_processed_files_from_sheet (Some (headers :: data)) ↔
     ∃ p s row, find_key_columns headers = (Some p, Some s) ∧ row ∈ data
       ∧ Nat.max p s < length row
       ∧ strip (cell_at row p) ≠ EmptyString ∧ strip (cell_at row s) ≠ EmptyString
       ∧ key = unique_key (strip (cell_at row p)) (strip (cell_at row s))) as Hspec.
  { intros d key. cbn [_get_processed_files_from_sheet].
    destruct (find_key_columns headers) as [[p|] [s|]].
    - rewrite fold_add_row_key. split.
      + intros [?|(row & H)]; [set_solver|]. by exists p, s, row.
      + intros (p' & s' & row & [= <- <-] & H). right. by exists row.
    - split; [set_solver|]. by intros (p' & s' & row & ? & _).
    - split; [set_solver|]. by intros (p' & s' & row & ? & _).
    - split; [set_solver|]. by intros (p' & s' & row & ? & _). }
  split; [apply Hspec|].
  intros key. rewrite !Hspec. intros (p & s & row & Hc & Hrow & H).
  exists p, s, row. split; [done|]. split; [|done]. apply elem_of_app. by left.
Qed.

(** A search that keeps the latest match returns the last match. *)
Lemma last_match_spec (p : string → bool) (f : list string → option nat) :
  f [] = None →
  (∀ hs h, f (hs ++ [h]) = if p h then Some (length hs) else f hs) →
  ∀ headers i,
    f headers = Some i ↔
    ∃ h, headers !! i = Some h ∧ p h = true
         ∧ ∀ j h', i < j → headers !! j = Some h' → p h' = false.
Proof.
  intros Hnil Hsnoc headers. induction headers as [|h0 headers IH] using rev_ind; intros i.
  - rewrite Hnil. split; [done|]. by intros (h & ? & _).
  - rewrite Hsnoc. destruct (p h0) eqn:E.
    + split.
      * intros [= <-]. exists h0. split; [by rewrite lookup_app_r, Nat.sub_diag|].
        split; [done|]. intros j h' Hlt Hj.
        apply lookup_lt_Some in Hj. rewrite length_app in Hj. cbn in Hj. lia.
      * intros (h & Hi & Hh & Hlast). f_equal.
        destruct (decide (i < length headers)) as [Hlt|Hge].
        -- specialize (Hlast (length headers) h0 Hlt).
           rewrite lookup_app_r, Nat.sub_diag in Hlast by done.
           rewrite Hlast in E; done.
        -- apply lookup_lt_Some in Hi. rewrite length_app in Hi. cbn in Hi. lia.
    + rewrite IH. split.
      * intros (h & Hi & Hh & Hlast). exists h.
        split; [by apply lookup_app_l_Some|]. split; [done|].
        intros j h' Hlt Hj. apply lookup_app_Some in Hj as [Hj|[Hge Hj]]; [by eapply Hlast|].
        apply list_lookup_singleton_Some in Hj as [_ <-]. done.
      * intros (h & Hi & Hh & Hlast).
        apply lookup_app_Some in Hi as [Hi|[Hge Hi]].
        -- exists h. split; [done|]. split; [done|]. intros j h' Hlt Hj.
           apply (Hlast j h' Hlt). by apply lookup_app_l_Some.
        -- apply list_lookup_singleton_Some in Hi as [_ <-]. congruence.
Qed.

(** X21.  Which columns the content-key set is read from.  The PO column
    is the last column whose header contains PO, in any case, and the
    SKU column the last one whose header contains SKU: a column is
    chosen exactly when its header matches and no header after it
    does.  The two searches are independent, and one header can be
    both. *)
Theorem key_columns_are_last_matches (headers : list string) (i : nat) :
  ((find_key_columns headers).1 = Some i ↔
     ∃ h, headers !! i = Some h ∧ is_po_header h = true
          ∧ ∀ j h', i < j → headers !! j = Some h' → is_po_header h' = false)
  ∧ ((find_key_columns headers).2 = Some i ↔
       ∃ h, headers !! i = Some h ∧ is_sku_header h = true
            ∧ ∀ j h', i < j → headers !! j = Some h' → is_sku_header h' = false).
Proof.
  split.
  - apply (last_match_spec is_po_header (λ hs, (find_key_columns hs).1)); [done|].
    intros hs h. rewrite find_key_columns_snoc. by destruct (find_key_columns hs).
  - apply (last_match_spec is_sku_header (λ hs, (find_key_columns hs).2)); [done|].
    intros hs h. rewrite find_key_columns_snoc. by destruct (find_key_columns hs).
Qed.

End IndexFacts.

(** ** What the file loop sends to the dataset *)

Module AppendFacts.
Import PyStr Frame Index Reconciler Spec Terms ReconcilerProofs TwoRuns IndexFacts.

(** X22.  The key kept in memory for an appended row is the key the
    index gives its line.  For a row whose PO and SKU cells are not
    missing values, the update of the content-key set after the append
    adds exactly what [_get_processed_files_from_sheet] adds for the
    line sent to the dataset, read under the same two column positions:
    the same key, or nothing when the PO or the SKU is blank. *)
Theorem appended_line_key (df : DataFrame) (E : gset string) (row : list cell)
    (p s : nat) :
  index_of "PO No" (column_names df) = Some p →
  index_of "Sku Code" (column_names df) = Some s →
  p < length row → s < length row →
  isna (at_col row p) = false → isna (at_col row s) = false →
  add_row_key p s E (map cell_text row) = add_key df E row.
Proof.
  intros Hp Hs Hlp Hls Hnp Hns.
  assert (∀ c, (if truthy c then strip c else EmptyString) = strip c) as Hstrip.
  { intros c. destruct (truthy c) eqn:E'; [done|].
    destruct (decide (c = EmptyString)) as [->|Hne]; [done|].
    apply truthy_spec in Hne. congruence. }
  unfold add_row_key, add_key, row_get. rewrite Hp, Hs, !Hstrip, length_map.
  rewrite (proj2 (Nat.ltb_lt _ _)) by lia.
  unfold cell_at. rewrite !nth_map_cell_text by done.
  fold (at_col row p) (at_col row s).
  assert (∀ c, isna c = false → cell_text c = cell_str c) as Htext by (by intros []).
  by rewrite !Htext.
Qed.

Lemma appended_line_key_witness :
  add_row_key 0 1 ∅ (map cell_text [CStr " P1 "; CStr "S1"])
  = add_key full_table ∅ [CStr " P1 "; CStr "S1"].
Proof.
  apply (appended_line_key full_table ∅ [CStr " P1 "; CStr "S1"] 0 1);
    first [reflexivity | cbn; lia].
Defined.

(** *** The dataset before the cleanup pass *)

Lemma process_file_step env r file :
  let r' := process_file env r file in
  (appends r' = appends r ∧ grid r' = grid r
   ∧ is_first_file r' = is_first_file r ∧ sheet_has_headers r' = sheet_has_headers r)
  ∨ (df_rows (candidate_rows env (existing_data r) file) ≠ []
     ∧ appends r'
       = (file_name file,
          append_body (candidate_rows env (existing_data r) file)
            (is_first_file r && negb (sheet_has_headers r))) :: appends r
     ∧ grid r'
       = grid r ++ append_body (candidate_rows env (existing_data r) file)
                     (is_first_file r && negb (sheet_has_headers r))
     ∧ is_first_file r' = false).
Proof.
  unfold process_file.
  destruct (df_empty (_read_excel_file_robust _ _ _)) eqn:E; [by left|]. cbn zeta.
  cbn [existing_data with_read is_first_file sheet_has_headers].
  destruct (has_key_columns (labelled env file)
            && df_empty (candidate_rows env (existing_data r) file)) eqn:E2; [by left|].
  destruct (bool_decide _ || append_ok env _); [|by left].
  right. split; [|done].
  unfold candidate_rows in *. destruct (has_key_columns (labelled env file)) eqn:Hk.
  - cbn [andb] in E2. by apply df_empty_false in E2 as [_ ?].
  - pose proof (add_source_file_name_nonempty (file_name file) _ E) as Hl.
    fold (labelled env file) in Hl. by apply df_empty_false in Hl as [_ ?].
Qed.

Lemma append_body_nonempty df flag : df_rows df ≠ [] → append_body df flag ≠ [].
Proof. unfold append_body. destruct flag; [done|]. by destruct (df_rows df). Qed.

Lemma process_loop_grid env files r :
  let r' := fold_left (process_file env) files r in
  ∃ new, appends r' = new ++ appends r
    ∧ grid r' = grid r ++ concat (rev (map snd new))
    ∧ sublist (rev (map fst new)) (map file_name files)
    ∧ Forall (λ nb, nb.2 ≠ []) new.
Proof.
  revert r. induction files as [|f files IH]; intros r.
  - exists []. cbn. rewrite ?app_nil_r. split; [done|]. split; [done|].
    split; constructor.
  - cbn [fold_left]. destruct (IH (process_file env r f)) as (new & Ha & Hg & Hs & Hn).
    cbn zeta in *.
    destruct (process_file_step env r f) as [(Ha1 & Hg1 & _)|(Hdf & Ha1 & Hg1 & _)].
    + exists new. rewrite Ha, Hg, Ha1, Hg1. split; [done|]. split; [done|].
      split; [|done]. cbn [map]. by apply sublist_cons.
    + exists (new ++ [(file_name f,
                       append_body (candidate_rows env (existing_data r) f)
                         (is_first_file r && negb (sheet_has_headers r)))]).
      rewrite Ha, Hg, Ha1, Hg1. split; [by rewrite <- app_assoc|]. split.
      * rewrite map_app, rev_app_distr. cbn. by rewrite ?app_nil_r, <- ?app_assoc.
      * split.
        -- rewrite map_app, rev_app_distr. cbn. by apply sublist_skip.
        -- apply Forall_app. split; [done|]. constructor; [|done]. cbn.
           by apply append_body_nonempty.
Qed.

(** X23.  The file loop only adds to the dataset.  Before the cleanup
    pass the dataset is the one the run found followed by the bodies of
    the appends, in the order they were made; the files appended are
    taken in the order of the listing, each entry of the listing at most
    once; and no append is made with an empty body. *)
Theorem reconciler_only_appends (env : Remote) (s : Stats) (files : list DriveFile)
    (grid0 : values) :
  let r := reconcile env s files grid0 in
  grid r = grid0 ++ concat (rev (map snd (appends r)))
  ∧ sublist (rev (map fst (appends r))) (map file_name files)
  ∧ Forall (λ nb, nb.2 ≠ []) (appends r).
Proof.
  cbn zeta. destruct (decide (files = [])) as [->|Hne].
  { cbn. rewrite ?app_nil_r. split; [done|]. split; constructor. }
  rewrite (reconcile_nonempty env s files grid0 Hne).
  match goal with |- context [fold_left (process_file env) ?fs ?r0] =>
    destruct (process_loop_grid env fs r0) as (new & Ha & Hg & Hs & Hn) end.
  cbn zeta in *. cbn [appends grid start_run] in *. rewrite app_nil_r in Ha.
  rewrite Ha, Hg. split; [done|]. split; [|done].
  etrans; [exact Hs|]. apply fmap_sublist, sublist_filter.
Qed.





(** X25.  A file that fails changes nothing but the counter.  A file
    whose download raises is counted as failed; and whenever a file is
    counted as failed (it parsed to nothing, or its append raised), no
    append is recorded, the dataset and the content-key set are as
    before, the header line is still to be sent if it was, and the other
    counters are unchanged. *)
Theorem failed_file_changes_nothing (env : Remote) (r : Run) (file : DriveFile) :
  let r' := process_file env r file in
  (download (decoders env) (file_id file) = None →
   files_failed (stats r') = S (files_failed (stats r)))
  ∧ (files_failed (stats r') = S (files_failed (stats r)) →
     appends r' = appends r ∧ grid r' = grid r
     ∧ existing_data r' = existing_data r
     ∧ is_first_file r' = is_first_file r
     ∧ sheet_has_headers r' = sheet_has_headers r
     ∧ files_processed (stats r') = files_processed (stats r)
     ∧ files_skipped (stats r') = files_skipped (stats r)).
Proof.
  cbn zeta. split.
  - intros Hd. unfold process_file, _read_excel_file_robust. rewrite Hd. done.
  - unfold process_file.
    destruct (df_empty (_read_excel_file_robust _ _ _)); [done|]. cbn zeta.
    destruct (has_key_columns _ && df_empty _); [cbn; lia|].
    destruct (bool_decide _ || append_ok env _); [cbn; lia|done].
Qed.

End AppendFacts.

(** ** What a run reports *)

Module RunFacts.
Import Orchestrator.

(** X26.  What [run_workflow] returns and records.  It returns [True]
    exactly when authentication succeeds and no error escapes the two
    workflows, whatever they return: a workflow that returns [False]
    does not fail the run, whose status is then Completed Successfully
    all the same.  It returns [True] exactly when that is the status.
    Every run attempts the summary exactly once, first, with the final
    status, and the notification at most once, after it. *)
Theorem run_workflow_outcome (env : Steps) :
  let r := run_workflow env in
  (returned r = true ↔
     authenticate env = Returns true
     ∧ ∃ gmail_success excel_success,
         process_gmail_workflow env = Returns gmail_success
         ∧ process_excel_workflow env = Returns excel_success)
  ∧ (returned r = true ↔ status r = "Completed Successfully")
  ∧ (trace r = [SummaryAttempt (status r) (summary_write_ok env)]
     ∨ trace r = [SummaryAttempt (status r) (summary_write_ok env);
                  NotificationAttempt (status r) (mail_send_ok env)]).
Proof.
  cbn zeta. unfold run_workflow.
  destruct (authenticate env) as [[]|e]; cbn.
  - destruct (process_gmail_workflow env) as [g|e]; cbn.
    + destruct (process_excel_workflow env) as [x|e]; cbn.
      * split; [split; [eauto|done]|]. split; [done|by right].
      * split; [split; [done|by intros [_ (? & ? & _ & ?)]]|].
        split; [done|by right].
    + split; [split; [done|by intros [_ (? & ? & ? & _)]]|]. split; [done|by right].
  - split; [split; [done|by intros [? _]]|]. split; [done|by left].
  - split; [split; [done|by intros [? _]]|]. split; [done|by right].
Qed.

End RunFacts.

(** ** The run log *)

Module SummaryFacts.
Import PyStr Summary.

Lemma update_a1_spec line sheet :
  drop 1 (update_a1 line sheet) = drop 1 sheet
  ∧ length (update_a1 line sheet) = Nat.max 1 (length sheet).
Proof. destruct sheet as [|first rest]; cbn; [done|]. split; [done|lia]. Qed.

Lemma ensure_headers_spec env sheet sheet' :
  ensure_headers env sheet = Some sheet' →
  drop 1 sheet' = drop 1 sheet ∧ length sheet ≤ length sheet' ≤ Nat.max 1 (length sheet).
Proof.
  destruct (update_a1_spec headers sheet) as [Hd Hl].
  unfold ensure_headers. repeat case_match; intros [= <-]; rewrite ?Hd, ?Hl; split; (done || lia).
Qed.

Lemma save_line_logged line done_lines :
  save_line all_ok line (headers :: done_lines) = headers :: done_lines ++ [line].
Proof. done. Qed.

Lemma save_lines_logged lines done_lines :
  fold_left (λ sheet line, save_line all_ok line sheet) lines (headers :: done_lines)
  = headers :: done_lines ++ lines.
Proof.
  revert done_lines. induction lines as [|line lines IH]; intros done_lines.
  - cbn. by rewrite app_nil_r.
  - cbn [fold_left]. rewrite save_line_logged.
    change (headers :: done_lines ++ [line]) with (headers :: (done_lines ++ [line])).
    by rewrite IH, <- app_assoc.
Qed.

Lemma save_lines_from_empty lines :
  fold_left (λ sheet line, save_line all_ok line sheet) lines []
  = match lines with
    | [] => []
    | _ => headers :: lines
    end.
Proof.
  destruct lines as [|line lines]; [done|]. cbn [fold_left].
  assert (save_line all_ok line [] = headers :: [] ++ [line]) as -> by done.
  by rewrite save_lines_logged.
Qed.

(** X27.  The run log keeps what it has and grows by one line per run.
    Whichever calls fail, [save_workflow_summary] leaves every line
    after the first as it was and in place, and adds at most the header
    line and the line of the run.  The line has one cell for each of the
    thirteen labels.  When the calls succeed, the log of any number of
    runs started on an empty sheet is the header line, written once,
    followed by the lines of the runs, oldest first. *)
Theorem log_grows_by_one_line (env : Calls) (start_time end_time : option string)
    (mail : Drive.MailStats) (files : Reconciler.Stats) (status : string)
    (sheet : values) (lines : list (list string)) :
  let sheet' := save_workflow_summary env start_time end_time mail files status sheet in
  (∃ added, drop 1 sheet' = drop 1 sheet ++ added ∧ length added ≤ 1)
  ∧ length sheet ≤ length sheet' ≤ length sheet + 2
  ∧ length (summary_data start_time end_time mail files status) = length headers
  ∧ fold_left (λ sheet line, save_line all_ok line sheet) lines []
    = match lines with
      | [] => []
      | _ => headers :: lines
      end.
Proof.
  cbn zeta. unfold save_workflow_summary, save_line.
  destruct (ensure_headers env sheet) as [sh|] eqn:E.
  - destruct (ensure_headers_spec _ _ _ E) as [Hd Hl].
    destruct (append_ok env).
    + split.
      { destruct sh as [|first rest].
        - exists []. destruct sheet; [cbn; split; [done|lia]|cbn in *; lia].
        - exists [summary_data start_time end_time mail files status].
          split; [|done]. change (drop 1 (first :: rest)) with rest in Hd.
          change (drop 1 ((first :: rest) ++ [summary_data start_time end_time mail files status]))
            with (rest ++ [summary_data start_time end_time mail files status]).
          by rewrite Hd. }
      split; [rewrite length_app; cbn; lia|]. split; [done|].
      apply save_lines_from_empty.
    + split; [exists []; split; [by rewrite app_nil_r, Hd|cbn; lia]|].
      split; [lia|]. split; [done|].
      apply save_lines_from_empty.
  - split; [exists []; split; [by rewrite app_nil_r|cbn; lia]|].
    split; [lia|]. split; [done|].
    apply save_lines_from_empty.
Qed.

End SummaryFacts.
